(** * Dataset-level feature attribution: a model of
      [captum/attr/_core/dataloader_attr.py] and the properties of its
      perturbation, reduction and output-reconstruction logic, followed by
      the layer utilities of [captum/optim/_utils/models.py]. *)

From stdpp Require Import gmap list sorting strings.
From Stdlib Require Import ZArith.

Local Open Scope nat_scope.

(** ** Python exceptions and fallible computations *)

(** The [assert] statements of [attribute], in source order, that of
    [__init__] and that of [_format_output]. *)
Inductive assertion :=
  | RolesLengthMismatch        (* lines 284-288 *)
  | RolesWithoutNeedAttr       (* lines 290-293 *)
  | BaselinesLengthMismatch    (* lines 304-309 *)
  | BaselineBatchDim (i : nat) (* lines 313-318 *)
  | MasksLengthMismatch        (* lines 322-327 *)
  | MaskBatchDim (i : nat)     (* lines 330-334 *)
  | UnsupportedMethod          (* lines 97-99 *)
  | OutputNotSingle.           (* _format_output *)

Inductive error :=
  | AssertionError (a : assertion)
  | StopIteration
  | IndexError
  | TypeError
  | ValueError
  | RuntimeError.

Inductive result (A : Type) :=
  | Ok (a : A)
  | Err (e : error).
Arguments Ok {A} a.
Arguments Err {A} e.

#[global] Instance result_ret : MRet result := @Ok.
#[global] Instance result_bind : MBind result := λ A B f m,
  match m with Ok a => f a | Err e => Err e end.
#[global] Instance result_fmap : FMap result := λ A B f m,
  match m with Ok a => Ok (f a) | Err e => Err e end.

Definition is_Ok {A} (m : result A) : Prop := ∃ a, m = Ok a.

(** [assert cond, msg] *)
Definition assert (cond : bool) (a : assertion) : result unit :=
  if cond then Ok () else Err (AssertionError a).

(** A computation that records the calls it makes to its collaborators: the
    calls made so far are kept when the computation raises. *)
Record traced (E A : Type) := Traced { calls : list E; outcome : result A }.
Arguments Traced {E A} calls outcome.
Arguments calls {E A} t.
Arguments outcome {E A} t.

#[global] Instance traced_ret {E} : MRet (traced E) := λ A a, Traced [] (Ok a).
#[global] Instance traced_bind {E} : MBind (traced E) := λ A B f m,
  match outcome m with
  | Ok a => Traced (calls m ++ calls (f a)) (outcome (f a))
  | Err e => Traced (calls m) (Err e)
  end.

(** Running a fallible step that calls nobody, and calling a collaborator. *)
Definition lift {E A} (m : result A) : traced E A := Traced [] m.
Definition call {E A} (ev : E) (m : result A) : traced E A := Traced [ev] m.

(** ** Tensors

    A tensor is a shape and its elements in row-major order, as PyTorch lays
    out a contiguous tensor. The operations below are the PyTorch operations
    the module uses, with the errors PyTorch raises. *)
Module Torch.

Record tensor (A : Type) := Tensor { shape : list nat; data : list A }.
Arguments Tensor {A} shape data.
Arguments shape {A} t.
Arguments data {A} t.

(** Number of elements of a shape. *)
Definition numel (s : list nat) : nat := foldr Nat.mul 1 s.

(** The elements of a tensor fill its shape. *)
Definition wf {A} (t : tensor A) : Prop := length (data t) = numel (shape t).

(** The [i]-th block of [k] consecutive elements, and the first [n] blocks. *)
Definition chunk {A} (k i : nat) (d : list A) : list A := take k (drop (i * k) d).
Definition chunks {A} (n k : nat) (d : list A) : list (list A) :=
  (λ i, chunk k i d) <$> seq 0 n.

(** [t.size(0)]: a tensor without dimensions has no dimension 0. *)
Definition size0 {A} (t : tensor A) : result nat :=
  match shape t with
  | [] => Err IndexError
  | n :: _ => Ok n
  end.

(** [t[0]]: the first slice along dimension 0. *)
Definition select0 {A} (t : tensor A) : result (tensor A) :=
  match shape t with
  | [] => Err IndexError
  | 0 :: _ => Err IndexError
  | S _ :: s => Ok (Tensor s (chunk (numel s) 0 (data t)))
  end.

(** [t.expand(dst)]: dimensions are aligned from the right; a dimension of
    size 1 is repeated, any other must agree, and dimensions that [t] lacks
    are added in front. Fewer sizes than dimensions is an error. *)
Fixpoint expand_data {A} (src dst : list nat) (d : list A) {struct dst}
    : result (list A) :=
  match dst with
  | [] => match src with [] => Ok d | _ :: _ => Err RuntimeError end
  | n :: dst' =>
      if bool_decide (length src < length dst) then
        r ← expand_data src dst' d; Ok (concat (replicate n r))
      else
        match src with
        | [] => Err RuntimeError
        | m :: src' =>
            if bool_decide (m = n) then
              rs ← mapM (expand_data src' dst') (chunks m (numel src') d);
              Ok (concat rs)
            else if bool_decide (m = 1) then
              r ← expand_data src' dst' d; Ok (concat (replicate n r))
            else Err RuntimeError
        end
  end.

Definition expand {A} (t : tensor A) (dst : list nat) : result (tensor A) :=
  Tensor dst <$> expand_data (shape t) dst (data t).

(** [t.reshape(s)] with explicit sizes: the element count must agree. *)
Definition reshape {A} (t : tensor A) (s : list nat) : result (tensor A) :=
  if bool_decide (numel s = numel (shape t)) then Ok (Tensor s (data t))
  else Err RuntimeError.

(** Broadcast of two shapes, computed on the reversed shapes because the
    alignment is from the last dimension. *)
Fixpoint broadcast_rev (r1 r2 : list nat) : result (list nat) :=
  match r1, r2 with
  | [], r | r, [] => Ok r
  | a :: r1', b :: r2' =>
      rest ← broadcast_rev r1' r2';
      if bool_decide (a = b) then Ok (a :: rest)
      else if bool_decide (a = 1) then Ok (b :: rest)
      else if bool_decide (b = 1) then Ok (a :: rest)
      else Err RuntimeError
  end.

Definition broadcast_shapes (s1 s2 : list nat) : result (list nat) :=
  reverse <$> broadcast_rev (reverse s1) (reverse s2).

(** An elementwise binary operation on two tensors, with broadcasting. *)
Definition binop {A} (f : A → A → A) (t1 t2 : tensor A) : result (tensor A) :=
  s ← broadcast_shapes (shape t1) (shape t2);
  d1 ← expand_data (shape t1) s (data t1);
  d2 ← expand_data (shape t2) s (data t2);
  Ok (Tensor s (zip_with f d1 d2)).

(** An elementwise operation with a Python number on one side. *)
Definition pointwise {A} (f : A → A) (t : tensor A) : tensor A :=
  Tensor (shape t) (f <$> data t).

(** A Python-style index into a dimension of size [n]: negative indices
    count from the end. *)
Definition norm_index (n : nat) (z : Z) : result nat :=
  if bool_decide (0 ≤ z < Z.of_nat n)%Z then Ok (Z.to_nat z)
  else if bool_decide (- Z.of_nat n ≤ z < 0)%Z then Ok (Z.to_nat (Z.of_nat n + z))
  else Err IndexError.

(** [t[ix]] for an integer tensor [ix]: every entry of [ix] selects a slice
    of [t] along dimension 0. *)
Definition index {A} (t : tensor A) (ix : tensor Z) : result (tensor A) :=
  match shape t with
  | [] => Err IndexError
  | n :: s =>
      js ← mapM (norm_index n) (data ix);
      Ok (Tensor (shape ix ++ s) (concat ((λ j, chunk (numel s) j (data t)) <$> js)))
  end.

(** One entry of [torch.gather]: the index must lie in [0, n). *)
Definition gather_at {A} (row : list A) (z : Z) : result A :=
  if bool_decide (0 ≤ z < Z.of_nat (length row))%Z then
    match row !! Z.to_nat z with Some a => Ok a | None => Err RuntimeError end
  else Err RuntimeError.

(** [torch.gather(input, -1, index)]: both operands have the same number of
    dimensions, the index is no larger than the input in every dimension
    but the last, and the result has the shape of the index. *)
Fixpoint gather_data {A} (ishape xshape : list nat) (inp : list A) (idx : list Z)
    {struct ishape} : result (list A) :=
  match ishape, xshape with
  | a :: s, b :: t =>
      match s, t with
      | [], [] => mapM (gather_at (take a inp)) (take b idx)
      | _ :: _, _ :: _ =>
          if bool_decide (b ≤ a) then
            rs ← mapM (λ i, gather_data s t (chunk (numel s) i inp)
                                            (chunk (numel t) i idx)) (seq 0 b);
            Ok (concat rs)
          else Err RuntimeError
      | _, _ => Err RuntimeError
      end
  | _, _ => Err RuntimeError
  end.

(** A tensor without dimensions takes part in [gather] as a tensor with one
    dimension of size 1. *)
Definition nonempty_dims (s : list nat) : list nat :=
  match s with [] => [1] | _ => s end.

Definition gather {A} (t : tensor A) (ix : tensor Z) : result (tensor A) :=
  Tensor (shape ix) <$>
    gather_data (nonempty_dims (shape t)) (nonempty_dims (shape ix)) (data t) (data ix).

(** [torch.cat([a, b])] along dimension 0. A tensor without dimensions cannot
    be concatenated, the empty one-dimensional tensor is skipped, and
    otherwise the trailing dimensions must agree. *)
Definition cat {A} (a b : tensor A) : result (tensor A) :=
  match shape a, shape b with
  | [], _ | _, [] => Err RuntimeError
  | n :: s, m :: s' =>
      if bool_decide (shape a = [0]) then Ok b
      else if bool_decide (shape b = [0]) then Ok a
      else if bool_decide (s = s') then Ok (Tensor (n + m :: s) (data a ++ data b))
      else Err RuntimeError
  end.

(** [torch.unique(t).tolist()]: the distinct values in increasing order. *)
Definition unique (t : tensor Z) : list Z :=
  merge_sort Z.le (remove_dups (data t)).

(** [torch.ones((1, n))] for a Python integer [n]. *)
Definition ones {A} (one : A) (n : Z) : result (tensor A) :=
  if bool_decide (0 ≤ n)%Z then
    Ok (Tensor [1; Z.to_nat n] (replicate (Z.to_nat n) one))
  else Err RuntimeError.

(** The element at a multi-index, by its row-major offset. *)
Fixpoint offset (s ix : list nat) : option nat :=
  match s, ix with
  | [], [] => Some 0
  | n :: s', i :: ix' =>
      if bool_decide (i < n) then (λ o, i * numel s' + o) <$> offset s' ix'
      else None
  | _, _ => None
  end.


End Torch.

Import Torch.

Arguments chunk : simpl never.
Arguments chunks : simpl never.

(** The arithmetic of tensor elements. Nothing is assumed of it: the
    properties below hold for any element type, floating point included. *)
Class Scalar (R : Type) := {
  szero : R;
  sone : R;
  sadd : R → R → R;
  ssub : R → R → R;
  smul : R → R → R;
  (** Python's [not v] on a number *)
  is_zero : R → bool
}.

#[global] Instance Z_scalar : Scalar Z := {|
  szero := 0%Z; sone := 1%Z;
  sadd := Z.add; ssub := Z.sub; smul := Z.mul;
  is_zero := Z.eqb 0
|}.

(** ** [class InputRole] *)
Module InputRole.
Definition need_attr : Z := 0.
Definition need_forward : Z := 1.
Definition no_forward : Z := 2.
End InputRole.

(** The classes an attribution method can be an instance of. *)
Inductive method_class :=
  | FeatureAblation
  | OtherMethod (name : string).

#[global] Instance method_class_eq_dec : EqDecision method_class.
Proof. solve_decision. Defined.

(** [SUPPORTED_METHODS = {FeatureAblation}] *)
Definition SUPPORTED_METHODS : list method_class := [FeatureAblation].

(** ** [class DataloaderAttribution] and its helpers *)

Section DataloaderAttr.
Context {R : Type} `{!Scalar R}.
(** The states a user-defined [reduce] threads through a traversal. *)
Context {Acc : Type}.

(** The Python values an accumulator or a metric can be. *)
Inductive pyobj :=
  | PyNone
  | PyTensor (t : tensor R)
  | PyObj (a : Acc).

(** What one iteration of the dataloader yields. *)
Inductive batch :=
  | BatchTuple (items : list (tensor R))
  | BatchList (items : list (tensor R))
  | BatchTensor (t : tensor R).

(** A baseline is a Python number or a tensor. *)
Inductive baseline :=
  | BScalar (r : R)
  | BTensor (t : tensor R).

Definition forward_fn : Type := list (tensor R) → result (tensor R).
Definition reduce_fn : Type := pyobj → tensor R → list (tensor R) → result pyobj.
Definition to_metric_fn : Type := pyobj → result pyobj.

(** The [additional_forward_args] handed to the ablation algorithm, which
    passes them on to [_forward_with_dataloader]. *)
Record forward_args := ForwardArgs {
  fa_dataloader : list batch;
  fa_input_roles : list Z;
  fa_baselines : list baseline;
  fa_feature_mask : list (tensor Z);
  fa_reduce : reduce_fn;
  fa_to_metric : option to_metric_fn;
  fa_perturbation_per_pass : Z;
  fa_show_progress : bool;
  fa_feature_idx_to_mask_idx : gmap Z (list nat)
}.

(** The calls [_forward_with_dataloader] makes to its collaborators. *)
Inductive forward_call :=
  | CallForward (forward_inputs : list (tensor R))
  | CallReduce (accum : pyobj) (output : tensor R) (inputs : list (tensor R))
  | CallToMetric (accum : pyobj).

(** default reducer when reduce is None *)
Definition _concat_tensors : reduce_fn := λ accum cur_output _,
  match accum with
  | PyNone => Ok (PyTensor cur_output)
  | PyTensor acc => PyTensor <$> cat acc cur_output
  | PyObj _ => Err TypeError
  end.

(** What iterating over a batch yields: the items of a tuple or list, the
    slices along dimension 0 of a tensor. *)
Definition batch_items (b : batch) : result (list (tensor R)) :=
  match b with
  | BatchTuple items | BatchList items => Ok items
  | BatchTensor t =>
      match shape t with
      | [] => Err TypeError
      | n :: s => Ok ((λ i, Tensor s (chunk (numel s) i (data t))) <$> seq 0 n)
      end
  end.

(** [not v] for the entries [v] of [row.tolist()]: a number is false when
    it is zero, a nested list when it is empty. *)
Definition falsy_entries (row : tensor R) : result (list bool) :=
  match shape row with
  | [] => Err TypeError
  | [_] => Ok (is_zero <$> data row)
  | n :: m :: _ => Ok (replicate n (bool_decide (m = 0)))
  end.

(** [d[k]] on a [defaultdict(list)]. (The lookup of a missing key also
    stores the empty list under it, which changes no later lookup.) *)
Definition lookup_default (d : gmap Z (list nat)) (k : Z) : list nat :=
  default [] (d !! k).

(** Lines 121-126: the input/mask indices that need perturbation. *)
Definition perturbation_mask_indices (flags : list bool)
    (feature_idx_to_mask_idx : gmap Z (list nat)) : gset nat :=
  foldl (λ (acc : gset nat) '(i, v),
           if (v : bool)
           then acc ∪ list_to_set (lookup_default feature_idx_to_mask_idx (Z.of_nat i))
           else acc)
        ∅ (zip (seq 0 (length flags)) flags).

(** Lines 128-134: the binary mask of every input, [None] where no
    perturbation is needed. *)
Definition perturbation_mask (row : tensor R) (indices : gset nat)
    (feature_mask : list (tensor Z)) : result (list (option (tensor R))) :=
  mapM (λ '(i, mask_elem),
          if bool_decide (i ∈ indices) then Some <$> index row mask_elem
          else Ok None)
       (zip (seq 0 (length feature_mask)) feature_mask).

(** [t[i]] on a tuple *)
Definition tuple_get {A} (t : list A) (i : nat) : result A :=
  match t !! i with Some a => Ok a | None => Err IndexError end.

(** Line 154: [inp * pert_mask + baseline * (1 - pert_mask)] *)
Definition perturb (inp pert_mask : tensor R) (b : baseline) : result (tensor R) :=
  kept ← binop smul inp pert_mask;
  let dropped := pointwise (ssub sone) pert_mask in
  filled ← match b with
           | BScalar r => Ok (pointwise (smul r) dropped)
           | BTensor t => binop smul t dropped
           end;
  binop sadd kept filled.

(** Lines 138-159: the inner loop over [zip(inputs, input_roles)]. *)
Fixpoint perturb_inputs (pert_masks : list (option (tensor R)))
    (baselines : list baseline) (attr_inp_count : nat)
    (pairs : list (tensor R * Z)) : result (list (tensor R)) :=
  match pairs with
  | [] => Ok []
  | (inp, role) :: rest =>
      if bool_decide (role ≠ InputRole.need_attr) then
        (inp ::.) <$> perturb_inputs pert_masks baselines attr_inp_count rest
      else
        pert_mask ← tuple_get pert_masks attr_inp_count;
        cur ← match pert_mask with
              | None => Ok inp
              | Some pm =>
                  b ← tuple_get baselines attr_inp_count;
                  perturb inp pm b
              end;
        (cur ::.) <$> perturb_inputs pert_masks baselines (S attr_inp_count) rest
  end.

(** Lines 164-168: the inputs of the forward function. *)
Definition forward_inputs (perturbed_inputs : list (tensor R))
    (input_roles : list Z) : list (tensor R) :=
  fst <$> filter (λ p, p.2 ≠ InputRole.no_forward) (zip perturbed_inputs input_roles).

(** Modelled from the spec: [_run_forward] of [captum._utils.common] is not
    part of the sources at hand; it invokes the forward function on the
    given inputs, in their order. *)
Definition _run_forward (forward_func : forward_fn) (inputs : list (tensor R))
    : traced forward_call (tensor R) :=
  call (CallForward inputs) (forward_func inputs).

(** Lines 137-175: one iteration of the loop over the dataloader. *)
Definition forward_batch (forward_func : forward_fn) (input_roles : list Z)
    (baselines : list baseline) (reduce : reduce_fn)
    (pert_masks : list (option (tensor R)))
    (accum : pyobj) (inputs : batch) : traced forward_call pyobj :=
  items ← lift (batch_items inputs);
  perturbed_inputs ← lift (perturb_inputs pert_masks baselines 0 (zip items input_roles));
  output ← _run_forward forward_func (forward_inputs perturbed_inputs input_roles);
  call (CallReduce accum output perturbed_inputs) (reduce accum output perturbed_inputs).

Fixpoint forward_loop (forward_func : forward_fn) (input_roles : list Z)
    (baselines : list baseline) (reduce : reduce_fn)
    (pert_masks : list (option (tensor R)))
    (accum : pyobj) (dataloader : list batch) : traced forward_call pyobj :=
  match dataloader with
  | [] => mret accum
  | inputs :: rest =>
      accum' ← forward_batch forward_func input_roles baselines reduce pert_masks accum inputs;
      forward_loop forward_func input_roles baselines reduce pert_masks accum' rest
  end.

(** [DataloaderAttribution._forward_with_dataloader] *)
Definition _forward_with_dataloader (forward_func : forward_fn)
    (perturbed_feature_indices : tensor R) (args : forward_args)
    : traced forward_call pyobj :=
  row ← lift (select0 perturbed_feature_indices);
  flags ← lift (falsy_entries row);
  let indices := perturbation_mask_indices flags (fa_feature_idx_to_mask_idx args) in
  pert_masks ← lift (perturbation_mask row indices (fa_feature_mask args));
  accum ← forward_loop forward_func (fa_input_roles args) (fa_baselines args)
            (fa_reduce args) pert_masks PyNone (fa_dataloader args);
  match fa_to_metric args with
  | Some to_metric => call (CallToMetric accum) (to_metric accum)
  | None => mret accum
  end.

(** [_convert_output_shape]: the loop body, for one input and its mask. *)
Definition convert_one (unique_attr : tensor R) (output_dims : list nat)
    (n_features : nat) (inp : tensor R) (mask : tensor Z) : result (tensor R) :=
  let attr_shape := output_dims ++ tail (shape inp) in
  expanded_feature_indices ← expand mask attr_shape;
  expanded_unqiue_attr ←
    (if bool_decide (2 < length (shape inp)) then
       let extra_inp_dims := removelast (tail (shape inp)) in
       let n_extra_dims := length extra_inp_dims in
       let unsqueezed_shape := output_dims ++ replicate n_extra_dims 1 ++ [n_features] in
       let expanded_shape := output_dims ++ extra_inp_dims ++ [n_features] in
       unsqueezed ← reshape unique_attr unsqueezed_shape;
       expand unsqueezed expanded_shape
     else Ok unique_attr);
  gather expanded_unqiue_attr expanded_feature_indices.

Definition _convert_output_shape (unique_attr : tensor R)
    (attr_inputs : list (tensor R)) (feature_mask : list (tensor Z))
    : result (list (tensor R)) :=
  let output_dims := removelast (shape unique_attr) in
  n_features ← match last (shape unique_attr) with
               | Some n => Ok n
               | None => Err IndexError
               end;
  mapM (λ '(inp, mask), convert_one unique_attr output_dims n_features inp mask)
       (zip attr_inputs feature_mask).

(** An attribution algorithm as the wrapper sees it: its class, the forward
    function it was built with, and its [attribute], which runs with the
    forward function the instance holds at the time of the call. *)
Record attribution_method := AttributionMethod {
  am_class : method_class;
  am_forward_func : forward_fn;
  am_attribute : (tensor R → forward_args → result pyobj) →
                 tensor R → forward_args → result (tensor R)
}.

(** [class DataloaderAttribution] *)
Record DataloaderAttribution := {
  forward_func : forward_fn;
  attr_method : attribution_method
}.

(** [DataloaderAttribution.__init__] *)
Definition __init__ (method : attribution_method) : result DataloaderAttribution :=
  _ ← assert (bool_decide (am_class method ∈ SUPPORTED_METHODS)) UnsupportedMethod;
  Ok {| forward_func := am_forward_func method; attr_method := method |}.

(** An argument that is one value or a tuple of them. *)
Inductive one_or_tuple (A : Type) :=
  | One (a : A)
  | Tuple (l : list A).
Arguments One {A} a.
Arguments Tuple {A} l.

(** Modelled from the spec: [_format_tensor_into_tuples] of
    [captum._utils.common] is not part of the sources at hand; it wraps a
    single tensor into a one-element tuple. *)
Definition _format_tensor_into_tuples {A} (x : one_or_tuple A) : list A :=
  match x with One a => [a] | Tuple l => l end.

(** Modelled from the spec: [_format_baseline] of [captum._utils.common] is
    not part of the sources at hand; omitted baselines default to zero for
    every attributable input, and a single baseline becomes a tuple. *)
Definition _format_baseline (baselines : option (one_or_tuple baseline))
    (inputs : list (tensor R)) : list baseline :=
  match baselines with
  | None => (λ _, BScalar szero) <$> inputs
  | Some bs => _format_tensor_into_tuples bs
  end.

(** The default mask of one input: each element of a sample is its own
    feature, numbered from [current] on. *)
Fixpoint default_masks (current : Z) (inputs : list (tensor R))
    : result (list (tensor Z)) :=
  match inputs with
  | [] => Ok []
  | inp :: rest =>
      match shape inp with
      | [] => Err IndexError
      | n :: s =>
          let mask_shape := n `min` 1 :: s in
          let num_features := numel mask_shape in
          (Tensor mask_shape ((λ j, current + Z.of_nat j)%Z <$> seq 0 num_features) ::.)
            <$> default_masks (current + Z.of_nat num_features)%Z rest
      end
  end.

(** Modelled from the spec: [_format_feature_mask] of [captum._utils.common]
    is not part of the sources at hand; omitted masks default to "each
    element is its own feature, indices assigned in input order", and a
    single mask becomes a tuple. *)
Definition _format_feature_mask (feature_mask : option (one_or_tuple (tensor Z)))
    (inputs : list (tensor R)) : result (list (tensor Z)) :=
  match feature_mask with
  | None => default_masks 0 inputs
  | Some ms => Ok (_format_tensor_into_tuples ms)
  end.

(** Modelled from the spec: [_get_max_feature_index] of
    [captum._utils.common] is not part of the sources at hand; it is the
    maximum value seen across all masks. *)
Definition _get_max_feature_index (feature_mask : list (tensor Z)) : result Z :=
  match concat (data <$> feature_mask) with
  | [] => Err ValueError
  | z :: zs => Ok (foldr Z.max z zs)
  end.

(** What [attribute] returns: one tensor or a tuple of tensors. *)
Inductive attribution :=
  | AttrTensor (t : tensor R)
  | AttrTuple (ts : list (tensor R)).

(** Modelled from the spec: [_format_output] of [captum._utils.common] is
    not part of the sources at hand; a tuple is returned as it is when the
    inputs were a tuple, and its only element otherwise. *)
Definition _format_output (is_inputs_tuple : bool) (output : list (tensor R))
    : result attribution :=
  if is_inputs_tuple then Ok (AttrTuple output)
  else match output with
       | [t] => Ok (AttrTensor t)
       | _ => Err (AssertionError OutputNotSingle)
       end.

(** Lines 311-318 and 329-334: the batch dimension of baselines and masks. *)
Definition check_baseline (ib : nat * baseline) : result unit :=
  match ib.2 with
  | BScalar _ => Ok ()
  | BTensor t => n ← size0 t; assert (bool_decide (n = 1)) (BaselineBatchDim ib.1)
  end.

Definition check_mask (im : nat * tensor Z) : result unit :=
  n ← size0 im.2; assert (bool_decide (n = 1)) (MaskBatchDim im.1).

Definition enumerate {A} (l : list A) : list (nat * A) := zip (seq 0 (length l)) l.

(** Lines 337-341: the map from a feature index to the masks containing it. *)
Definition add_mask (d : gmap Z (list nat)) (im : nat * tensor Z) : gmap Z (list nat) :=
  foldl (λ d feature_idx, <[feature_idx := lookup_default d feature_idx ++ [im.1]]> d)
        d (unique im.2).

Definition build_feature_idx_to_mask_idx (feature_mask : list (tensor Z))
    : gmap Z (list nat) :=
  foldl add_mask ∅ (enumerate feature_mask).

(** The one collaborator [attribute] calls: the wrapped algorithm. *)
Inductive attribute_call :=
  | CallAttribute (feature_indices : tensor R) (additional_forward_args : forward_args).

(** [if input_roles:] holds for a tuple that is given and not empty. *)
Definition truthy {A} (t : option (list A)) : bool :=
  match t with Some (_ :: _) => true | _ => false end.

(** Lines 283-296 *)
Definition resolve_input_roles (input_roles : option (list Z))
    (inputs : list (tensor R)) : result (list Z) :=
  if truthy input_roles then
    let roles := default [] input_roles in
    _ ← assert (bool_decide (length roles = length inputs)) RolesLengthMismatch;
    _ ← assert (bool_decide (Exists (λ role, role = InputRole.need_attr) roles))
          RolesWithoutNeedAttr;
    Ok roles
  else Ok ((λ _, InputRole.need_attr) <$> inputs).

(** [next(iter(dataloader))] *)
Definition next_iter (dataloader : list batch) : result batch :=
  match dataloader with
  | [] => Err StopIteration
  | first :: _ => Ok first
  end.

(** Lines 274-281: the first batch as a tuple, and whether it was one. *)
Definition format_inputs (first : batch) : list (tensor R) * bool :=
  match first with
  | BatchList items | BatchTuple items => (items, true)
  | BatchTensor t => (_format_tensor_into_tuples (One t), false)
  end.

(** What [attribute] has set up when it reaches the wrapped algorithm. *)
Record setup := Setup {
  su_is_inputs_tuple : bool;
  su_attr_inputs : list (tensor R);
  su_feature_indices : tensor R;
  su_args : forward_args
}.

(** [DataloaderAttribution.attribute], lines 273-350: the first batch is
    fetched, the configuration is checked and the arguments of the wrapped
    algorithm are built. No collaborator is called. *)
Definition attribute_setup (dataloader : list batch)
    (input_roles : option (list Z))
    (baselines : option (one_or_tuple baseline))
    (feature_mask : option (one_or_tuple (tensor Z)))
    (reduce : option reduce_fn) (to_metric : option to_metric_fn)
    (perturbation_per_pass : Z) (show_progress : bool) : result setup :=
  first ← next_iter dataloader;
  let '(inputs, is_inputs_tuple) := format_inputs first in
  input_roles ← resolve_input_roles input_roles inputs;
  let attr_inputs :=
    snd <$> filter (λ p, p.1 = InputRole.need_attr) (zip input_roles inputs) in
  let baselines := _format_baseline baselines attr_inputs in
  _ ← assert (bool_decide (length attr_inputs = length baselines))
        BaselinesLengthMismatch;
  _ ← mapM check_baseline (enumerate baselines);
  feature_mask ← _format_feature_mask feature_mask attr_inputs;
  _ ← assert (bool_decide (length attr_inputs = length feature_mask))
        MasksLengthMismatch;
  _ ← mapM check_mask (enumerate feature_mask);
  let feature_idx_to_mask_idx := build_feature_idx_to_mask_idx feature_mask in
  max_feature_idx ← _get_max_feature_index feature_mask;
  let n_features := (max_feature_idx + 1)%Z in
  let reduce := default _concat_tensors reduce in
  feature_indices ← match attr_inputs with
                    | [] => Err IndexError
                    | _ :: _ => ones sone n_features
                    end;
  Ok (Setup is_inputs_tuple attr_inputs feature_indices
        (ForwardArgs dataloader input_roles baselines feature_mask reduce to_metric
           perturbation_per_pass show_progress feature_idx_to_mask_idx)).

(** [DataloaderAttribution.attribute] *)
Definition attribute (self : DataloaderAttribution) (dataloader : list batch)
    (input_roles : option (list Z))
    (baselines : option (one_or_tuple baseline))
    (feature_mask : option (one_or_tuple (tensor Z)))
    (reduce : option reduce_fn) (to_metric : option to_metric_fn)
    (perturbation_per_pass : Z) (show_progress : bool)
    (return_input_shape : bool) : traced attribute_call attribution :=
  su ← lift (attribute_setup dataloader input_roles baselines feature_mask
               reduce to_metric perturbation_per_pass show_progress);
  unique_attr ← call (CallAttribute (su_feature_indices su) (su_args su))
    (am_attribute (attr_method self)
       (λ pattern args, outcome (_forward_with_dataloader (forward_func self) pattern args))
       (su_feature_indices su) (su_args su));
  if negb return_input_shape then mret (AttrTensor unique_attr)
  else
    attr ← lift (_convert_output_shape unique_attr (su_attr_inputs su)
                   (fa_feature_mask (su_args su)));
    lift (_format_output (su_is_inputs_tuple su) attr).

End DataloaderAttr.

Arguments One {A} a.
Arguments Tuple {A} l.

(** * The vocabulary of the properties *)

(** The positions, counted from [start], of the masks that contain [f]. *)
Fixpoint positions_of (f : Z) (start : nat) (masks : list (tensor Z)) : list nat :=
  match masks with
  | [] => []
  | mask :: rest =>
      (if decide (f ∈ data mask) then [start] else []) ++ positions_of f (S start) rest
  end.


Definition in_range (n : nat) (z : Z) : Prop := (0 ≤ z < Z.of_nat n)%Z.

Section Vocabulary.
Context {R : Type} `{!Scalar R} {Acc : Type}.
Implicit Types (inp keep row out unique_attr : tensor R) (mask : tensor Z).
Implicit Types (roles : list Z) (accum : @pyobj R Acc) (b first : @batch R).
Implicit Types (args : @forward_args R Acc) (self : @DataloaderAttribution R Acc).
Implicit Types (input_roles : option (list Z)).
Implicit Types (baselines : option (one_or_tuple (@baseline R))).
Implicit Types (feature_mask : option (one_or_tuple (tensor Z))).

(** The number of attributable positions before position [p]: the value of
    [attr_inp_count] when the loop reaches [p]. *)
Definition attr_index (roles : list Z) (p : nat) : nat :=
  length (filter (λ role, role = InputRole.need_attr) (take p roles)).

(** The positions, counted from [start], whose role is not [no_forward]. *)
Fixpoint forwarded_positions (start : nat) roles : list nat :=
  match roles with
  | [] => []
  | role :: rest =>
      (if decide (role ≠ InputRole.no_forward) then [start] else [])
        ++ forwarded_positions (S start) rest
  end.

Definition forward_calls (tr : list (@forward_call R Acc)) : list (list (tensor R)) :=
  omap (λ c, match c with CallForward args => Some args | _ => None end) tr.

Definition reduce_calls (tr : list (@forward_call R Acc))
    : list (pyobj * tensor R * list (tensor R)) :=
  omap (λ c, match c with
             | CallReduce accum output inputs => Some (accum, output, inputs)
             | _ => None
             end) tr.

Definition to_metric_calls (tr : list (@forward_call R Acc)) : list pyobj :=
  omap (λ c, match c with CallToMetric accum => Some accum | _ => None end) tr.

(** What happens for one batch: the accumulator before, the perturbed tuple,
    the output of the forward function and the accumulator after. *)
Record step := Step {
  s_accum : @pyobj R Acc;
  s_perturbed : list (tensor R);
  s_output : tensor R;
  s_reduced : @pyobj R Acc
}.

Definition step_calls roles (s : step) : list forward_call :=
  [CallForward (forward_inputs (s_perturbed s) roles);
   CallReduce (s_accum s) (s_output s) (s_perturbed s)].

Definition step_of (forward_func : forward_fn) roles
    (baselines : list (@baseline R)) (reduce : reduce_fn)
    (pert_masks : list (option (tensor R))) b (s : step) : Prop :=
  ∃ items, batch_items b = Ok items
    ∧ perturb_inputs pert_masks baselines 0 (zip items roles) = Ok (s_perturbed s)
    ∧ forward_func (forward_inputs (s_perturbed s) roles) = Ok (s_output s)
    ∧ reduce (s_accum s) (s_output s) (s_perturbed s) = Ok (s_reduced s).

(** Each step starts from the accumulator the previous one returned. *)
Fixpoint chained accum (steps : list step) : Prop :=
  match steps with
  | [] => True
  | s :: rest => s_accum s = accum ∧ chained (s_reduced s) rest
  end.

Definition final_accum accum (steps : list step) : pyobj :=
  foldl (λ _ s, s_reduced s) accum steps.

(** The inputs of the first batch that need attribution. *)
Definition attr_inputs_of (roles : list Z) (inputs : list (tensor R)) : list (tensor R) :=
  snd <$> filter (λ p, p.1 = InputRole.need_attr) (zip roles inputs).





(** The forward function the wrapper installs in the wrapped algorithm. *)
Definition installed_forward self : tensor R → forward_args → result (@pyobj R Acc) :=
  λ pattern args, outcome (_forward_with_dataloader (forward_func self) pattern args).

(** The number of inputs that need attribution, as the roles given by the
    caller (or, without roles, the arity of the first batch) fix it. *)
Definition n_attr_inputs first input_roles : nat :=
  if truthy input_roles
  then length (filter (λ role, role = InputRole.need_attr) (default [] input_roles))
  else length (format_inputs first).1.

(** The configurations that [attribute] rejects. *)
Inductive config_error first input_roles baselines feature_mask : Prop :=
  | roles_length_mismatch roles :
      input_roles = Some roles → roles ≠ [] →
      length roles ≠ length (format_inputs first).1 →
      config_error first input_roles baselines feature_mask
  | roles_without_need_attr roles :
      input_roles = Some roles → roles ≠ [] →
      InputRole.need_attr ∉ roles →
      config_error first input_roles baselines feature_mask
  | baselines_count_mismatch bs :
      baselines = Some bs →
      length (_format_tensor_into_tuples bs) ≠ n_attr_inputs first input_roles →
      config_error first input_roles baselines feature_mask
  | masks_count_mismatch ms :
      feature_mask = Some ms →
      length (_format_tensor_into_tuples ms) ≠ n_attr_inputs first input_roles →
      config_error first input_roles baselines feature_mask
  | baseline_batch_dim bs t :
      baselines = Some bs → BTensor t ∈ _format_tensor_into_tuples bs →
      size0 t ≠ Ok 1 →
      config_error first input_roles baselines feature_mask
  | mask_batch_dim ms t :
      feature_mask = Some ms → t ∈ _format_tensor_into_tuples ms →
      size0 t ≠ Ok 1 →
      config_error first input_roles baselines feature_mask.

(** The value a baseline has for the feature at offset [j] of a sample. *)
Definition baseline_value (bl : @baseline R) (j : nat) : option R :=
  match bl with
  | BScalar r => Some r
  | BTensor t => data t !! j
  end.

Definition baseline_fits (bl : @baseline R) (dims : list nat) : Prop :=
  match bl with
  | BScalar _ => True
  | BTensor t => shape t = 1 :: dims ∧ wf t
  end.

(** A batch of the arity of the roles whose attributable inputs have the
    shapes of their masks and baselines, up to the batch dimension. *)
Definition well_shaped_batch args b : Prop :=
  ∃ items, batch_items b = Ok items
    ∧ length items = length (fa_input_roles args)
    ∧ ∀ pos inp,
        items !! pos = Some inp →
        fa_input_roles args !! pos = Some InputRole.need_attr →
        ∃ mask bl (batch_size : nat) (dims : list nat),
          fa_feature_mask args !! attr_index (fa_input_roles args) pos = Some mask
          ∧ fa_baselines args !! attr_index (fa_input_roles args) pos = Some bl
          ∧ shape inp = batch_size :: dims ∧ wf inp
          ∧ shape mask = 1 :: dims ∧ wf mask
          ∧ baseline_fits bl dims.

End Vocabulary.

(** * The vocabulary of further properties *)

Section PassVocabulary.
Context {R : Type} `{!Scalar R} {Acc : Type}.
Implicit Types (args : @forward_args R Acc).

(** The call made last is a call to a collaborator, which raised [e]. *)
Definition raised_by_last_call (forward_func : @forward_fn R) args
    (tr : list (@forward_call R Acc)) (e : error) : Prop :=
  match last tr with
  | Some (CallForward inputs) => forward_func inputs = Err e
  | Some (CallReduce accum output inputs) =>
      fa_reduce args accum output inputs = Err e
  | Some (CallToMetric accum) =>
      ∃ to_metric, fa_to_metric args = Some to_metric ∧ to_metric accum = Err e
  | None => False
  end.

(** The setup of a call with another dataloader in the arguments of the
    wrapped algorithm. *)
Definition with_dataloader (dataloader : list (@batch R)) (su : @setup R Acc)
    : @setup R Acc :=
  let args := su_args su in
  Setup (su_is_inputs_tuple su) (su_attr_inputs su) (su_feature_indices su)
    (ForwardArgs dataloader (fa_input_roles args) (fa_baselines args)
       (fa_feature_mask args) (fa_reduce args) (fa_to_metric args)
       (fa_perturbation_per_pass args) (fa_show_progress args)
       (fa_feature_idx_to_mask_idx args)).

(** The arguments of a pass with other roles. *)
Definition with_input_roles (input_roles : list Z) (args : @forward_args R Acc)
    : @forward_args R Acc :=
  ForwardArgs (fa_dataloader args) input_roles (fa_baselines args)
    (fa_feature_mask args) (fa_reduce args) (fa_to_metric args)
    (fa_perturbation_per_pass args) (fa_show_progress args)
    (fa_feature_idx_to_mask_idx args).

End PassVocabulary.

(** The role a pass takes an integer for: the two comparisons of the loop
    tell [need_attr] and [no_forward] from everything else. *)
Definition role_class (role : Z) : Z :=
  if bool_decide (role = InputRole.need_attr) then InputRole.need_attr
  else if bool_decide (role = InputRole.no_forward) then InputRole.no_forward
  else InputRole.need_forward.

(** The size of the first dimension, 0 for a tensor without dimensions. *)
Definition batch_dim {A} (t : tensor A) : nat := hd 0 (shape t).




(** * Example data

    A model that sums the features of every sample, a plain feature ablation
    as the wrapped algorithm, and a dataloader of two batches over three
    samples, with integer values. *)
Module Mock.
Local Open Scope Z_scope.

Definition as_tensor (o : @pyobj Z unit) : result (tensor Z) :=
  match o with
  | PyTensor t => Ok t
  | _ => Err TypeError
  end.

(** Feature ablation over a [(1, n)] indicator: for every feature, the
    output with all features kept minus the output with that feature set to
    0; the result has shape [(n_outputs, n)]. *)
Definition ablate (forward : tensor Z → @forward_args Z unit → result (@pyobj Z unit))
    (inputs : tensor Z) (args : @forward_args Z unit) : result (tensor Z) :=
  base ← forward inputs args ≫= as_tensor;
  let n := length (data inputs) in
  cols ← mapM (λ i,
                 out ← forward (Tensor (shape inputs) (<[i := 0]> (data inputs))) args
                       ≫= as_tensor;
                 Ok (zip_with Z.sub (data base) (data out)))
              (seq 0 n);
  Ok (Tensor [length (data base); n]
        (concat ((λ o, (λ col, default 0 (col !! o)) <$> cols)
                   <$> seq 0 (length (data base))))).

(** The sum of all the features of a sample, over all the inputs. *)
Definition sum_forward : @forward_fn Z := λ inps,
  match inps with
  | [] => Err TypeError
  | t :: _ =>
      match shape t with
      | [] => Err RuntimeError
      | n :: _ =>
          Ok (Tensor [n]
                ((λ b, foldr Z.add 0
                         (concat ((λ t, chunk (numel (tail (shape t))) b (data t))
                                    <$> inps)))
                   <$> seq 0 n))
      end
  end.

Definition x1 : tensor Z := Tensor [2; 2]%nat [1; 2; 3; 4].
Definition y1 : tensor Z := Tensor [2; 2; 2]%nat [1; 2; 3; 4; 5; 6; 7; 8].
Definition l1 : tensor Z := Tensor [2; 1]%nat [0; 1].
Definition x2 : tensor Z := Tensor [1; 2]%nat [5; 6].
Definition y2 : tensor Z := Tensor [1; 2; 2]%nat [9; 10; 11; 12].
Definition l2 : tensor Z := Tensor [1; 1]%nat [1].

Definition mock_dataloader : list (@batch Z) :=
  [BatchTuple [x1; y1; l1]; BatchTuple [x2; y2; l2]].

Definition mock_roles : list Z :=
  [InputRole.need_attr; InputRole.need_attr; InputRole.no_forward].

Definition mock_masks : list (tensor Z) :=
  [Tensor [1; 2]%nat [0; 0]; Tensor [1; 2; 2]%nat [1; 2; 3; 2]].

Definition feature_ablation : @attribution_method Z unit :=
  AttributionMethod FeatureAblation sum_forward ablate.

Definition dl_fa : @DataloaderAttribution Z unit :=
  {| forward_func := sum_forward; attr_method := feature_ablation |}.

(** A pass in which feature 1 is ablated, with baseline 100 for the second
    input. *)
Definition mock_args : @forward_args Z unit :=
  ForwardArgs mock_dataloader mock_roles [BScalar 0; BScalar 100] mock_masks
    _concat_tensors None (-1) false (build_feature_idx_to_mask_idx mock_masks).

Definition mock_pattern : tensor Z := Tensor [1; 4]%nat [1; 0; 1; 1].

Definition mock_metric : @pyobj Z unit := PyTensor (Tensor [3]%nat [112; 128; 144]).

(** Unique attributions of two outputs over three features. *)
Definition mock_unique_attr : tensor Z := Tensor [2; 3]%nat [10; 20; 30; 40; 50; 60].

Definition mock_gather_masks : list (tensor Z) :=
  [Tensor [1; 2]%nat [0; 2]; Tensor [1; 2; 2]%nat [0; 1; 2; 1]].

(** What [attribute] sets up for the mock dataloader with roles and masks. *)
Definition mock_setup : @setup Z unit :=
  Setup true [x1; y1] (Tensor [1; 4]%nat [1; 1; 1; 1])
    (ForwardArgs mock_dataloader mock_roles [BScalar 0; BScalar 0] mock_masks
       _concat_tensors None (-1) false (build_feature_idx_to_mask_idx mock_masks)).

Definition mock_attribution : @attribution Z :=
  AttrTuple [Tensor [3; 2]%nat [3; 3; 7; 7; 11; 11];
             Tensor [3; 2; 2]%nat [1; 6; 3; 6; 5; 14; 7; 14; 9; 22; 11; 22]].

(** A dataloader of one input whose mask uses the feature indices 0 and 2. *)
Definition gap_dataloader : list (@batch Z) := [BatchTuple [x1]; BatchTuple [x2]].
Definition gap_mask : tensor Z := Tensor [1; 2]%nat [0; 2].

Definition gap_setup : @setup Z unit :=
  Setup true [x1] (Tensor [1; 3]%nat [1; 1; 1])
    (ForwardArgs gap_dataloader [InputRole.need_attr] [BScalar 0] [gap_mask]
       _concat_tensors None (-1) false (build_feature_idx_to_mask_idx [gap_mask])).

Definition saliency : @attribution_method Z unit :=
  AttributionMethod (OtherMethod "Saliency") sum_forward ablate.


(** Further example data. A forward function that raises, a pattern that
    zeroes no feature and a pattern of two rows. *)
Definition failing_forward : @forward_fn Z := λ _, Err RuntimeError.

Definition ones_pattern : tensor Z := Tensor [1; 4]%nat [1; 1; 1; 1].
Definition two_row_pattern : tensor Z :=
  Tensor [2; 4]%nat [1; 0; 1; 1; 0; 0; 0; 0].

(** A pass with roles for the first two entries of the batches only. *)
Definition short_roles_args : @forward_args Z unit :=
  ForwardArgs mock_dataloader [InputRole.need_attr; InputRole.need_attr]
    [BScalar 0; BScalar 100] mock_masks _concat_tensors None (-1) false
    (build_feature_idx_to_mask_idx mock_masks).

(** A loss: the sum of all the values of a batch, without dimensions. *)
Definition loss_forward : @forward_fn Z := λ inps,
  Ok (Tensor [] [foldr Z.add 0 (concat (data <$> inps))]).

Definition one_batch_args : @forward_args Z unit :=
  ForwardArgs [BatchTuple [x1; y1; l1]] mock_roles [BScalar 0; BScalar 100]
    mock_masks _concat_tensors None (-1) false
    (build_feature_idx_to_mask_idx mock_masks).

(** A pattern that zeroes the feature index 1, which [gap_mask] does not
    hold. *)
Definition gap_pattern : tensor Z := Tensor [1; 3]%nat [1; 0; 1].

(** A dataloader that yields bare tensors, and what [attribute] sets up for
    it with the mask [gap_mask]. *)
Definition tensor_dataloader : list (@batch Z) := [BatchTensor x1; BatchTensor x2].

Definition tensor_setup : @setup Z unit :=
  Setup false [x1] (Tensor [1; 3]%nat [1; 1; 1])
    (ForwardArgs tensor_dataloader [InputRole.need_attr] [BScalar 0] [gap_mask]
       _concat_tensors None (-1) false (build_feature_idx_to_mask_idx [gap_mask])).



End Mock.

(** * The module utilities of [captum/optim/_utils/models.py] *)

Module Models.

(** A module as the two functions see it: its class and its [_modules], the
    ordered dictionary from the names of its children to the children, where
    a name can be registered without a module ([None]). *)
#[warnings="-register-all"]
Inductive nn_module :=
  | NNModule (cls : string) (_modules : list (string * option nn_module)).

Definition _modules (m : nn_module) : list (string * option nn_module) :=
  match m with NNModule _ children => children end.

(** [str(name).isdigit()], for a name of ASCII characters: the name is not
    empty and all its characters are decimal digits. *)
Definition is_digit_char (c : Ascii.ascii) : bool :=
  (48 <=? Ascii.nat_of_ascii c) && (Ascii.nat_of_ascii c <=? 57).

Definition isdigit (name : string) : bool :=
  match name with
  | EmptyString => false
  | _ => forallb is_digit_char (String.list_ascii_of_string name)
  end.

(** The loop body of [get_layers]: the separator and the name of a child. *)
Definition separator (name : string) : string :=
  if isdigit name then "" else ".".

Definition bracketed (name : string) : string :=
  if isdigit name then "[" +:+ name +:+ "]" else name.

(** [get_layers] of [get_model_layers]: the names appended to [layers], in
    the order of the appends. *)
Fixpoint get_layers (net : nn_module) (prefix : list string) : list string :=
  match net with
  | NNModule _ children =>
      (fix items (cs : list (string * option nn_module)) : list string :=
         match cs with
         | [] => []
         | (_, None) :: rest => items rest
         | (name, Some layer) :: rest =>
             String.concat (separator name) (prefix ++ [bracketed name])
               :: get_layers layer (prefix ++ [bracketed name]) ++ items rest
         end) children
  end.

Definition get_model_layers (model : nn_module) : list string :=
  get_layers model [].

Definition cls (m : nn_module) : string :=
  match m with NNModule c _ => c end.

(** [replace_layers]: the module tree after the call. [old_layer c] tells
    whether the class [c] is [old_layer] or one of its subclasses, so that
    [isinstance(child, old_layer)] is [old_layer (cls child)], and
    [new_layer] is the module that [new_layer()] constructs. *)
Fixpoint replace_layers (old_layer : string → bool) (new_layer : nn_module)
    (model : nn_module) : nn_module :=
  match model with
  | NNModule c children =>
      NNModule c
        ((fix items (cs : list (string * option nn_module))
            : list (string * option nn_module) :=
            match cs with
            | [] => []
            | (name, None) :: rest => (name, None) :: items rest
            | (name, Some child) :: rest =>
                (name,
                 if old_layer (cls child) then Some new_layer
                 else Some (replace_layers old_layer new_layer child))
                  :: items rest
            end) children)
  end.

(** [Conv2dSame.calc_same_pad]. The quotient [i / s] is a float and
    [math.ceil] takes its ceiling; for [|i| < 2^53], as the sizes of a
    tensor are, that is the ceiling of the exact quotient. A stride of 0
    raises [ZeroDivisionError]. *)
Definition calc_same_pad (i k s d : Z) : option Z :=
  if bool_decide (s = 0)%Z then None
  else Some (Z.max ((- ((- i) / s) - 1) * s + (k - 1) * d + 1 - i) 0)%Z.

(** [Conv2dSame.forward], up to the call of [F.conv2d]: the padding handed
    to [F.pad] (left, right, top, bottom), if any. *)
Definition same_padding (ih iw kh kw : Z) (stride dilation : Z * Z)
    : option (option (list Z)) :=
  pad_h ← calc_same_pad ih kh stride.1 dilation.1;
  pad_w ← calc_same_pad iw kw stride.2 dilation.2;
  if bool_decide (0 < pad_h ∨ 0 < pad_w)%Z then
    Some (Some [pad_w `div` 2; pad_w - pad_w `div` 2;
                pad_h `div` 2; pad_h - pad_h `div` 2]%Z)
  else Some None.

(** The proper descendants of a module, in the order [get_layers] visits
    them, each with the names of its ancestors below the module, outermost
    first, and its own name. *)
Fixpoint descendants (net : nn_module)
    : list (list string * string * nn_module) :=
  match net with
  | NNModule _ children =>
      (fix items (cs : list (string * option nn_module))
          : list (list string * string * nn_module) :=
         match cs with
         | [] => []
         | (_, None) :: rest => items rest
         | (name, Some layer) :: rest =>
             ([], name, layer)
               :: ((λ '(ancestors, own, m), (name :: ancestors, own, m))
                     <$> descendants layer)
               ++ items rest
         end) children
  end.

(** The name of the layer [own] below [ancestors]: the names in brackets
    where they are numbers, joined by the separator of [own]. *)
Definition layer_name (ancestors : list string) (own : string) : string :=
  String.concat (separator own) (bracketed <$> (ancestors ++ [own])).


End Models.

(** A small model: a sequence of a convolution and an activation, a name
    registered without a module, and a classifier. *)
Module ModelsMock.
Import Models.

Definition relu : nn_module := NNModule "ReluLayer" [].
Definition redirected_relu : nn_module := NNModule "RedirectedReluLayer" [].

(** [isinstance(child, ReluLayer)] *)
Definition is_relu (c : string) : bool := bool_decide (c = "ReluLayer").

Definition small_net : nn_module :=
  NNModule "Net"
    [("features",
      Some (NNModule "Sequential"
              [("0", Some (NNModule "Conv2d" [])); ("1", Some relu)]));
     ("aux", None);
     ("classifier", Some (NNModule "Linear" []))].

End ModelsMock.

(** * Properties *)

(** ** Fallible and traced computations *)

Lemma bind_Ok {A B} (m : result A) (f : A → result B) (b : B) :
  m ≫= f = Ok b ↔ ∃ a, m = Ok a ∧ f a = Ok b.
Proof.
  destruct m as [a|e]; simpl; split.
  - eauto.
  - by intros (? & [= <-] & ?).
  - done.
  - by intros (? & ? & ?).
Qed.

Lemma fmap_Ok {A B} (m : result A) (f : A → B) (b : B) :
  f <$> m = Ok b ↔ ∃ a, m = Ok a ∧ b = f a.
Proof.
  destruct m as [a|e]; simpl; split.
  - intros [= <-]; eauto.
  - by intros (? & [= <-] & ->).
  - done.
  - by intros (? & ? & ?).
Qed.

Lemma assert_Ok (c : bool) (a : assertion) (u : unit) : assert c a = Ok u ↔ c = true.
Proof. destruct c, u; simpl; split; done. Qed.

Lemma mapM_Ok {A B} (f : A → result B) (l : list A) (k : list B) :
  mapM f l = Ok k ↔ Forall2 (λ x y, f x = Ok y) l k.
Proof.
  revert k. induction l as [|x l IH]; intros k; simpl.
  - split; [intros [= <-]; constructor | by inversion 1].
  - split.
    + intros (y & Hy & (k' & Hk' & [= <-])%bind_Ok)%bind_Ok.
      constructor; [done|]. by apply IH.
    + inversion 1 as [|? y ? k' Hy Hk']; subst.
      apply bind_Ok. exists y. split; [done|].
      apply bind_Ok. exists k'. split; [by apply IH|done].
Qed.

Lemma mapM_Err {A B} (f : A → result B) (l : list A) (x : A) (e : error) :
  x ∈ l → f x = Err e → ∃ e', mapM f l = Err e'.
Proof.
  induction 1 as [x l|x y l _ IH]; intros Hx; simpl.
  - rewrite Hx. eauto.
  - destruct (f y); simpl; [|eauto].
    destruct (IH Hx) as [e' ->]. eauto.
Qed.

Lemma mapM_length {A B} (f : A → result B) (l : list A) (k : list B) :
  mapM f l = Ok k → length k = length l.
Proof. intros H%mapM_Ok. symmetry. by eapply Forall2_length. Qed.

Lemma traced_bind_Ok {E A B} (m : traced E A) (f : A → traced E B) (b : B) :
  outcome (m ≫= f) = Ok b ↔ ∃ a, outcome m = Ok a ∧ outcome (f a) = Ok b.
Proof.
  unfold mbind, traced_bind. destruct (outcome m) as [a|e]; simpl; split.
  - eauto.
  - by intros (? & [= <-] & ?).
  - done.
  - by intros (? & ? & ?).
Qed.

Lemma traced_bind_calls {E A B} (m : traced E A) (f : A → traced E B) (a : A) :
  outcome m = Ok a → calls (m ≫= f) = calls m ++ calls (f a).
Proof. unfold mbind, traced_bind. by intros ->. Qed.

Lemma traced_bind_Err {E A B} (m : traced E A) (f : A → traced E B) (e : error) :
  outcome m = Err e → m ≫= f = Traced (calls m) (Err e).
Proof. unfold mbind, traced_bind. by intros ->. Qed.

Lemma lift_bind_Ok {E A B} (m : result A) (f : A → traced E B) (a : A) :
  m = Ok a → lift m ≫= f = f a.
Proof. intros ->. unfold mbind, traced_bind. simpl. by destruct (f a). Qed.

Lemma lift_bind_Err {E A B} (m : result A) (f : A → traced E B) (e : error) :
  m = Err e → lift m ≫= f = Traced [] (Err e).
Proof. by intros ->. Qed.

Lemma lift_bind_inv {E A B} (m : result A) (f : A → traced E B) (b : B) :
  outcome (lift m ≫= f) = Ok b → ∃ a, m = Ok a ∧ lift m ≫= f = f a.
Proof.
  destruct m as [a|e]; [|done]. intros _. exists a. split; [done|].
  by apply lift_bind_Ok.
Qed.

(** ** Lists of blocks *)

Lemma elem_of_concat {A} (x : A) (ls : list (list A)) :
  x ∈ concat ls ↔ ∃ l, x ∈ l ∧ l ∈ ls.
Proof.
  induction ls as [|l ls IH]; simpl.
  - split; [by intros ?%elem_of_nil | by intros (? & _ & ?%elem_of_nil)].
  - rewrite elem_of_app, IH. split.
    + intros [?|(l' & ? & ?)]; [exists l | exists l']; split; try done;
        [left | by right].
    + intros (l' & ? & [->|?]%elem_of_cons); [by left | right; eauto].
Qed.

(** ** The feature-to-mask index *)

Lemma unique_elem_of (t : tensor Z) (z : Z) : z ∈ unique t ↔ z ∈ data t.
Proof.
  unfold unique. rewrite merge_sort_Permutation. apply elem_of_remove_dups.
Qed.

Lemma unique_NoDup (t : tensor Z) : NoDup (unique t).
Proof.
  unfold unique. rewrite merge_sort_Permutation. apply NoDup_remove_dups.
Qed.

Lemma lookup_default_insert (d : gmap Z (list nat)) (k k' : Z) (v : list nat) :
  lookup_default (<[k := v]> d) k' = if decide (k = k') then v else lookup_default d k'.
Proof.
  unfold lookup_default. rewrite lookup_insert. by case_decide.
Qed.

(** Adding the mask at position [i] appends [i] under each of its distinct
    values and leaves every other entry as it was. *)
Lemma add_mask_lookup (d : gmap Z (list nat)) (i : nat) (mask : tensor Z) (f : Z) :
  lookup_default (add_mask d (i, mask)) f =
  lookup_default d f ++ (if decide (f ∈ data mask) then [i] else []).
Proof.
  unfold add_mask. simpl.
  assert (∀ fs d, NoDup fs →
    lookup_default (foldl (λ d feature_idx,
        <[feature_idx := lookup_default d feature_idx ++ [i]]> d) d fs) f =
    lookup_default d f ++ (if decide (f ∈ fs) then [i] else [])) as Hgen.
  { clear d. induction fs as [|g fs IH]; intros d Hnd; simpl.
    - by rewrite app_nil_r.
    - apply NoDup_cons in Hnd as [Hg Hnd]. rewrite IH by done.
      rewrite lookup_default_insert.
      destruct (decide (g = f)) as [->|Hne].
      + rewrite decide_False by done. rewrite decide_True by left.
        by rewrite app_nil_r.
      + destruct (decide (f ∈ fs)) as [Hin|Hnin].
        * rewrite decide_True by (by right). done.
        * rewrite decide_False; [done|]. by intros [->|?]%elem_of_cons. }
  rewrite Hgen by apply unique_NoDup.
  destruct (decide (f ∈ unique mask)) as [Hin|Hnin];
    [rewrite decide_True | rewrite decide_False]; try done;
    by rewrite <- unique_elem_of.
Qed.

Lemma foldl_add_mask_lookup (d : gmap Z (list nat)) (start : nat)
    (masks : list (tensor Z)) (f : Z) :
  lookup_default (foldl add_mask d (zip (seq start (length masks)) masks)) f =
  lookup_default d f ++ positions_of f start masks.
Proof.
  revert d start. induction masks as [|mask rest IH]; intros d start; simpl.
  - by rewrite app_nil_r.
  - rewrite IH, add_mask_lookup. by rewrite <- app_assoc.
Qed.

Lemma positions_of_elem_of (f : Z) (start : nat) (masks : list (tensor Z)) (k : nat) :
  k ∈ positions_of f start masks ↔
  ∃ mask, start ≤ k ∧ masks !! (k - start) = Some mask ∧ f ∈ data mask.
Proof.
  revert start. induction masks as [|mask rest IH]; intros start; simpl.
  - split; [by intros ?%elem_of_nil | by intros (? & ? & ? & ?)].
  - rewrite elem_of_app, IH. split.
    + intros [Hk | (m & Hle & Hm & Hf)].
      * destruct (decide (f ∈ data mask)) as [Hf|]; [|by apply elem_of_nil in Hk].
        apply list_elem_of_singleton in Hk as ->. exists mask.
        by rewrite Nat.sub_diag.
      * exists m. split; [lia|]. split; [|done].
        replace (k - start) with (S (k - S start)) by lia. done.
    + intros (m & Hle & Hm & Hf).
      destruct (decide (k = start)) as [->|Hne].
      * rewrite Nat.sub_diag in Hm. injection Hm as ->.
        left. rewrite decide_True by done. by apply list_elem_of_singleton.
      * right. exists m. split; [lia|]. split; [|done].
        replace (k - start) with (S (k - S start)) in Hm by lia. done.
Qed.

Lemma positions_of_sorted (f : Z) (start : nat) (masks : list (tensor Z)) :
  StronglySorted lt (positions_of f start masks).
Proof.
  revert start. induction masks as [|mask rest IH]; intros start; simpl.
  - constructor.
  - destruct (decide (f ∈ data mask)); simpl; [|apply IH].
    constructor; [apply IH|].
    apply Forall_forall. intros k (m & Hle & _)%positions_of_elem_of. lia.
Qed.

Lemma build_lookup (masks : list (tensor Z)) (f : Z) :
  lookup_default (build_feature_idx_to_mask_idx masks) f = positions_of f 0 masks.
Proof.
  unfold build_feature_idx_to_mask_idx, enumerate.
  rewrite foldl_add_mask_lookup. unfold lookup_default. by rewrite lookup_empty.
Qed.

Lemma build_lookup_elem_of (masks : list (tensor Z)) (f : Z) (k : nat) :
  k ∈ lookup_default (build_feature_idx_to_mask_idx masks) f ↔
  ∃ mask, masks !! k = Some mask ∧ f ∈ data mask.
Proof.
  rewrite build_lookup, positions_of_elem_of. rewrite Nat.sub_0_r.
  split; [intros (m & _ & ? & ?) | intros (m & ? & ?)]; exists m; auto with lia.
Qed.

(** The largest mask value, as [_get_max_feature_index] finds it. *)
Lemma foldr_max_elem_of (z : Z) (zs : list Z) :
  foldr Z.max z zs ∈ z :: zs ∧ ∀ y, y ∈ z :: zs → (y ≤ foldr Z.max z zs)%Z.
Proof.
  induction zs as [|x zs [IHin IHle]]; simpl.
  - split; [left|]. intros y ->%list_elem_of_singleton. lia.
  - split.
    + destruct (Z.max_spec x (foldr Z.max z zs)) as [[_ ->]|[_ ->]].
      * apply elem_of_cons in IHin as [->|?]; [left | right; by right].
      * right; left.
    + intros y [->|[->|Hy]%elem_of_cons]%elem_of_cons.
      * specialize (IHle z (list_elem_of_here _ _)). lia.
      * lia.
      * specialize (IHle y (list_elem_of_further _ _ _ Hy)). lia.
Qed.

Lemma get_max_feature_index_spec (masks : list (tensor Z)) (mx : Z) :
  _get_max_feature_index masks = Ok mx →
  mx ∈ concat (data <$> masks) ∧ ∀ z, z ∈ concat (data <$> masks) → (z ≤ mx)%Z.
Proof.
  unfold _get_max_feature_index.
  destruct (concat (data <$> masks)) as [|z zs]; [done|].
  intros [= <-]. apply foldr_max_elem_of.
Qed.

Lemma elem_of_concat_data (masks : list (tensor Z)) (z : Z) :
  z ∈ concat (data <$> masks) ↔ ∃ k mask, masks !! k = Some mask ∧ z ∈ data mask.
Proof.
  rewrite elem_of_concat. split.
  - intros (d & Hz & (mask & -> & (k & Hk)%list_elem_of_lookup)%list_elem_of_fmap).
    eauto.
  - intros (k & mask & Hk & Hz). exists (data mask). split; [done|].
    apply list_elem_of_fmap. exists mask. split; [done|].
    apply list_elem_of_lookup. eauto.
Qed.

Lemma call_bind_Ok {E A B} (ev : E) (m : result A) (f : A → traced E B) (a : A) :
  m = Ok a → call ev m ≫= f = Traced (ev :: calls (f a)) (outcome (f a)).
Proof. by intros ->. Qed.

Lemma call_bind_inv {E A B} (ev : E) (m : result A) (f : A → traced E B) (b : B) :
  outcome (call ev m ≫= f) = Ok b →
  ∃ a, m = Ok a ∧ call ev m ≫= f = Traced (ev :: calls (f a)) (outcome (f a)).
Proof. destruct m as [a|e]; [|done]. intros _. by exists a. Qed.

Lemma lookup_enumerate {A} (start : nat) (l : list A) (k : nat) (x : A) :
  l !! k = Some x → zip (seq start (length l)) l !! k = Some (start + k, x).
Proof.
  intros Hk. unfold zip. apply lookup_zip_with_Some. exists (start + k), x.
  split; [done|]. split; [|done]. apply lookup_seq. split; [done|].
  by eapply lookup_lt_Some.
Qed.

Lemma length_enumerate {A} (start : nat) (l : list A) :
  length (zip (seq start (length l)) l) = length l.
Proof. rewrite length_zip, length_seq. lia. Qed.

(** ** One pass over the dataloader *)

Section ForwardPass.
Context {R : Type} `{!Scalar R} {Acc : Type}.
Implicit Types (inp keep : tensor R) (mask : tensor Z) (roles : list Z).
Implicit Types (accum : @pyobj R Acc) (b : @batch R).
Implicit Types (forward_func : @forward_fn R) (pattern : tensor R).
Implicit Types (args : @forward_args R Acc) (res : @pyobj R Acc).
Implicit Types (steps : list (@step R Acc)).

(** *** Which inputs are perturbed *)

Lemma perturbation_mask_indices_elem_of (flags : list bool)
    (d : gmap Z (list nat)) (k : nat) :
  k ∈ perturbation_mask_indices flags d ↔
  ∃ i, flags !! i = Some true ∧ k ∈ lookup_default d (Z.of_nat i).
Proof.
  unfold perturbation_mask_indices.
  assert (∀ start (acc : gset nat),
    k ∈ foldl (λ (acc : gset nat) '(i, v),
                 if (v : bool)
                 then acc ∪ list_to_set (lookup_default d (Z.of_nat i))
                 else acc) acc (zip (seq start (length flags)) flags) ↔
    k ∈ acc ∨ ∃ i, flags !! i = Some true
                   ∧ k ∈ lookup_default d (Z.of_nat (start + i))) as Hgen.
  { induction flags as [|v flags IH]; intros start acc; simpl.
    - split; [by left | intros [?|(i & ? & _)]; done].
    - rewrite IH. split.
      + intros [Hk|(i & Hi & Hk)].
        * destruct v; [|by left].
          apply elem_of_union in Hk as [?|Hk]; [by left|].
          right. exists 0. rewrite Nat.add_0_r. split; [done|].
          by apply elem_of_list_to_set in Hk.
        * right. exists (S i). split; [done|].
          by replace (start + S i) with (S start + i) by lia.
      + intros [Hk|([|i] & Hi & Hk)].
        * left. destruct v; [|done]. apply elem_of_union. by left.
        * simpl in Hi. injection Hi as ->. left.
          apply elem_of_union. right. apply elem_of_list_to_set.
          by rewrite Nat.add_0_r in Hk.
        * right. exists i. split; [done|].
          by replace (S start + i) with (start + S i) by lia. }
  rewrite Hgen. split; [intros [[]%not_elem_of_empty|?] | by right]; done.
Qed.

Lemma perturbation_mask_lookup (row : tensor R) (indices : gset nat)
    (feature_mask : list (tensor Z)) (pert_masks : list (option (tensor R))) :
  perturbation_mask row indices feature_mask = Ok pert_masks →
  length pert_masks = length feature_mask ∧
  ∀ k mask, feature_mask !! k = Some mask →
    (k ∈ indices → ∃ keep, index row mask = Ok keep
                            ∧ pert_masks !! k = Some (Some keep)) ∧
    (k ∉ indices → pert_masks !! k = Some None).
Proof.
  unfold perturbation_mask. intros Hm. split.
  { apply mapM_length in Hm. by rewrite Hm, length_enumerate. }
  apply mapM_Ok in Hm. intros k mask Hk.
  apply (lookup_enumerate 0) in Hk.
  destruct (Forall2_lookup_l _ _ _ _ _ Hm Hk) as (pm & Hpm & Hf).
  simpl in Hf. split; intros Hin.
  - rewrite bool_decide_eq_true_2 in Hf by done.
    apply fmap_Ok in Hf as (keep & ? & ->). eauto.
  - rewrite bool_decide_eq_false_2 in Hf by done. by injection Hf as <-.
Qed.

(** *** The perturbed tuple of a batch *)

Lemma perturb_inputs_lookup pert_masks (baselines : list (@baseline R))
    (count : nat) (pairs : list (tensor R * Z)) (out : list (tensor R)) :
  perturb_inputs pert_masks baselines count pairs = Ok out →
  length out = length pairs ∧
  ∀ p inp role, pairs !! p = Some (inp, role) →
    (role ≠ InputRole.need_attr → out !! p = Some inp) ∧
    (role = InputRole.need_attr →
       ∃ pm, pert_masks !! (count + attr_index pairs.*2 p) = Some pm ∧
         match pm with
         | None => out !! p = Some inp
         | Some keep =>
             ∃ bl o, baselines !! (count + attr_index pairs.*2 p) = Some bl
                     ∧ perturb inp keep bl = Ok o ∧ out !! p = Some o
         end).
Proof.
  revert count out. induction pairs as [|[inp0 role0] rest IH];
    intros count out; simpl.
  { intros [= <-]. split; [done|]. intros p ??. by rewrite lookup_nil. }
  case_bool_decide as Hrole.
  - intros (out' & Hout' & ->)%fmap_Ok. destruct (IH _ _ Hout') as [Hlen Hpos].
    split; [simpl; lia|]. intros [|p] inp role Hp; simpl in *.
    + injection Hp as <- <-. split; [done|]. by intros ->.
    + unfold attr_index in *. simpl. rewrite filter_cons_False by done.
      by apply Hpos.
  - subst role0.
    intros (pm & Hpm & (cur & Hcur & (out' & Hout' & ->)%fmap_Ok)%bind_Ok)%bind_Ok.
    destruct (IH _ _ Hout') as [Hlen Hpos].
    unfold tuple_get in Hpm. destruct (pert_masks !! count) as [pm'|] eqn:Hlk;
      [injection Hpm as ->|done].
    split; [simpl; lia|]. intros [|p] inp role Hp; simpl in *.
    + injection Hp as <- <-. split; [done|]. intros _.
      unfold attr_index. simpl. rewrite Nat.add_0_r. exists pm. split; [done|].
      destruct pm as [keep|]; [|by injection Hcur as ->].
      apply bind_Ok in Hcur as (bl & Hbl & Hcur).
      unfold tuple_get in Hbl. destruct (baselines !! count) as [bl'|] eqn:Hb;
        [injection Hbl as ->|done]. eauto.
    + unfold attr_index in *. simpl. rewrite !Nat.add_succ_r. by apply Hpos.
Qed.

(** *** The inputs of the forward function *)

Lemma forwarded_positions_elem_of (start : nat) roles (i : nat) :
  i ∈ forwarded_positions start roles ↔
  ∃ role, start ≤ i ∧ roles !! (i - start) = Some role
          ∧ role ≠ InputRole.no_forward.
Proof.
  revert start. induction roles as [|role0 rest IH]; intros start; simpl.
  - split; [by intros ?%elem_of_nil | by intros (? & ? & ? & ?)].
  - rewrite elem_of_app, IH. split.
    + intros [Hi | (role & Hle & Hr & Hne)].
      * destruct (decide (role0 ≠ InputRole.no_forward)); [|by apply elem_of_nil in Hi].
        apply list_elem_of_singleton in Hi as ->. exists role0.
        by rewrite Nat.sub_diag.
      * exists role. split; [lia|]. split; [|done].
        by replace (i - start) with (S (i - S start)) by lia.
    + intros (role & Hle & Hr & Hne).
      destruct (decide (i = start)) as [->|].
      * rewrite Nat.sub_diag in Hr. injection Hr as ->.
        left. rewrite decide_True by done. by apply list_elem_of_singleton.
      * right. exists role. split; [lia|]. split; [|done].
        by replace (i - start) with (S (i - S start)) in Hr by lia.
Qed.

Lemma forwarded_positions_sorted (start : nat) roles :
  StronglySorted lt (forwarded_positions start roles).
Proof.
  revert start. induction roles as [|role rest IH]; intros start; simpl.
  - constructor.
  - destruct (decide (role ≠ InputRole.no_forward)); simpl; [|apply IH].
    constructor; [apply IH|].
    apply Forall_forall. intros i (? & ? & _)%forwarded_positions_elem_of. lia.
Qed.



(** *** The calls of a traversal *)

Lemma forward_batch_spec forward_func roles baselines reduce pert_masks accum b accum' :
  outcome (forward_batch forward_func roles baselines reduce pert_masks accum b)
    = Ok accum' →
  ∃ s, step_of forward_func roles baselines reduce pert_masks b s
       ∧ s_accum s = accum ∧ s_reduced s = accum'
       ∧ calls (forward_batch forward_func roles baselines reduce pert_masks accum b)
         = step_calls roles s.
Proof.
  unfold forward_batch. intros Hok.
  apply lift_bind_inv in Hok as Hitems. destruct Hitems as (items & Hitems & Heq).
  rewrite Heq in Hok |- *. clear Heq.
  apply lift_bind_inv in Hok as Hpert. destruct Hpert as (pert & Hpert & Heq).
  rewrite Heq in Hok |- *. clear Heq.
  unfold _run_forward in *.
  apply call_bind_inv in Hok as Hout. destruct Hout as (output & Hout & Heq).
  rewrite Heq in Hok |- *. clear Heq. simpl in *.
  destruct (reduce accum output pert) as [acc|] eqn:Hred; [|done].
  injection Hok as <-.
  exists (Step accum pert output acc). unfold step_of, step_calls. simpl.
  split; [by exists items|]. done.
Qed.

Lemma forward_loop_spec forward_func roles baselines reduce pert_masks accum
    (dataloader : list batch) accum' :
  outcome (forward_loop forward_func roles baselines reduce pert_masks accum dataloader)
    = Ok accum' →
  ∃ steps,
    Forall2 (step_of forward_func roles baselines reduce pert_masks) dataloader steps
    ∧ chained accum steps
    ∧ accum' = final_accum accum steps
    ∧ calls (forward_loop forward_func roles baselines reduce pert_masks accum dataloader)
      = concat (step_calls roles <$> steps).
Proof.
  revert accum. induction dataloader as [|b rest IH]; intros accum; simpl.
  - intros [= <-]. exists []. by repeat split; try constructor.
  - intros (acc1 & Hb & Hrest)%traced_bind_Ok.
    rewrite (traced_bind_calls _ _ _ Hb).
    apply forward_batch_spec in Hb as (s & Hs & Hacc & Hred & ->).
    apply IH in Hrest as (steps & Hsteps & Hchain & -> & ->).
    exists (s :: steps). subst. split; [by constructor|].
    split; [done|]. split; [done|]. done.
Qed.

Lemma forward_calls_steps roles (steps : list (@step R Acc)) :
  forward_calls (concat (step_calls roles <$> steps))
  = (λ s, forward_inputs (s_perturbed s) roles) <$> steps.
Proof. induction steps as [|s steps IH]; simpl; [done|]. by f_equal. Qed.

Lemma reduce_calls_steps roles (steps : list (@step R Acc)) :
  reduce_calls (concat (step_calls roles <$> steps))
  = (λ s, (s_accum s, s_output s, s_perturbed s)) <$> steps.
Proof. induction steps as [|s steps IH]; simpl; [done|]. by f_equal. Qed.

Lemma to_metric_calls_steps roles (steps : list (@step R Acc)) :
  to_metric_calls (concat (step_calls roles <$> steps)) = [].
Proof. induction steps as [|s steps IH]; simpl; done. Qed.

(** The whole pass: the masks are prepared, the dataloader is traversed once
    and the metric is taken of what the traversal accumulated. *)
Lemma forward_with_dataloader_spec forward_func pattern args res :
  outcome (_forward_with_dataloader forward_func pattern args) = Ok res →
  ∃ row flags pert_masks steps,
    select0 pattern = Ok row
    ∧ falsy_entries row = Ok flags
    ∧ perturbation_mask row
        (perturbation_mask_indices flags (fa_feature_idx_to_mask_idx args))
        (fa_feature_mask args) = Ok pert_masks
    ∧ Forall2 (step_of forward_func (fa_input_roles args) (fa_baselines args)
                 (fa_reduce args) pert_masks) (fa_dataloader args) steps
    ∧ chained PyNone steps
    ∧ match fa_to_metric args with
      | Some to_metric =>
          to_metric (final_accum PyNone steps) = Ok res
          ∧ calls (_forward_with_dataloader forward_func pattern args)
            = concat (step_calls (fa_input_roles args) <$> steps)
                ++ [CallToMetric (final_accum PyNone steps)]
      | None =>
          res = final_accum PyNone steps
          ∧ calls (_forward_with_dataloader forward_func pattern args)
            = concat (step_calls (fa_input_roles args) <$> steps)
      end.
Proof.
  unfold _forward_with_dataloader. intros Hok.
  apply lift_bind_inv in Hok as Hrow. destruct Hrow as (row & Hrow & Heq).
  rewrite Heq in Hok |- *. clear Heq.
  apply lift_bind_inv in Hok as Hfl. destruct Hfl as (flags & Hfl & Heq).
  rewrite Heq in Hok |- *. clear Heq.
  apply lift_bind_inv in Hok as Hpm. destruct Hpm as (pms & Hpm & Heq).
  rewrite Heq in Hok |- *. clear Heq.
  apply traced_bind_Ok in Hok as (acc & Hloop & Hres).
  rewrite (traced_bind_calls _ _ _ Hloop).
  apply forward_loop_spec in Hloop as (steps & Hsteps & Hchain & -> & ->).
  exists row, flags, pms, steps. repeat (split; [done|]).
  destruct (fa_to_metric args) as [to_metric|]; simpl in *.
  - done.
  - injection Hres as <-. by rewrite app_nil_r.
Qed.

End ForwardPass.

(** ** Row-major blocks *)

Section Blocks.
Context {A : Type}.
Implicit Types (d l : list A) (ls : list (list A)).

Lemma lookup_chunk (k i : nat) d (j : nat) :
  j < k → chunk k i d !! j = d !! (i * k + j).
Proof. intros Hj. unfold chunk. by rewrite lookup_take_lt, lookup_drop. Qed.

Lemma length_chunk (k i : nat) d : i * k + k ≤ length d → length (chunk k i d) = k.
Proof. intros Hle. unfold chunk. rewrite length_take, length_drop. lia. Qed.

Lemma chunk_whole (k : nat) d : length d = k → chunk k 0 d = d.
Proof. intros <-. unfold chunk. simpl. by rewrite take_ge. Qed.


Lemma length_chunks (n k : nat) d : length (chunks n k d) = n.
Proof. unfold chunks. by rewrite length_fmap, length_seq. Qed.

Lemma lookup_chunks (n k : nat) d (i : nat) :
  i < n → chunks n k d !! i = Some (chunk k i d).
Proof.
  intros Hi. unfold chunks. rewrite list_lookup_fmap. rewrite lookup_seq_lt by done. done.
Qed.

Lemma chunks_S (n k : nat) d : chunks (S n) k d = take k d :: chunks n k (drop k d).
Proof.
  unfold chunks. simpl. f_equal. rewrite <- fmap_S_seq, <- list_fmap_compose.
  apply list_fmap_ext. intros _ i _. unfold chunk. simpl.
  by rewrite drop_drop.
Qed.



Lemma Forall_length_chunks (n k : nat) d :
  length d = n * k → Forall (λ c, length c = k) (chunks n k d).
Proof.
  intros Hlen. apply Forall_forall. intros c Hc.
  apply list_elem_of_lookup in Hc as [i Hi].
  assert (i < n) as Hlt.
  { apply lookup_lt_Some in Hi. by rewrite length_chunks in Hi. }
  rewrite lookup_chunks in Hi by done. injection Hi as <-.
  apply length_chunk. nia.
Qed.

Lemma concat_chunks (n k : nat) d : length d = n * k → concat (chunks n k d) = d.
Proof.
  revert d. induction n as [|n IH]; intros d Hlen.
  - by destruct d.
  - rewrite chunks_S. simpl. rewrite IH; [apply take_drop|].
    rewrite length_drop. simpl in Hlen. lia.
Qed.


Lemma length_concat_blocks (k : nat) ls :
  Forall (λ l, length l = k) ls → length (concat ls) = length ls * k.
Proof.
  induction 1 as [|l ls Hl _ IH]; simpl; [done|]. rewrite length_app. lia.
Qed.

Lemma lookup_concat_blocks (k : nat) ls (i j : nat) :
  Forall (λ l, length l = k) ls → j < k →
  concat ls !! (i * k + j) = ls !! i ≫= (.!! j).
Proof.
  intros Hls Hj. revert i. induction Hls as [|l ls Hl _ IH]; intros i; simpl.
  - by rewrite !lookup_nil.
  - destruct i as [|i]; simpl.
    + by rewrite lookup_app_l by lia.
    + rewrite lookup_app_r by lia. rewrite <- IH. f_equal. lia.
Qed.


Lemma concat_replicate_mul (n m : nat) d :
  concat (replicate n (concat (replicate m d))) = concat (replicate (n * m) d).
Proof.
  induction n as [|n IH]; simpl; [done|].
  by rewrite replicate_add, concat_app, IH.
Qed.


End Blocks.

(** ** Expanding a tensor *)

Lemma mapM_Ok_fmap {A B} (f : A → result B) (g : A → B) (l : list A) :
  (∀ x, x ∈ l → f x = Ok (g x)) → mapM f l = Ok (g <$> l).
Proof.
  intros Hf. apply mapM_Ok. apply Forall2_fmap_r, Forall_Forall2_diag.
  by apply Forall_forall.
Qed.

Lemma numel_app (s1 s2 : list nat) : numel (s1 ++ s2) = numel s1 * numel s2.
Proof. induction s1 as [|n s1 IH]; simpl; [lia|]. rewrite IH. lia. Qed.


Lemma numel_singleton (n : nat) : numel [n] = n.
Proof. simpl. lia. Qed.

Section Expand.
Context {A : Type}.
Implicit Types (d c : list A) (src dst s t : list nat).

Lemma expand_data_new_dim src (n : nat) dst d :
  length src ≤ length dst →
  expand_data src (n :: dst) d
  = expand_data src dst d ≫= λ r, Ok (concat (replicate n r)).
Proof. intros Hle. simpl. by rewrite bool_decide_eq_true_2 by lia. Qed.

Lemma expand_data_aligned (m n : nat) src dst d :
  length src = length dst →
  expand_data (m :: src) (n :: dst) d
  = if bool_decide (m = n) then
      mapM (expand_data src dst) (chunks m (numel src) d) ≫= λ rs, Ok (concat rs)
    else if bool_decide (m = 1) then
      expand_data src dst d ≫= λ r, Ok (concat (replicate n r))
    else Err RuntimeError.
Proof. intros Hlen. simpl. by rewrite bool_decide_eq_false_2 by lia. Qed.

Lemma expand_data_same_dim (m : nat) src dst d :
  length src = length dst →
  expand_data (m :: src) (m :: dst) d
  = mapM (expand_data src dst) (chunks m (numel src) d) ≫= λ rs, Ok (concat rs).
Proof.
  intros Hlen. rewrite expand_data_aligned by done.
  by rewrite bool_decide_eq_true_2.
Qed.

Lemma expand_data_one_dim (n : nat) src dst d :
  length src = length dst → length d = numel src →
  expand_data (1 :: src) (n :: dst) d
  = expand_data src dst d ≫= λ r, Ok (concat (replicate n r)).
Proof.
  intros Hlen Hd. destruct (decide (n = 1)) as [->|Hne].
  - rewrite expand_data_same_dim by done.
    rewrite chunks_S, take_ge by lia. simpl.
    destruct (expand_data src dst d); simpl; [|done].
    by rewrite !app_nil_r.
  - rewrite expand_data_aligned by done.
    rewrite bool_decide_eq_false_2 by done. by rewrite bool_decide_eq_true_2.
Qed.

Lemma expand_data_id s d : length d = numel s → expand_data s s d = Ok d.
Proof.
  revert d. induction s as [|n s IH]; intros d Hd; [done|].
  rewrite expand_data_same_dim by done.
  rewrite (mapM_Ok_fmap _ id).
  - simpl. by rewrite list_fmap_id, concat_chunks.
  - intros c Hc. apply IH.
    by eapply (proj1 (Forall_forall _ _) (Forall_length_chunks n (numel s) d Hd)).
Qed.

(** A tensor of shape [(1, *F)] expanded over leading dimensions [O], [o]:
    its elements, repeated. *)
Lemma expand_data_leading (O : list nat) (o : nat) (F : list nat) d :
  length d = numel F →
  expand_data (1 :: F) (O ++ o :: F) d = Ok (concat (replicate (numel O * o) d)).
Proof.
  intros Hd. induction O as [|n O IH]; simpl app.
  - rewrite expand_data_one_dim, expand_data_id by done. simpl.
    by rewrite Nat.add_0_r.
  - rewrite expand_data_new_dim by (rewrite length_app; simpl; lia).
    rewrite IH. simpl. rewrite concat_replicate_mul. do 3 f_equal. lia.
Qed.



End Expand.

(** ** Gathering along the last dimension *)



Section Gather.
Context {A : Type}.
Implicit Types (row inp : list A) (xs idx : list Z).






Lemma gather_data_last (a b : nat) inp idx :
  gather_data [a] [b] inp idx = mapM (gather_at (take a inp)) (take b idx).
Proof. done. Qed.

Lemma gather_data_cons (a b : nat) (s t : list nat) inp idx :
  s ≠ [] → t ≠ [] →
  gather_data (a :: s) (b :: t) inp idx
  = if bool_decide (b ≤ a) then
      mapM (λ i, gather_data s t (chunk (numel s) i inp) (chunk (numel t) i idx))
           (seq 0 b) ≫= λ rs, Ok (concat rs)
    else Err RuntimeError.
Proof. by destruct s, t. Qed.



End Gather.

(** ** Multi-indices *)


Lemma offset_length (s ix : list nat) (o : nat) :
  offset s ix = Some o → length ix = length s.
Proof.
  revert ix o. induction s as [|n s IH]; intros [|i ix] o; simpl; try done.
  case_bool_decide; [|done].
  destruct (offset s ix) as [o'|] eqn:Ho; [|done]. intros _.
  f_equal. by eapply IH.
Qed.


Lemma offset_app_inv (s1 s2 ix : list nat) (o : nat) :
  offset (s1 ++ s2) ix = Some o →
  ∃ ix1 ix2 o1 o2, ix = ix1 ++ ix2 ∧ offset s1 ix1 = Some o1
                   ∧ offset s2 ix2 = Some o2 ∧ o = o1 * numel s2 + o2.
Proof.
  revert ix o. induction s1 as [|n s1 IH]; intros ix o; simpl.
  - intros Ho. exists [], ix, 0, o. by repeat split.
  - destruct ix as [|i ix]; [done|]. case_bool_decide; [|done].
    destruct (offset (s1 ++ s2) ix) as [o'|] eqn:Ho; [|done]. intros [= <-].
    destruct (IH _ _ Ho) as (ix1 & ix2 & o1 & o2 & -> & H1 & H2 & ->).
    exists (i :: ix1), ix2, (i * numel s1 + o1), o2. simpl.
    rewrite bool_decide_eq_true_2 by done. rewrite H1. simpl.
    repeat split; [done|]. rewrite numel_app. lia.
Qed.


(** ** Reconstructing the attribution of one input *)



Section Convert.
Context {R : Type}.
Implicit Types (unique_attr inp out : tensor R) (mask : tensor Z).


End Convert.

(** ** Setting up the attribution *)

Section Attribute.
Context {R : Type} `{!Scalar R} {Acc : Type}.
Implicit Types (self : @DataloaderAttribution R Acc) (dataloader : list (@batch R)).
Implicit Types (input_roles : option (list Z)).
Implicit Types (baselines : option (one_or_tuple (@baseline R))).
Implicit Types (feature_mask : option (one_or_tuple (tensor Z))).
Implicit Types (reduce : option (@reduce_fn R Acc)).
Implicit Types (to_metric : option (@to_metric_fn R Acc)).

Lemma attribute_setup_Ok dataloader input_roles baselines feature_mask reduce
    to_metric (perturbation_per_pass : Z) (show_progress : bool) (su : setup) :
  attribute_setup dataloader input_roles baselines feature_mask reduce to_metric
    perturbation_per_pass show_progress = Ok su →
  ∃ first rest roles masks max_feature_idx,
    dataloader = first :: rest
    ∧ resolve_input_roles input_roles (format_inputs first).1 = Ok roles
    ∧ su_is_inputs_tuple su = (format_inputs first).2
    ∧ su_attr_inputs su = attr_inputs_of roles (format_inputs first).1
    ∧ length (su_attr_inputs su)
      = length (_format_baseline baselines (su_attr_inputs su))
    ∧ is_Ok (mapM check_baseline
               (enumerate (_format_baseline baselines (su_attr_inputs su))))
    ∧ _format_feature_mask feature_mask (su_attr_inputs su) = Ok masks
    ∧ length (su_attr_inputs su) = length masks
    ∧ is_Ok (mapM check_mask (enumerate masks))
    ∧ _get_max_feature_index masks = Ok max_feature_idx
    ∧ (0 ≤ max_feature_idx + 1)%Z
    ∧ su_attr_inputs su ≠ []
    ∧ su_feature_indices su
      = Tensor [1; Z.to_nat (max_feature_idx + 1)]
          (replicate (Z.to_nat (max_feature_idx + 1)) sone)
    ∧ su_args su
      = ForwardArgs dataloader roles
          (_format_baseline baselines (su_attr_inputs su)) masks
          (default _concat_tensors reduce) to_metric perturbation_per_pass
          show_progress (build_feature_idx_to_mask_idx masks).
Proof.
  unfold attribute_setup. intros (first & Hfirst & Hrest)%bind_Ok.
  destruct dataloader as [|b rest]; [done|]. injection Hfirst as ->.
  destruct (format_inputs first) as [inputs is_inputs_tuple] eqn:Hfmt.
  apply bind_Ok in Hrest as (roles & Hroles & Hrest).
  apply bind_Ok in Hrest as ([] & Hbl%assert_Ok%bool_decide_eq_true & Hrest).
  apply bind_Ok in Hrest as (? & Hcb & Hrest).
  apply bind_Ok in Hrest as (masks & Hmasks & Hrest).
  apply bind_Ok in Hrest as ([] & Hml%assert_Ok%bool_decide_eq_true & Hrest).
  apply bind_Ok in Hrest as (? & Hcm & Hrest).
  apply bind_Ok in Hrest as (mx & Hmx & Hrest).
  apply bind_Ok in Hrest as (fi & Hfi & [= <-]).
  simpl. fold (attr_inputs_of roles inputs) in *.
  destruct (attr_inputs_of roles inputs) as [|inp0 attr_rest] eqn:Hattr; [done|].
  unfold ones in Hfi. case_bool_decide as Hnn; [|done]. injection Hfi as <-.
  exists first, rest, roles, masks, mx. rewrite Hfmt. simpl. rewrite ?Hattr.
  split_and!; try done; by eexists.
Qed.

End Attribute.

(** ** What the forward function and the reduce function receive *)

Section PassClaims.
Context {R : Type} `{!Scalar R} {Acc : Type}.
Implicit Types (forward_func : @forward_fn R) (pattern : tensor R).
Implicit Types (args : @forward_args R Acc) (res : @pyobj R Acc).

Lemma lookup_zip_Some {A B} (l : list A) (k : list B) (i : nat) (x : A) (y : B) :
  zip l k !! i = Some (x, y) ↔ l !! i = Some x ∧ k !! i = Some y.
Proof.
  split.
  - by intros (? & ? & [= -> ->] & ? & ?)%lookup_zip_with_Some.
  - intros [? ?]. apply lookup_zip_with_Some. by exists x, y.
Qed.

Lemma take_snd_zip {A B} (l : list A) (k : list B) (p : nat) :
  p ≤ length l → take p (zip l k).*2 = take p k.
Proof.
  revert l k. induction p as [|p IH]; intros l k Hp; [done|].
  destruct l as [|x l]; [simpl in Hp; lia|]. destruct k as [|y k]; [done|].
  simpl in *. f_equal. apply IH. lia.
Qed.



Lemma steps_perturbed_length forward_func roles baselines reduce pert_masks
    (dataloader : list batch) (steps : list (@step R Acc)) :
  Forall2 (step_of forward_func roles baselines reduce pert_masks) dataloader steps →
  Forall2 (λ b s, ∃ items, batch_items b = Ok items
                  ∧ length (s_perturbed s) = length items `min` length roles)
          dataloader steps.
Proof.
  intros Hsteps. eapply Forall2_impl; [exact Hsteps|].
  intros b s (items & Hitems & Hpert & _). exists items. split; [done|].
  apply perturb_inputs_lookup in Hpert as [-> _]. apply length_zip.
Qed.


Lemma to_metric_calls_app (tr1 tr2 : list (@forward_call R Acc)) :
  to_metric_calls (tr1 ++ tr2) = to_metric_calls tr1 ++ to_metric_calls tr2.
Proof. apply omap_app. Qed.

(** Concatenation along the batch dimension. *)
Lemma cat_batches {A} (a b : tensor A) (n m : nat) (dims : list nat) :
  shape a = n :: dims → shape b = m :: dims → wf a → wf b →
  cat a b = Ok (Tensor (n + m :: dims) (data a ++ data b)).
Proof.
  destruct a as [sa da], b as [sb db]. unfold wf, cat. simpl.
  intros -> -> Ha Hb. simpl in *.
  case_bool_decide as Hea.
  { injection Hea as -> ->. simpl in *. by destruct da. }
  case_bool_decide as Heb.
  { injection Heb as -> ->. simpl in *. destruct db; [|done].
    by rewrite Nat.add_0_r, app_nil_r. }
  by rewrite bool_decide_eq_true_2.
Qed.

(** C3. In one pass the accumulator starts as [None]; reduce is applied
    once for every batch, in order, to the accumulator the previous batch
    left, the output of the forward function on the batch and the perturbed
    tuple of the batch; after the last batch [to_metric], when given, is
    applied once to the final accumulator and its result is returned, and
    otherwise the final accumulator is returned. The default reduce
    concatenates the outputs along the batch dimension. *)
Theorem reduce_per_batch_then_to_metric forward_func pattern args res :
  outcome (_forward_with_dataloader forward_func pattern args) = Ok res →
  ∃ steps : list (@step R Acc),
    reduce_calls (calls (_forward_with_dataloader forward_func pattern args))
      = (λ s, (s_accum s, s_output s, s_perturbed s)) <$> steps
    ∧ length (reduce_calls (calls (_forward_with_dataloader forward_func pattern args)))
      = length (fa_dataloader args)
    ∧ Forall2 (λ b s,
         forward_func (forward_inputs (s_perturbed s) (fa_input_roles args))
           = Ok (s_output s)
         ∧ fa_reduce args (s_accum s) (s_output s) (s_perturbed s)
           = Ok (s_reduced s))
        (fa_dataloader args) steps
    ∧ chained PyNone steps
    ∧ match fa_to_metric args with
      | Some to_metric =>
          to_metric_calls (calls (_forward_with_dataloader forward_func pattern args))
            = [final_accum PyNone steps]
          ∧ to_metric (final_accum PyNone steps) = Ok res
      | None =>
          to_metric_calls (calls (_forward_with_dataloader forward_func pattern args))
            = []
          ∧ res = final_accum PyNone steps
      end
    ∧ (∀ output inputs,
         @_concat_tensors R Acc PyNone output inputs = Ok (PyTensor output))
    ∧ (∀ accum output inputs n m dims,
         shape accum = n :: dims → shape output = m :: dims →
         wf accum → wf output →
         @_concat_tensors R Acc (PyTensor accum) output inputs
         = Ok (PyTensor (Tensor (n + m :: dims) (data accum ++ data output)))).
Proof.
  intros Hok.
  destruct (forward_with_dataloader_spec _ _ _ _ Hok)
    as (row & flags & pms & steps & _ & _ & _ & Hsteps & Hchain & Hcalls).
  assert (reduce_calls (calls (_forward_with_dataloader forward_func pattern args))
          = (λ s, (s_accum s, s_output s, s_perturbed s)) <$> steps) as Hreduce.
  { destruct (fa_to_metric args); destruct Hcalls as [_ ->];
      unfold reduce_calls; rewrite ?omap_app; simpl; rewrite ?app_nil_r;
      apply reduce_calls_steps. }
  exists steps. split_and!.
  - done.
  - rewrite Hreduce, length_fmap. symmetry. by eapply Forall2_length.
  - eapply Forall2_impl; [exact Hsteps|]. by intros b s (items & _ & _ & ? & ?).
  - done.
  - destruct (fa_to_metric args) as [to_metric|]; destruct Hcalls as [Hres ->];
      (split; [|done]); rewrite ?to_metric_calls_app;
      by rewrite to_metric_calls_steps.
  - done.
  - intros accum output inputs n m dims Ha Ho Hwa Hwo. simpl.
    by rewrite (cat_batches _ _ n m dims).
Qed.

End PassClaims.

(** ** Reconstructing the attributions in the shapes of the inputs *)

Section OutputClaims.
Context {R : Type}.
Implicit Types (unique_attr inp out : tensor R) (mask : tensor Z).



End OutputClaims.

(** ** The call to the wrapped algorithm and what [attribute] returns *)

Section AttributeClaims.
Context {R : Type} `{!Scalar R} {Acc : Type}.
Implicit Types (self : @DataloaderAttribution R Acc) (dataloader : list (@batch R)).
Implicit Types (first : @batch R) (input_roles : option (list Z)).
Implicit Types (baselines : option (one_or_tuple (@baseline R))).
Implicit Types (feature_mask : option (one_or_tuple (tensor Z))).
Implicit Types (reduce : option (@reduce_fn R Acc)).
Implicit Types (to_metric : option (@to_metric_fn R Acc)).
Implicit Types (perturbation_per_pass : Z) (show_progress return_input_shape : bool).
Implicit Types (su : @setup R Acc).

Lemma attribute_setup_failed self dataloader input_roles baselines feature_mask
    reduce to_metric perturbation_per_pass show_progress return_input_shape e :
  attribute_setup dataloader input_roles baselines feature_mask reduce to_metric
    perturbation_per_pass show_progress = Err e →
  attribute self dataloader input_roles baselines feature_mask reduce to_metric
    perturbation_per_pass show_progress return_input_shape = Traced [] (Err e).
Proof. intros Hsu. unfold attribute. by rewrite Hsu. Qed.

Lemma attribute_setup_done self dataloader input_roles baselines feature_mask
    reduce to_metric perturbation_per_pass show_progress return_input_shape su :
  attribute_setup dataloader input_roles baselines feature_mask reduce to_metric
    perturbation_per_pass show_progress = Ok su →
  calls (attribute self dataloader input_roles baselines feature_mask reduce
           to_metric perturbation_per_pass show_progress return_input_shape)
    = [CallAttribute (su_feature_indices su) (su_args su)]
  ∧ outcome (attribute self dataloader input_roles baselines feature_mask reduce
               to_metric perturbation_per_pass show_progress return_input_shape)
    = (am_attribute (attr_method self) (installed_forward self)
         (su_feature_indices su) (su_args su)
       ≫= λ unique_attr,
         if negb return_input_shape then Ok (AttrTensor unique_attr)
         else _convert_output_shape unique_attr (su_attr_inputs su)
                (fa_feature_mask (su_args su))
              ≫= _format_output (su_is_inputs_tuple su)).
Proof.
  intros Hsu. unfold attribute. rewrite (lift_bind_Ok _ _ _ Hsu).
  fold (installed_forward self).
  destruct (am_attribute (attr_method self) (installed_forward self)
              (su_feature_indices su) (su_args su)) as [unique_attr|e'];
    [|done].
  rewrite (call_bind_Ok _ _ _ unique_attr) by done. simpl.
  destruct return_input_shape; simpl; [|done].
  destruct (_convert_output_shape unique_attr (su_attr_inputs su)
              (fa_feature_mask (su_args su))) as [attr|]; simpl; [|done].
  by destruct (_format_output (su_is_inputs_tuple su) attr).
Qed.

Lemma attribute_Ok_setup self dataloader input_roles baselines feature_mask
    reduce to_metric perturbation_per_pass show_progress return_input_shape r :
  outcome (attribute self dataloader input_roles baselines feature_mask reduce
             to_metric perturbation_per_pass show_progress return_input_shape)
    = Ok r →
  is_Ok (attribute_setup dataloader input_roles baselines feature_mask reduce
           to_metric perturbation_per_pass show_progress).
Proof.
  intros Hok.
  destruct (attribute_setup dataloader input_roles baselines feature_mask reduce
              to_metric perturbation_per_pass show_progress) as [su|e] eqn:Hsu;
    [by eexists|].
  by rewrite (attribute_setup_failed _ _ _ _ _ _ _ _ _ _ _ Hsu) in Hok.
Qed.


Lemma convert_output_shape_Ok (unique_attr : tensor R)
    (attr_inputs : list (tensor R)) (masks : list (tensor Z)) (attr : list (tensor R)) :
  _convert_output_shape unique_attr attr_inputs masks = Ok attr →
  ∃ n_features, last (shape unique_attr) = Some n_features ∧
    Forall2 (λ im out,
               convert_one unique_attr (removelast (shape unique_attr)) n_features
                 im.1 im.2 = Ok out)
            (zip attr_inputs masks) attr.
Proof.
  unfold _convert_output_shape. intros (n & Hn & Hattr)%bind_Ok.
  destruct (last (shape unique_attr)) as [n'|]; [|done]. injection Hn as ->.
  exists n. split; [done|]. apply mapM_Ok in Hattr.
  eapply Forall2_impl; [exact Hattr|]. by intros [inp mask] out.
Qed.

(** C6. When [return_input_shape] is false, [attribute] returns the unique
    attributions as the wrapped algorithm returned them. When it is true,
    the attributions are reconstructed, one tensor for every attributable
    input in the order of the inputs; they are returned as a tuple when the
    dataloader yields tuples (or lists), and as the single tensor itself
    when it yields a tensor. *)
Theorem attribute_result_format self dataloader input_roles baselines
    feature_mask reduce to_metric perturbation_per_pass show_progress
    return_input_shape r :
  outcome (attribute self dataloader input_roles baselines feature_mask reduce
             to_metric perturbation_per_pass show_progress return_input_shape)
    = Ok r →
  ∃ first rest su unique_attr,
    dataloader = first :: rest
    ∧ attribute_setup dataloader input_roles baselines feature_mask reduce
        to_metric perturbation_per_pass show_progress = Ok su
    ∧ am_attribute (attr_method self) (installed_forward self)
        (su_feature_indices su) (su_args su) = Ok unique_attr
    ∧ (return_input_shape = false → r = AttrTensor unique_attr)
    ∧ (return_input_shape = true →
         ∃ attr n_features,
           Forall2 (λ im out,
                      convert_one unique_attr (removelast (shape unique_attr))
                        n_features im.1 im.2 = Ok out)
                   (zip (su_attr_inputs su) (fa_feature_mask (su_args su))) attr
           ∧ length attr = length (su_attr_inputs su)
           ∧ match first with
             | BatchTensor _ => ∃ t, attr = [t] ∧ r = AttrTensor t
             | BatchTuple _ | BatchList _ => r = AttrTuple attr
             end).
Proof.
  intros Hok. destruct (attribute_Ok_setup _ _ _ _ _ _ _ _ _ _ _ Hok) as [su Hsu].
  destruct (attribute_setup_done self _ _ _ _ _ _ _ _ return_input_shape _ Hsu)
    as [_ Hout].
  rewrite Hout in Hok. apply bind_Ok in Hok as (unique_attr & Hu & Hr).
  destruct (attribute_setup_Ok _ _ _ _ _ _ _ _ _ Hsu)
    as (first & rest & roles & masks & mx & -> & _ & Htuple & _ & _ & _ & _
        & Hlen & _ & _ & _ & _ & _ & Hargs).
  exists first, rest, su, unique_attr. split_and!; try done.
  - intros ->. simpl in Hr. by injection Hr as <-.
  - intros ->. simpl in Hr. apply bind_Ok in Hr as (attr & Hattr & Hr).
    apply convert_output_shape_Ok in Hattr as (n & _ & Hattr).
    exists attr, n. split; [done|].
    assert (length attr = length (su_attr_inputs su)) as Hla.
    { apply Forall2_length in Hattr. rewrite <- Hattr, length_zip, Hargs. simpl.
      lia. }
    split; [done|]. rewrite Htuple in Hr. unfold _format_output in Hr.
    destruct first as [items|items|t]; simpl in Hr.
    + by injection Hr as <-.
    + by injection Hr as <-.
    + destruct attr as [|t' [|??]]; try done. injection Hr as <-. by exists t'.
Qed.

(** *** Configuration errors *)

Lemma resolve_input_roles_falsy input_roles (inputs : list (tensor R)) :
  truthy input_roles = false →
  resolve_input_roles input_roles inputs = Ok ((λ _, InputRole.need_attr) <$> inputs).
Proof. unfold resolve_input_roles. by intros ->. Qed.

Lemma resolve_input_roles_Ok input_roles (inputs : list (tensor R)) (roles : list Z) :
  resolve_input_roles input_roles inputs = Ok roles →
  (truthy input_roles = false ∧ roles = (λ _, InputRole.need_attr) <$> inputs)
  ∨ (input_roles = Some roles ∧ roles ≠ [] ∧ length roles = length inputs
     ∧ InputRole.need_attr ∈ roles).
Proof.
  unfold resolve_input_roles. destruct (truthy input_roles) eqn:Htr.
  - destruct input_roles as [[|role rs]|]; try done. simpl.
    intros ([] & Hlen%assert_Ok%bool_decide_eq_true
               & ([] & Hex%assert_Ok%bool_decide_eq_true & [= <-])%bind_Ok)%bind_Ok.
    right. split_and!; try done.
    apply Exists_exists in Hex as (role' & ? & ->). done.
  - intros [= <-]. by left.
Qed.

Lemma length_attr_inputs_of (roles : list Z) (inputs : list (tensor R)) :
  length roles = length inputs →
  length (attr_inputs_of roles inputs)
  = length (filter (λ role, role = InputRole.need_attr) roles).
Proof.
  unfold attr_inputs_of. rewrite length_fmap. revert inputs.
  induction roles as [|role roles IH]; intros [|inp inputs] Hlen; simpl in *;
    try done.
  destruct (decide (role = InputRole.need_attr)).
  - rewrite !filter_cons_True by done. simpl. f_equal. apply IH. lia.
  - rewrite !filter_cons_False by done. apply IH. lia.
Qed.

Lemma attr_inputs_of_default (inputs : list (tensor R)) :
  attr_inputs_of ((λ _, InputRole.need_attr) <$> inputs) inputs = inputs.
Proof.
  unfold attr_inputs_of. induction inputs as [|inp inputs IH]; simpl; [done|].
  by f_equal.
Qed.

Lemma mapM_checks_Ok {A} (check : nat * A → result ()) (l : list A) (x : A) :
  is_Ok (mapM check (enumerate l)) → x ∈ l → ∃ i, check (i, x) = Ok ().
Proof.
  intros [us Hus%mapM_Ok] [i Hi]%list_elem_of_lookup.
  apply (lookup_enumerate 0) in Hi.
  destruct (Forall2_lookup_l _ _ _ _ _ Hus Hi) as ([] & _ & Hc). eauto.
Qed.

(** C7, amended. A non-empty [input_roles] whose length differs from the
    arity of the batches or that holds no [need_attr], a number of baselines
    or of feature masks that differs from the number of inputs needing
    attribution, and a baseline or mask tensor whose first dimension is not
    1 each make [attribute] fail with an empty trace: only the first batch
    has been fetched, and the wrapped algorithm, which alone runs the passes
    over the dataloader, has not been called. *)
Theorem config_error_fails_before_traversal self first rest input_roles
    baselines feature_mask reduce to_metric perturbation_per_pass show_progress
    return_input_shape :
  config_error first input_roles baselines feature_mask →
  ∃ e, attribute self (first :: rest) input_roles baselines feature_mask reduce
         to_metric perturbation_per_pass show_progress return_input_shape
       = Traced [] (Err e).
Proof.
  intros Herr.
  destruct (attribute_setup (first :: rest) input_roles baselines feature_mask
              reduce to_metric perturbation_per_pass show_progress)
    as [su|e] eqn:Hsu;
    [exfalso | exists e; by apply attribute_setup_failed].
  destruct (attribute_setup_Ok _ _ _ _ _ _ _ _ _ Hsu)
    as (first' & rest' & roles & masks & mx & [= <- <-] & Hroles & _ & Hattr
        & Hbl & Hcb & Hfm & Hml & Hcm & _).
  assert (length (su_attr_inputs su) = n_attr_inputs first input_roles) as Hn.
  { rewrite Hattr. unfold n_attr_inputs.
    destruct (resolve_input_roles_Ok _ _ _ Hroles)
      as [[-> ->]|(-> & Hne & Hlen & _)].
    - by rewrite attr_inputs_of_default.
    - destruct roles; [done|]. simpl. by apply length_attr_inputs_of. }
  destruct Herr as [rs -> Hne Hlen | rs -> Hne Hnone | bs -> Hcount
                   | ms -> Hcount | bs t -> Hin Hdim | ms t -> Hin Hdim].
  - destruct (resolve_input_roles_Ok _ _ _ Hroles)
      as [[Htr _]|([= <-] & _ & ? & _)]; [by destruct rs|done].
  - destruct (resolve_input_roles_Ok _ _ _ Hroles)
      as [[Htr _]|([= <-] & _ & _ & ?)]; [by destruct rs|done].
  - simpl in Hbl. congruence.
  - simpl in Hfm. injection Hfm as <-. congruence.
  - simpl in Hcb. destruct (mapM_checks_Ok _ _ _ Hcb Hin) as [i Hc].
    unfold check_baseline in Hc. simpl in Hc.
    apply bind_Ok in Hc as (n & Hn' & ->%assert_Ok%bool_decide_eq_true). done.
  - simpl in Hfm. injection Hfm as <-.
    destruct (mapM_checks_Ok _ _ _ Hcm Hin) as [i Hc].
    unfold check_mask in Hc. simpl in Hc.
    apply bind_Ok in Hc as (n & Hn' & ->%assert_Ok%bool_decide_eq_true). done.
Qed.

(** C8, amended. The feature-to-mask index that [attribute] builds maps
    every feature index to the positions, in increasing order, of the
    attributable inputs whose mask contains it. An index that no mask
    contains maps to the empty list: the list of an index is non-empty
    exactly when some mask contains the index, as is the case for the
    largest index [n_features - 1]. *)
Theorem feature_idx_to_mask_idx_lists_masks dataloader input_roles baselines
    feature_mask reduce to_metric perturbation_per_pass show_progress su :
  attribute_setup dataloader input_roles baselines feature_mask reduce to_metric
    perturbation_per_pass show_progress = Ok su →
  (∀ (f : Z) (k : nat),
     k ∈ lookup_default (fa_feature_idx_to_mask_idx (su_args su)) f
     ↔ ∃ mask, fa_feature_mask (su_args su) !! k = Some mask ∧ f ∈ data mask)
  ∧ (∀ f : Z,
       StronglySorted lt (lookup_default (fa_feature_idx_to_mask_idx (su_args su)) f))
  ∧ (∀ f : Z,
       lookup_default (fa_feature_idx_to_mask_idx (su_args su)) f ≠ []
       ↔ ∃ k mask, fa_feature_mask (su_args su) !! k = Some mask ∧ f ∈ data mask)
  ∧ ∃ n_features : nat,
      shape (su_feature_indices su) = [1; n_features]
      ∧ lookup_default (fa_feature_idx_to_mask_idx (su_args su))
          (Z.of_nat n_features - 1) ≠ [].
Proof.
  intros Hsu.
  destruct (attribute_setup_Ok _ _ _ _ _ _ _ _ _ Hsu)
    as (first & rest & roles & masks & mx & _ & _ & _ & _ & _ & _ & _ & _ & _
        & Hmx & Hnn & _ & Hfi & Hargs).
  rewrite Hargs, Hfi. simpl.
  assert (∀ f : Z,
    lookup_default (build_feature_idx_to_mask_idx masks) f ≠ []
    ↔ ∃ k mask, masks !! k = Some mask ∧ f ∈ data mask) as Hne.
  { intros f. split.
    - destruct (lookup_default (build_feature_idx_to_mask_idx masks) f)
        as [|k l] eqn:Hl; [done|]. intros _.
      exists k. apply build_lookup_elem_of. rewrite Hl. left.
    - intros (k & mask & Hk & Hf) Hl.
      assert (k ∈ lookup_default (build_feature_idx_to_mask_idx masks) f) as Hin
        by (apply build_lookup_elem_of; eauto).
      rewrite Hl in Hin. by apply elem_of_nil in Hin. }
  split_and!.
  - intros f k. apply build_lookup_elem_of.
  - intros f. rewrite build_lookup. apply positions_of_sorted.
  - done.
  - exists (Z.to_nat (mx + 1)). split; [done|].
    replace (Z.of_nat (Z.to_nat (mx + 1)) - 1)%Z with mx by lia.
    apply Hne. apply elem_of_concat_data.
    by destruct (get_max_feature_index_spec _ _ Hmx).
Qed.

(** C9. Constructing the wrapper around an attribution method whose class
    is not among the supported ones fails at construction with the
    unsupported-method assertion: no instance exists on which [attribute]
    could be called. *)
Theorem unsupported_method_rejected_at_construction
    (method : @attribution_method R Acc) :
  am_class method ∉ SUPPORTED_METHODS →
  __init__ method = Err (AssertionError UnsupportedMethod)
  ∧ ∀ self, __init__ method ≠ Ok self.
Proof.
  intros Hclass. unfold __init__.
  rewrite bool_decide_eq_false_2 by done. done.
Qed.

Lemma supported_method_accepted (method : @attribution_method R Acc) :
  am_class method = FeatureAblation →
  __init__ method
  = Ok {| forward_func := am_forward_func method; attr_method := method |}.
Proof. unfold __init__. by intros ->. Qed.

(** C10. With an empty (or otherwise falsy) [input_roles] the two checks
    of the roles are skipped and every position of the tuple is given the
    role [need_attr]: the call behaves as the same call without
    [input_roles], and the roles are resolved without an error. *)
Theorem falsy_input_roles_as_omitted self dataloader input_roles baselines
    feature_mask reduce to_metric perturbation_per_pass show_progress
    return_input_shape :
  truthy input_roles = false →
  attribute self dataloader input_roles baselines feature_mask reduce to_metric
    perturbation_per_pass show_progress return_input_shape
  = attribute self dataloader None baselines feature_mask reduce to_metric
      perturbation_per_pass show_progress return_input_shape
  ∧ ∀ inputs : list (tensor R),
      resolve_input_roles input_roles inputs
      = Ok ((λ _, InputRole.need_attr) <$> inputs).
Proof.
  intros Hfalsy. split; [|intros inputs; by apply resolve_input_roles_falsy].
  unfold attribute, attribute_setup.
  destruct (next_iter dataloader) as [first|]; [|done]. simpl.
  destruct (format_inputs first) as [inputs is_inputs_tuple].
  by rewrite !resolve_input_roles_falsy.
Qed.

End AttributeClaims.

(** ** The perturbation, element by element *)

Section Elementwise.
Context {R : Type} `{!Scalar R}.
Implicit Types (inp keep row out : tensor R) (mask : tensor Z).

Lemma broadcast_rev_batch (r : list nat) (a : nat) :
  broadcast_rev (r ++ [a]) (r ++ [1]) = Ok (r ++ [a]).
Proof.
  induction r as [|x r IH]; simpl.
  - destruct (decide (a = 1)) as [Heq|Hne].
    + by rewrite bool_decide_eq_true_2.
    + by rewrite !bool_decide_eq_false_2 by done.
  - rewrite IH. simpl. by rewrite bool_decide_eq_true_2.
Qed.

Lemma broadcast_shapes_batch (batch_size : nat) (dims : list nat) :
  broadcast_shapes (batch_size :: dims) (1 :: dims) = Ok (batch_size :: dims).
Proof.
  unfold broadcast_shapes. rewrite !reverse_cons, broadcast_rev_batch. simpl.
  by rewrite reverse_app, reverse_involutive.
Qed.

(** A tensor of shape [(batch_size, *dims)] combined with one of shape
    [(1, *dims)]: the second is repeated for every sample. *)
Lemma binop_batch {A} (f : A → A → A) (t1 t2 : tensor A)
    (batch_size : nat) (dims : list nat) :
  shape t1 = batch_size :: dims → shape t2 = 1 :: dims → wf t1 → wf t2 →
  binop f t1 t2
  = Ok (Tensor (batch_size :: dims)
          (zip_with f (data t1) (concat (replicate batch_size (data t2))))).
Proof.
  unfold wf, binop. intros -> -> H1 H2. simpl in H2. rewrite Nat.add_0_r in H2.
  rewrite broadcast_shapes_batch. change (Ok ?a ≫= ?g) with (g a). cbv beta.
  rewrite expand_data_id by done. change (Ok ?a ≫= ?g) with (g a). cbv beta.
  rewrite (expand_data_leading [] batch_size dims) by done. simpl.
  by rewrite Nat.add_0_r.
Qed.

Lemma lookup_repeated {A} (n k : nat) (d : list A) (i j : nat) :
  length d = k → i < n → j < k →
  concat (replicate n d) !! (i * k + j) = d !! j.
Proof.
  intros Hd Hi Hj. rewrite lookup_concat_blocks; [|by apply Forall_replicate|done].
  by rewrite lookup_replicate_2.
Qed.

(** On an input of shape [(batch_size, *dims)], with a mask and a baseline
    that broadcast over the samples, line 154 computes for every sample [b]
    and every feature [j] the value [x * k + v * (1 - k)] of the input [x],
    the bit [k] and the baseline [v]. *)
Lemma perturb_elementwise inp keep (bl : @baseline R)
    (batch_size : nat) (dims : list nat) :
  shape inp = batch_size :: dims → wf inp →
  shape keep = 1 :: dims → wf keep →
  baseline_fits bl dims →
  ∃ out, perturb inp keep bl = Ok out
    ∧ shape out = batch_size :: dims
    ∧ wf out
    ∧ ∀ (b j : nat) (x k v : R),
        b < batch_size →
        data inp !! (b * numel dims + j) = Some x →
        data keep !! j = Some k →
        baseline_value bl j = Some v →
        data out !! (b * numel dims + j)
        = Some (sadd (smul x k) (smul v (ssub sone k))).
Proof.
  intros Hinp Hwi Hkeep Hwk Hbl. unfold perturb.
  rewrite (binop_batch _ _ _ batch_size dims) by done. simpl mbind.
  set (dropped := pointwise (ssub sone) keep).
  assert (shape dropped = 1 :: dims ∧ wf dropped) as [Hsd Hwd].
  { unfold dropped, pointwise, wf in *. simpl. by rewrite length_fmap. }
  assert (length (data keep) = numel dims) as Hlk.
  { unfold wf in Hwk. rewrite Hkeep in Hwk. simpl in Hwk. lia. }
  assert (length (data inp) = batch_size * numel dims) as Hli.
  { unfold wf in Hwi. by rewrite Hinp in Hwi. }
  assert (∃ filled,
    match bl with
    | BScalar r => Ok (pointwise (smul r) dropped)
    | BTensor t => binop smul t dropped
    end = Ok filled
    ∧ shape filled = 1 :: dims ∧ length (data filled) = numel dims
    ∧ ∀ j k v, data keep !! j = Some k → baseline_value bl j = Some v →
               data filled !! j = Some (smul v (ssub sone k)))
    as (filled & -> & Hsf & Hlf & Hfilled).
  { destruct bl as [r|t]; simpl in Hbl.
    - eexists. split; [done|]. unfold dropped, pointwise. simpl.
      split; [done|]. split; [by rewrite !length_fmap|].
      intros j k v Hk [= <-]. by rewrite !list_lookup_fmap, Hk.
    - destruct Hbl as [Hst Hwt].
      rewrite (binop_batch _ _ _ 1 dims) by done.
      eexists. split; [done|]. simpl. rewrite app_nil_r.
      assert (length (data t) = numel dims) as Hlt.
      { unfold wf in Hwt. rewrite Hst in Hwt. simpl in Hwt. lia. }
      split; [done|].
      split; [by rewrite length_zip_with, Hlt, length_fmap, Hlk, Nat.min_id|].
      intros j k v Hk Hv. simpl in Hv.
      by rewrite lookup_zip_with, Hv, list_lookup_fmap, Hk. }
  simpl mbind.
  assert (wf filled) as Hwf.
  { unfold wf. rewrite Hsf, Hlf. simpl. lia. }
  rewrite (binop_batch _ _ _ batch_size dims); [|done|done| |done].
  2:{ unfold wf. simpl.
      rewrite length_zip_with, Hli,
        (length_concat_blocks (numel dims)) by (by apply Forall_replicate).
      rewrite length_replicate. lia. }
  eexists. split; [done|]. simpl. split; [done|]. split.
  { unfold wf. simpl.
    rewrite !length_zip_with, Hli,
      !(length_concat_blocks (numel dims)) by (by apply Forall_replicate).
    rewrite !length_replicate. lia. }
  intros b j x k v Hb Hx Hk Hv.
  assert (j < numel dims) as Hj by (rewrite <- Hlk; by eapply lookup_lt_Some).
  rewrite !lookup_zip_with, Hx. simpl.
  rewrite !lookup_repeated by done. rewrite Hk. simpl.
  by rewrite (Hfilled _ _ _ Hk Hv).
Qed.

(** The mask handed to [perturb]: the entries of the pattern at the feature
    indices the mask of the input holds. *)
Lemma index_pattern row mask (n : nat) :
  shape row = [n] → wf row →
  Forall (in_range n) (data mask) →
  ∃ keep, index row mask = Ok keep
    ∧ shape keep = shape mask
    ∧ length (data keep) = length (data mask)
    ∧ ∀ (j : nat) (z : Z), data mask !! j = Some z →
                            data keep !! j = data row !! Z.to_nat z.
Proof.
  intros Hrow Hwf Hrange. unfold index. rewrite Hrow.
  unfold wf in Hwf. rewrite Hrow, numel_singleton in Hwf.
  rewrite (mapM_Ok_fmap _ Z.to_nat).
  2:{ intros z Hz. eapply Forall_forall in Hrange; [|done].
      unfold norm_index. by rewrite bool_decide_eq_true_2. }
  simpl mbind. eexists. split; [done|]. simpl. rewrite app_nil_r.
  rewrite <- list_fmap_compose.
  assert (Forall (λ l : list R, length l = 1)
            ((λ j, chunk 1 j (data row)) ∘ Z.to_nat <$> data mask)) as Hblocks.
  { apply Forall_fmap. eapply Forall_impl; [exact Hrange|]. intros z Hz. simpl.
    apply length_chunk. unfold in_range in Hz. lia. }
  split; [done|]. split.
  - rewrite (length_concat_blocks 1) by done. rewrite length_fmap. lia.
  - intros j z Hz. replace j with (j * 1 + 0) at 1 by lia.
    rewrite lookup_concat_blocks by (done || lia).
    rewrite list_lookup_fmap, Hz. simpl.
    rewrite lookup_chunk by lia. f_equal. lia.
Qed.

Lemma falsy_entries_row row (n : nat) :
  shape row = [n] → falsy_entries row = Ok (is_zero <$> data row).
Proof. unfold falsy_entries. by intros ->. Qed.

End Elementwise.

(** ** A pass over well-shaped batches returns *)

Section Returns.
Context {R : Type} `{!Scalar R} {Acc : Type}.
Implicit Types (inp keep row : tensor R) (mask : tensor Z) (roles : list Z).
Implicit Types (accum : @pyobj R Acc) (b : @batch R).
Implicit Types (forward_func : @forward_fn R) (pattern : tensor R).
Implicit Types (args : @forward_args R Acc) (res : @pyobj R Acc).

Lemma mapM_is_Ok {A B} (f : A → result B) (l : list A) :
  (∀ x, x ∈ l → is_Ok (f x)) → is_Ok (mapM f l).
Proof.
  induction l as [|x l IH]; intros Hf.
  - by eexists.
  - destruct (Hf x) as [y Hy]; [left|].
    destruct IH as [k Hk]; [intros z Hz; apply Hf; by right|].
    exists (y :: k). apply mapM_Ok. constructor; [done|]. by apply mapM_Ok.
Qed.

Lemma select0_pattern pattern (k n : nat) :
  shape pattern = [S k; n] → wf pattern →
  ∃ row, select0 pattern = Ok row ∧ shape row = [n] ∧ wf row.
Proof.
  intros Hs Hwf. unfold select0. rewrite Hs. eexists. split; [done|].
  split; [done|]. unfold wf in *. simpl. rewrite Hs in Hwf. simpl in Hwf.
  rewrite length_chunk; lia.
Qed.

Lemma perturb_inputs_returns pert_masks (baselines : list (@baseline R))
    (count : nat) (pairs : list (tensor R * Z)) :
  (∀ p inp, pairs !! p = Some (inp, InputRole.need_attr) →
     ∃ pm, pert_masks !! (count + attr_index pairs.*2 p) = Some pm ∧
       ∀ keep, pm = Some keep →
         ∃ bl, baselines !! (count + attr_index pairs.*2 p) = Some bl
               ∧ is_Ok (perturb inp keep bl)) →
  is_Ok (perturb_inputs pert_masks baselines count pairs).
Proof.
  revert count. induction pairs as [|[inp0 role0] rest IH]; intros count Hall.
  - by eexists.
  - simpl. case_bool_decide as Hrole.
    + destruct (IH count) as [out Hout].
      { intros p inp Hp. destruct (Hall (S p) inp Hp) as (pm & Hpm & Hk).
        unfold attr_index in *. simpl in Hpm, Hk.
        rewrite filter_cons_False in Hpm, Hk by done. eauto. }
      rewrite Hout. by eexists.
    + subst role0. destruct (Hall 0 inp0 eq_refl) as (pm & Hpm & Hk).
      unfold attr_index in Hpm, Hk. simpl in Hpm, Hk. rewrite Nat.add_0_r in Hpm, Hk.
      destruct (IH (S count)) as [out Hout].
      { intros p inp Hp. destruct (Hall (S p) inp Hp) as (pm' & Hpm' & Hk').
        unfold attr_index in *. simpl in Hpm', Hk'.
        rewrite !Nat.add_succ_r in Hpm', Hk'. eauto. }
      unfold tuple_get. rewrite Hpm. simpl. destruct pm as [keep|]; simpl.
      * destruct (Hk keep eq_refl) as (bl & -> & [o Ho]). simpl. rewrite Ho. simpl.
        rewrite Hout. by eexists.
      * rewrite Hout. by eexists.
Qed.

Lemma forward_loop_returns forward_func args pert_masks accum
    (dataloader : list (@batch R)) :
  (∀ inputs, is_Ok (forward_func inputs)) →
  (∀ accum output inputs, is_Ok (fa_reduce args accum output inputs)) →
  Forall (λ b, ∃ items, batch_items b = Ok items
               ∧ is_Ok (perturb_inputs pert_masks (fa_baselines args) 0
                          (zip items (fa_input_roles args)))) dataloader →
  is_Ok (outcome (forward_loop forward_func (fa_input_roles args) (fa_baselines args)
                    (fa_reduce args) pert_masks accum dataloader)).
Proof.
  intros Hfwd Hred Hall. revert accum.
  induction Hall as [|b rest (items & Hitems & [pert Hpert]) _ IH]; intros accum.
  - by eexists.
  - simpl.
    destruct (Hfwd (forward_inputs pert (fa_input_roles args))) as [output Hout].
    destruct (Hred accum output pert) as [accum' Hacc].
    destruct (IH accum') as [res Hres]. exists res.
    apply traced_bind_Ok. exists accum'. split; [|done].
    unfold forward_batch.
    rewrite (lift_bind_Ok _ _ _ Hitems), (lift_bind_Ok _ _ _ Hpert).
    unfold _run_forward. rewrite (call_bind_Ok _ _ _ _ Hout). simpl. by rewrite Hacc.
Qed.

(** A pass over well-shaped batches returns when the forward function, the
    reduce function and the metric do. *)
Lemma forward_with_dataloader_returns forward_func pattern args (k n : nat) :
  shape pattern = [S k; n] → wf pattern →
  Forall (λ mask, Forall (in_range n) (data mask)) (fa_feature_mask args) →
  Forall (well_shaped_batch args) (fa_dataloader args) →
  (∀ inputs, is_Ok (forward_func inputs)) →
  (∀ accum output inputs, is_Ok (fa_reduce args accum output inputs)) →
  (∀ to_metric accum, fa_to_metric args = Some to_metric → is_Ok (to_metric accum)) →
  is_Ok (outcome (_forward_with_dataloader forward_func pattern args)).
Proof.
  intros Hshape Hwf Hrange Hbatches Hfwd Hred Hmetric.
  destruct (select0_pattern _ _ _ Hshape Hwf) as (row & Hrow & Hrs & Hrw).
  pose proof (falsy_entries_row row n Hrs) as Hflags.
  set (indices := perturbation_mask_indices (is_zero <$> data row)
                    (fa_feature_idx_to_mask_idx args)).
  destruct (mapM_is_Ok
              (λ '(i, mask_elem),
                 if bool_decide (i ∈ indices) then Some <$> index row mask_elem
                 else Ok None)
              (zip (seq 0 (length (fa_feature_mask args))) (fa_feature_mask args)))
    as [pms Hpms].
  { intros [i mask] Hin. case_bool_decide; [|by eexists].
    apply list_elem_of_lookup in Hin as [j Hj].
    apply lookup_zip_Some in Hj as [_ Hmask].
    assert (Forall (in_range n) (data mask)) as Hm.
    { eapply Forall_forall in Hrange; [done|]. by eapply list_elem_of_lookup_2. }
    destruct (index_pattern row mask n Hrs Hrw Hm) as (keep & -> & _). by eexists. }
  fold (perturbation_mask row indices (fa_feature_mask args)) in Hpms.
  destruct (perturbation_mask_lookup _ _ _ _ Hpms) as [Hlen Hlk].
  destruct (forward_loop_returns forward_func args pms PyNone (fa_dataloader args))
    as [accum Hloop]; [done|done| |].
  { eapply Forall_impl; [exact Hbatches|].
    intros b (items & Hitems & Harity & Hpos). exists items. split; [done|].
    apply perturb_inputs_returns. intros p inp [Hinp Hrole]%lookup_zip_Some.
    unfold attr_index. rewrite take_snd_zip by (apply lookup_lt_Some in Hinp; lia).
    fold (attr_index (fa_input_roles args) p). simpl.
    destruct (Hpos p inp Hinp Hrole)
      as (mask & bl & batch_size & dims & Hmask & Hbl & Hsi & Hwi & Hsm & Hwm & Hfit).
    destruct (Hlk _ _ Hmask) as [Hin Hnin].
    destruct (decide (attr_index (fa_input_roles args) p ∈ indices)) as [Hi|Hi].
    - destruct (Hin Hi) as (keep & Hkeep & Hpm). exists (Some keep). split; [done|].
      intros keep' [= <-]. exists bl. split; [done|].
      assert (Forall (in_range n) (data mask)) as Hm.
      { eapply Forall_forall in Hrange; [done|]. by eapply list_elem_of_lookup_2. }
      destruct (index_pattern row mask n Hrs Hrw Hm) as (keep' & Hk' & Hsk & Hlk' & _).
      rewrite Hkeep in Hk'. injection Hk' as <-.
      assert (shape keep = 1 :: dims) as Hsk' by congruence.
      assert (wf keep) as Hwk by (unfold wf in *; by rewrite Hlk', Hsk).
      destruct (perturb_elementwise inp keep bl batch_size dims Hsi Hwi Hsk' Hwk Hfit)
        as (o & -> & _).
      by eexists.
    - exists None. split; [by apply Hnin|]. done. }
  unfold _forward_with_dataloader.
  rewrite (lift_bind_Ok _ _ _ Hrow), (lift_bind_Ok _ _ _ Hflags).
  fold indices. rewrite (lift_bind_Ok _ _ _ Hpms).
  destruct (fa_to_metric args) as [to_metric|] eqn:Htm.
  - destruct (Hmetric to_metric accum eq_refl) as [res Hres]. exists res.
    apply traced_bind_Ok. exists accum. split; [done|]. simpl. by rewrite Hres.
  - exists accum. apply traced_bind_Ok. by exists accum.
Qed.

End Returns.

(** ** Every pass, raising or not *)

Section Runs.
Context {R : Type} `{!Scalar R} {Acc : Type}.
Implicit Types (inp keep row : tensor R) (mask : tensor Z) (roles : list Z).
Implicit Types (accum : @pyobj R Acc) (b : @batch R).
Implicit Types (forward_func : @forward_fn R) (pattern : tensor R).
Implicit Types (args : @forward_args R Acc) (res : @pyobj R Acc).

(** What one iteration of the loop does, whether it raises or not. *)
Lemma forward_batch_cases forward_func roles (baselines : list (@baseline R))
    (reduce : @reduce_fn R Acc) pert_masks accum b :
  (∃ e, forward_batch forward_func roles baselines reduce pert_masks accum b
        = Traced [] (Err e)
        ∧ (batch_items b = Err e
           ∨ ∃ items, batch_items b = Ok items
               ∧ perturb_inputs pert_masks baselines 0 (zip items roles) = Err e))
  ∨ ∃ items perturbed,
      batch_items b = Ok items
      ∧ perturb_inputs pert_masks baselines 0 (zip items roles) = Ok perturbed
      ∧ ((∃ e, forward_func (forward_inputs perturbed roles) = Err e
               ∧ forward_batch forward_func roles baselines reduce pert_masks accum b
                 = Traced [CallForward (forward_inputs perturbed roles)] (Err e))
         ∨ (∃ output, forward_func (forward_inputs perturbed roles) = Ok output
               ∧ forward_batch forward_func roles baselines reduce pert_masks accum b
                 = Traced [CallForward (forward_inputs perturbed roles);
                           CallReduce accum output perturbed]
                     (reduce accum output perturbed))).
Proof.
  unfold forward_batch, _run_forward.
  destruct (batch_items b) as [items|e] eqn:Hitems; [|left; exists e; eauto].
  destruct (perturb_inputs pert_masks baselines 0 (zip items roles))
    as [perturbed|e] eqn:Hpert.
  2:{ left. exists e. split; [|right; eauto]. 
      rewrite (lift_bind_Ok _ _ _ eq_refl). by rewrite (lift_bind_Err _ _ _ Hpert). }
  right. exists items, perturbed. split; [done|]. split; [done|].
  rewrite (lift_bind_Ok _ _ _ eq_refl), (lift_bind_Ok _ _ _ Hpert).
  destruct (forward_func (forward_inputs perturbed roles)) as [output|e] eqn:Hout.
  - right. exists output. split; [done|].
    by rewrite (call_bind_Ok _ _ _ _ eq_refl).
  - left. exists e. done.
Qed.


Lemma traced_bind_eq {E A B} (cs : list E) (m : result A) (f : A → traced E B) :
  Traced cs m ≫= f
  = match m with
    | Ok a => Traced (cs ++ calls (f a)) (outcome (f a))
    | Err e => Traced cs (Err e)
    end.
Proof. by destruct m. Qed.

Lemma forward_loop_run forward_func roles (baselines : list (@baseline R))
    (reduce : @reduce_fn R Acc) pert_masks accum (dataloader : list (@batch R)) :
  ∃ (steps : list (@step R Acc)) tail,
    calls (forward_loop forward_func roles baselines reduce pert_masks accum dataloader)
      = concat (step_calls roles <$> steps) ++ tail
    ∧ length steps ≤ length dataloader
    ∧ (tail = [] ∨ ∃ inputs, tail = [CallForward inputs]
                              ∧ length steps < length dataloader)
    ∧ (is_Ok (outcome (forward_loop forward_func roles baselines reduce pert_masks
                         accum dataloader)) →
       tail = [] ∧ length steps = length dataloader).
Proof.
  revert accum. induction dataloader as [|b rest IH]; intros accum; simpl.
  { exists [], []. split_and!; auto. }
  destruct (forward_batch_cases forward_func roles baselines reduce pert_masks accum b)
    as [(e & -> & _) | (items & perturbed & _ & _
         & [(e & _ & ->) | (output & _ & ->)])];
    rewrite traced_bind_eq.
  - exists [], []. simpl. split_and!; auto with lia. by intros [? ?].
  - exists [], [CallForward (forward_inputs perturbed roles)]. simpl.
    split_and!; [done|lia| |by intros [? ?]]. right. eexists. split; [done|lia].
  - destruct (reduce accum output perturbed) as [accum'|e].
    + destruct (IH accum') as (steps & tail & -> & Hlen & Htail & Hok).
      exists (Step accum perturbed output accum' :: steps), tail. simpl.
      split_and!; [done|lia| |].
      * destruct Htail as [->|(inputs & -> & ?)]; [by left|right].
        eexists. split; [done|lia].
      * intros Hres. destruct (Hok Hres) as [-> ->]. done.
    + exists [Step accum perturbed output accum], []. simpl.
      split_and!; [done|lia|by left|by intros [? ?]].
Qed.

(** X1. Whatever happens in a pass, raised errors included: the calls are,
    batch by batch and for an initial part of the dataloader, one call of
    the forward function followed by one call of reduce with the tuple whose
    forwarded positions the forward function received; they may be followed
    by a single call of the forward function, the one at which the pass
    stopped with an error, or, when every batch has been reduced, by the
    single call of [to_metric]. The forward function is never called twice
    for a batch, reduce never without a forward output, and [to_metric]
    never before the last batch is reduced. *)
Theorem calls_of_any_pass forward_func pattern args :
  ∃ (steps : list (@step R Acc)) tail,
    calls (_forward_with_dataloader forward_func pattern args)
      = concat (step_calls (fa_input_roles args) <$> steps) ++ tail
    ∧ length steps ≤ length (fa_dataloader args)
    ∧ (tail = []
       ∨ (∃ inputs, tail = [CallForward inputs]
                    ∧ length steps < length (fa_dataloader args))
       ∨ (∃ accum, tail = [CallToMetric accum]
                   ∧ length steps = length (fa_dataloader args)
                   ∧ is_Some (fa_to_metric args))).
Proof.
  unfold _forward_with_dataloader.
  destruct (select0 pattern) as [row|e];
    [|exists [], []; simpl; split_and!; [done|lia|by left]].
  rewrite (lift_bind_Ok _ _ _ eq_refl).
  destruct (falsy_entries row) as [flags|e];
    [|exists [], []; simpl; split_and!; [done|lia|by left]].
  rewrite (lift_bind_Ok _ _ _ eq_refl).
  destruct (perturbation_mask row _ (fa_feature_mask args)) as [pms|e];
    [|exists [], []; simpl; split_and!; [done|lia|by left]].
  rewrite (lift_bind_Ok _ _ _ eq_refl).
  destruct (forward_loop_run forward_func (fa_input_roles args) (fa_baselines args)
              (fa_reduce args) pms PyNone (fa_dataloader args))
    as (steps & tail & Hcalls & Hlen & Htail & Hok).
  destruct (forward_loop forward_func (fa_input_roles args) (fa_baselines args)
              (fa_reduce args) pms PyNone (fa_dataloader args))
    as [cs [accum|e]] eqn:Hloop; rewrite traced_bind_eq; simpl in *.
  - destruct Hok as [-> Hall]; [by eexists|]. subst cs.
    destruct (fa_to_metric args) as [to_metric|]; simpl.
    + exists steps, [CallToMetric accum]. rewrite app_nil_r.
      split; [reflexivity|]. split; [lia|]. right; right. eauto.
    + exists steps, []. split; [by rewrite !app_nil_r|]. split; [lia|by left].
  - exists steps, tail. split; [done|]. split; [done|].
    destruct Htail as [->|?]; auto.
Qed.


(** On well-shaped data the masks of a pass are prepared and every batch is
    perturbed without an error. *)
Lemma well_shaped_pass_prepared pattern args (k n : nat) :
  shape pattern = [S k; n] → wf pattern →
  Forall (λ mask, Forall (in_range n) (data mask)) (fa_feature_mask args) →
  Forall (well_shaped_batch args) (fa_dataloader args) →
  ∃ row flags pert_masks,
    select0 pattern = Ok row
    ∧ falsy_entries row = Ok flags
    ∧ perturbation_mask row
        (perturbation_mask_indices flags (fa_feature_idx_to_mask_idx args))
        (fa_feature_mask args) = Ok pert_masks
    ∧ Forall (λ b, ∃ items, batch_items b = Ok items
                   ∧ is_Ok (perturb_inputs pert_masks (fa_baselines args) 0
                              (zip items (fa_input_roles args))))
             (fa_dataloader args).
Proof.
  intros Hshape Hwf Hrange Hbatches.
  destruct (select0_pattern _ _ _ Hshape Hwf) as (row & Hrow & Hrs & Hrw).
  pose proof (falsy_entries_row row n Hrs) as Hflags.
  set (indices := perturbation_mask_indices (is_zero <$> data row)
                    (fa_feature_idx_to_mask_idx args)).
  destruct (mapM_is_Ok
              (λ '(i, mask_elem),
                 if bool_decide (i ∈ indices) then Some <$> index row mask_elem
                 else Ok None)
              (zip (seq 0 (length (fa_feature_mask args))) (fa_feature_mask args)))
    as [pms Hpms].
  { intros [i mask] Hin. case_bool_decide; [|by eexists].
    apply list_elem_of_lookup in Hin as [j Hj].
    apply lookup_zip_Some in Hj as [_ Hmask].
    assert (Forall (in_range n) (data mask)) as Hm.
    { eapply Forall_forall in Hrange; [done|]. by eapply list_elem_of_lookup_2. }
    destruct (index_pattern row mask n Hrs Hrw Hm) as (keep & -> & _). by eexists. }
  fold (perturbation_mask row indices (fa_feature_mask args)) in Hpms.
  destruct (perturbation_mask_lookup _ _ _ _ Hpms) as [Hlen Hlk].
  exists row, (is_zero <$> data row), pms. split_and!; try done.
  eapply Forall_impl; [exact Hbatches|].
  intros b (items & Hitems & Harity & Hpos). exists items. split; [done|].
  apply perturb_inputs_returns. intros p inp [Hinp Hrole]%lookup_zip_Some.
  unfold attr_index. rewrite take_snd_zip by (apply lookup_lt_Some in Hinp; lia).
  fold (attr_index (fa_input_roles args) p). simpl.
  destruct (Hpos p inp Hinp Hrole)
    as (mask & bl & batch_size & dims & Hmask & Hbl & Hsi & Hwi & Hsm & Hwm & Hfit).
  destruct (Hlk _ _ Hmask) as [Hin Hnin].
  destruct (decide (attr_index (fa_input_roles args) p ∈ indices)) as [Hi|Hi].
  - destruct (Hin Hi) as (keep & Hkeep & Hpm). exists (Some keep). split; [done|].
    intros keep' [= <-]. exists bl. split; [done|].
    assert (Forall (in_range n) (data mask)) as Hm.
    { eapply Forall_forall in Hrange; [done|]. by eapply list_elem_of_lookup_2. }
    destruct (index_pattern row mask n Hrs Hrw Hm) as (keep' & Hk' & Hsk & Hlk' & _).
    rewrite Hkeep in Hk'. injection Hk' as <-.
    assert (shape keep = 1 :: dims) as Hsk' by congruence.
    assert (wf keep) as Hwk by (unfold wf in *; by rewrite Hlk', Hsk).
    destruct (perturb_elementwise inp keep bl batch_size dims Hsi Hwi Hsk' Hwk Hfit)
      as (o & -> & _).
    by eexists.
  - exists None. split; [by apply Hnin|]. done.
Qed.

Lemma forward_loop_raises forward_func args pert_masks accum
    (dataloader : list (@batch R)) (e : error) :
  Forall (λ b, ∃ items, batch_items b = Ok items
               ∧ is_Ok (perturb_inputs pert_masks (fa_baselines args) 0
                          (zip items (fa_input_roles args)))) dataloader →
  outcome (forward_loop forward_func (fa_input_roles args) (fa_baselines args)
             (fa_reduce args) pert_masks accum dataloader) = Err e →
  raised_by_last_call forward_func args
    (calls (forward_loop forward_func (fa_input_roles args) (fa_baselines args)
              (fa_reduce args) pert_masks accum dataloader)) e.
Proof.
  intros Hall. revert accum.
  induction Hall as [|b rest (items & Hitems & [pert Hpert]) _ IH]; intros accum;
    simpl; [done|].
  destruct (forward_batch_cases forward_func (fa_input_roles args) (fa_baselines args)
              (fa_reduce args) pert_masks accum b)
    as [(e' & _ & [Hb | (items' & Hb & Hp)]) | (items' & perturbed & _ & _
         & [(e' & Hfwd & ->) | (output & _ & ->)])];
    [congruence | congruence | |]; rewrite traced_bind_eq; simpl.
  - intros [= <-]. done.
  - destruct (fa_reduce args accum output perturbed) as [accum'|e'] eqn:Hred; simpl.
    + intros Herr. specialize (IH accum' Herr). unfold raised_by_last_call in *.
      rewrite !last_cons.
      by destruct (last (calls (forward_loop forward_func (fa_input_roles args)
                                  (fa_baselines args) (fa_reduce args) pert_masks
                                  accum' rest))).
    + intros [= <-]. done.
Qed.

(** X2. On well-shaped data the preparation of the masks and the perturbation
    of the batches never raise: when a pass raises, the error is the one
    that the forward function, reduce or [to_metric] raised in the call
    made last. *)
Theorem pass_raises_only_in_collaborators forward_func pattern args
    (k n : nat) (e : error) :
  shape pattern = [S k; n] → wf pattern →
  Forall (λ mask, Forall (in_range n) (data mask)) (fa_feature_mask args) →
  Forall (well_shaped_batch args) (fa_dataloader args) →
  outcome (_forward_with_dataloader forward_func pattern args) = Err e →
  raised_by_last_call forward_func args
    (calls (_forward_with_dataloader forward_func pattern args)) e.
Proof.
  intros Hshape Hwf Hrange Hbatches.
  destruct (well_shaped_pass_prepared _ _ _ _ Hshape Hwf Hrange Hbatches)
    as (row & flags & pms & Hrow & Hflags & Hpms & Hall).
  unfold _forward_with_dataloader.
  rewrite (lift_bind_Ok _ _ _ Hrow), (lift_bind_Ok _ _ _ Hflags),
    (lift_bind_Ok _ _ _ Hpms).
  pose proof (forward_loop_raises forward_func args pms PyNone _ e Hall) as Hloop.
  destruct (forward_loop forward_func (fa_input_roles args) (fa_baselines args)
              (fa_reduce args) pms PyNone (fa_dataloader args))
    as [cs [accum|e']]; rewrite traced_bind_eq; simpl in *.
  - destruct (fa_to_metric args) as [to_metric|] eqn:Htm; simpl; [|done].
    intros Herr. unfold raised_by_last_call. rewrite last_snoc. eauto.
  - intros [= ->]. by apply Hloop.
Qed.

End Runs.

(** ** A pass that perturbs nothing *)

Section Unperturbed.
Context {R : Type} `{!Scalar R} {Acc : Type}.
Implicit Types (inp keep row : tensor R) (mask : tensor Z) (roles : list Z).
Implicit Types (accum : @pyobj R Acc) (b : @batch R).
Implicit Types (forward_func : @forward_fn R) (pattern : tensor R).
Implicit Types (args : @forward_args R Acc) (res : @pyobj R Acc).

Lemma fst_zip_take {A B} (l : list A) (k : list B) :
  (zip l k).*1 = take (length k) l.
Proof.
  revert k. induction l as [|x l IH]; intros [|y k]; simpl; try done.
  by rewrite IH.
Qed.

Lemma zip_take_length {A B} (l : list A) (k : list B) :
  zip (take (length k) l) k = zip l k.
Proof.
  revert k. induction l as [|x l IH]; intros [|y k]; simpl; try done.
  by rewrite IH.
Qed.

Lemma perturbation_mask_indices_missing (flags : list bool)
    (d : gmap Z (list nat)) :
  (∀ i, flags !! i = Some true → lookup_default d (Z.of_nat i) = []) →
  perturbation_mask_indices flags d = ∅.
Proof.
  intros Hmiss. apply set_eq. intros k.
  rewrite perturbation_mask_indices_elem_of, elem_of_empty.
  split; [|done]. intros (i & Hi & Hk). rewrite (Hmiss i Hi) in Hk.
  by apply elem_of_nil in Hk.
Qed.

(** Without a mask to apply, the inner loop hands every input on. *)
Lemma perturb_inputs_no_masks pert_masks (baselines : list (@baseline R))
    (count : nat) (pairs : list (tensor R * Z)) (out : list (tensor R)) :
  Forall (λ pm, pm = None) pert_masks →
  perturb_inputs pert_masks baselines count pairs = Ok out → out = pairs.*1.
Proof.
  intros Hnone. revert count out.
  induction pairs as [|[inp role] rest IH]; intros count out; simpl.
  { by intros [= <-]. }
  case_bool_decide as Hrole.
  - intros (out' & Hout' & ->)%fmap_Ok. f_equal. by eapply IH.
  - intros (pm & Hpm & (cur & Hcur & (out' & Hout' & ->)%fmap_Ok)%bind_Ok)%bind_Ok.
    unfold tuple_get in Hpm.
    destruct (pert_masks !! count) as [pm'|] eqn:Hlk; [injection Hpm as ->|done].
    assert (pm = None) as ->.
    { eapply Forall_forall in Hnone; [done|]. by eapply list_elem_of_lookup_2. }
    injection Hcur as ->. f_equal. by eapply IH.
Qed.

(** X3. A pass whose pattern zeroes no feature, as the reference evaluation
    of an ablation, or zeroes only feature indices that the feature-to-mask
    index does not hold, for which the [defaultdict] gives the empty list,
    perturbs nothing, whatever the masks and baselines are: of every batch
    the forward function receives the entries whose role is not
    [no_forward] as the dataloader yields them, and reduce receives the
    batch, cut to the number of roles. *)
Theorem unperturbed_pass forward_func pattern args res row flags :
  select0 pattern = Ok row → falsy_entries row = Ok flags →
  (∀ i, flags !! i = Some true →
        lookup_default (fa_feature_idx_to_mask_idx args) (Z.of_nat i) = []) →
  outcome (_forward_with_dataloader forward_func pattern args) = Ok res →
  ∃ batches : list (list (tensor R)),
    mapM batch_items (fa_dataloader args) = Ok batches
    ∧ forward_calls (calls (_forward_with_dataloader forward_func pattern args))
      = (λ items, forward_inputs items (fa_input_roles args)) <$> batches
    ∧ (reduce_calls (calls (_forward_with_dataloader forward_func pattern args))).*2
      = (λ items, take (length (fa_input_roles args)) items) <$> batches.
Proof.
  intros Hrow Hflags Hno Hok.
  destruct (forward_with_dataloader_spec _ _ _ _ Hok)
    as (row' & flags' & pms & steps & Hrow' & Hflags' & Hpm & Hsteps & _ & Hcalls).
  rewrite Hrow in Hrow'. injection Hrow' as <-.
  rewrite Hflags in Hflags'. injection Hflags' as <-.
  rewrite perturbation_mask_indices_missing in Hpm by done.
  assert (Forall (λ pm, pm = None) pms) as Hnone.
  { destruct (perturbation_mask_lookup _ _ _ _ Hpm) as [Hlen Hlk].
    apply Forall_forall. intros pm [k Hk]%list_elem_of_lookup.
    destruct (lookup_lt_is_Some_2 (fa_feature_mask args) k) as [mask Hmask].
    { rewrite <- Hlen. by eapply lookup_lt_Some. }
    destruct (Hlk _ _ Hmask) as [_ Hnin].
    rewrite Hnin in Hk by apply not_elem_of_empty. by injection Hk as <-. }
  assert (forward_calls (calls (_forward_with_dataloader forward_func pattern args))
          = (λ s, forward_inputs (s_perturbed s) (fa_input_roles args)) <$> steps
          ∧ reduce_calls (calls (_forward_with_dataloader forward_func pattern args))
            = (λ s, (s_accum s, s_output s, s_perturbed s)) <$> steps)
    as [-> ->].
  { destruct (fa_to_metric args); destruct Hcalls as [_ ->];
      unfold forward_calls, reduce_calls; rewrite ?omap_app; simpl;
      rewrite ?app_nil_r; split;
      (apply forward_calls_steps || apply reduce_calls_steps). }
  clear Hcalls Hok Hpm. rewrite <- list_fmap_compose.
  induction Hsteps as [|b s bs ss (items & Hitems & Hpert & _) _ IH].
  { by exists []. }
  destruct IH as (batches & Hbatches & Hfwd & Hred).
  apply perturb_inputs_no_masks in Hpert; [|done].
  rewrite fst_zip_take in Hpert.
  exists (items :: batches). split_and!.
  - simpl. by rewrite Hitems, Hbatches.
  - rewrite !fmap_cons, Hfwd, Hpert. f_equal.
    unfold forward_inputs. by rewrite zip_take_length.
  - rewrite !fmap_cons, Hred. simpl. by rewrite Hpert.
Qed.

End Unperturbed.

(** ** The perturbed values and the default reduce *)

Section PerturbedValue.
Context {R : Type} `{!Scalar R}.
Implicit Types (inp keep row out : tensor R) (mask : tensor Z).

(** X4. Lines 130 and 154 together, element by element: for an input of
    shape [(batch_size, *dims)], a mask of shape [(1, *dims)] whose values
    index the pattern row, and a baseline that is a number or a tensor of
    shape [(1, *dims)], the perturbed input has the shape of the input and
    holds, for sample [b] and feature position [j], the value
    [x * k + v * (1 - k)], where [x] is the input value, [k] the entry of
    the pattern at the feature index the mask holds at [j], and [v] the
    baseline at [j]. *)
Theorem perturbed_element row inp mask (bl : @baseline R)
    (n batch_size : nat) (dims : list nat) :
  shape row = [n] → wf row →
  shape inp = batch_size :: dims → wf inp →
  shape mask = 1 :: dims → wf mask →
  Forall (in_range n) (data mask) →
  baseline_fits bl dims →
  ∃ keep out,
    index row mask = Ok keep
    ∧ perturb inp keep bl = Ok out
    ∧ shape out = batch_size :: dims
    ∧ wf out
    ∧ ∀ (b j : nat) (x k v : R) (z : Z),
        b < batch_size →
        data inp !! (b * numel dims + j) = Some x →
        data mask !! j = Some z →
        data row !! Z.to_nat z = Some k →
        baseline_value bl j = Some v →
        data out !! (b * numel dims + j)
        = Some (sadd (smul x k) (smul v (ssub sone k))).
Proof.
  intros Hrow Hwr Hinp Hwi Hmask Hwm Hrange Hfit.
  destruct (index_pattern row mask n Hrow Hwr Hrange)
    as (keep & Hkeep & Hsk & Hlk & Hvals).
  assert (shape keep = 1 :: dims) as Hsk' by congruence.
  assert (wf keep) as Hwk by (unfold wf in *; by rewrite Hlk, Hsk).
  destruct (perturb_elementwise inp keep bl batch_size dims Hinp Hwi Hsk' Hwk Hfit)
    as (out & Hout & Hso & Hwo & Helem).
  exists keep, out. split_and!; try done.
  intros b j x k v z Hb Hx Hz Hk Hv. apply Helem; try done.
  by rewrite (Hvals _ _ Hz).
Qed.

End PerturbedValue.

Section DefaultReduce.
Context {R : Type} `{!Scalar R} {Acc : Type}.
Implicit Types (forward_func : @forward_fn R) (pattern : tensor R).
Implicit Types (args : @forward_args R Acc) (res : @pyobj R Acc).

Lemma concat_chain (reduce : @reduce_fn R Acc) (dims : list nat)
    (steps : list (@step R Acc)) (a : tensor R) (m : nat) :
  reduce = _concat_tensors →
  shape a = m :: dims → wf a →
  chained (PyTensor a) steps →
  Forall (λ s, reduce (s_accum s) (s_output s) (s_perturbed s) = Ok (s_reduced s)
               ∧ ∃ n, shape (s_output s) = n :: dims ∧ wf (s_output s)) steps →
  final_accum (PyTensor a) steps
  = PyTensor (Tensor (m + sum_list (batch_dim <$> (s_output <$> steps)) :: dims)
                (data a ++ concat (data <$> (s_output <$> steps)))).
Proof.
  intros ->. revert a m. induction steps as [|s steps IH]; intros a m Ha Hwa; simpl.
  { intros _ _. rewrite Nat.add_0_r, app_nil_r. destruct a. simpl in *. by subst. }
  intros [Hacc Hchain] [[Hred (n & Hout & Hwo)] Hall]%Forall_cons.
  rewrite Hacc in Hred. simpl in Hred.
  rewrite (cat_batches _ _ m n dims) in Hred by done. injection Hred as Hred.
  rewrite <- Hred in Hchain |- *.
  unfold final_accum in *. 
  rewrite (IH _ (m + n)); [| done | | done | done].
  - simpl. unfold batch_dim at 2. rewrite Hout. simpl.
    by rewrite Nat.add_assoc, <- app_assoc.
  - unfold wf in *. simpl. rewrite length_app, Hwa, Hwo, Ha, Hout. simpl. lia.
Qed.

(** X5. With the default reduce and without [to_metric], a pass whose
    forward function returns outputs of the shapes [(n_i, *dims)] returns
    their concatenation along dimension 0, in the order of the batches: a
    tensor of shape [(n_1 + ... + n_k, *dims)] holding the elements of the
    outputs one output after the other. Over an empty dataloader the pass
    returns [None]. *)
Theorem default_reduce_concatenates forward_func pattern args res (dims : list nat) :
  fa_reduce args = _concat_tensors → fa_to_metric args = None →
  (∀ inputs out, forward_func inputs = Ok out → ∃ n, shape out = n :: dims ∧ wf out) →
  outcome (_forward_with_dataloader forward_func pattern args) = Ok res →
  ∃ outputs : list (tensor R),
    Forall2 (λ inputs out, forward_func inputs = Ok out)
      (forward_calls (calls (_forward_with_dataloader forward_func pattern args)))
      outputs
    ∧ length outputs = length (fa_dataloader args)
    ∧ res = match outputs with
            | [] => PyNone
            | _ :: _ =>
                PyTensor (Tensor (sum_list (batch_dim <$> outputs) :: dims)
                            (concat (data <$> outputs)))
            end.
Proof.
  intros Hreduce Hmetric Hfwd Hok.
  destruct (forward_with_dataloader_spec _ _ _ _ Hok)
    as (row & flags & pms & steps & _ & _ & _ & Hsteps & Hchain & Hcalls).
  rewrite Hmetric in Hcalls. destruct Hcalls as [-> ->].
  rewrite forward_calls_steps. exists (s_output <$> steps). split_and!.
  - apply Forall2_fmap. apply Forall_Forall2_diag.
    eapply Forall2_Forall_r; [exact Hsteps|]. apply Forall_forall.
    by intros b _ s (items & _ & _ & ? & _).
  - rewrite length_fmap. symmetry. by eapply Forall2_length.
  - assert (Forall (λ s : @step R Acc,
              fa_reduce args (s_accum s) (s_output s) (s_perturbed s)
                = Ok (s_reduced s)
              ∧ ∃ n, shape (s_output s) = n :: dims ∧ wf (s_output s)) steps)
      as Hall.
    { eapply Forall2_Forall_r; [exact Hsteps|]. apply Forall_forall.
      intros b _ s (items & _ & _ & Hout & Hred). split; [done|]. by eapply Hfwd. }
    destruct steps as [|s steps]; [done|].
    apply Forall_cons in Hall as [[Hred (n & Hout & Hwo)] Hall].
    destruct Hchain as [Hacc Hchain]. rewrite Hreduce, Hacc in Hred.
    injection Hred as Hred. rewrite <- Hred in Hchain.
    change (final_accum PyNone (s :: steps)) with (final_accum (s_reduced s) steps).
    rewrite <- Hred.
    rewrite (concat_chain (fa_reduce args) dims steps (s_output s) n) by done.
    rewrite !fmap_cons. simpl. unfold batch_dim at 2. by rewrite Hout.
Qed.

(** X6. The default reduce cannot accumulate outputs without dimensions:
    with a forward function that returns tensors without dimensions, as a
    loss over the batch is, a pass with the default reduce returns only for
    a dataloader of at most one batch; with the second batch [torch.cat]
    raises. *)
Theorem default_reduce_rejects_scalar_outputs forward_func pattern args res :
  fa_reduce args = _concat_tensors →
  (∀ inputs out, forward_func inputs = Ok out → shape out = []) →
  outcome (_forward_with_dataloader forward_func pattern args) = Ok res →
  length (fa_dataloader args) ≤ 1.
Proof.
  intros Hreduce Hfwd Hok.
  destruct (forward_with_dataloader_spec _ _ _ _ Hok)
    as (row & flags & pms & steps & _ & _ & _ & Hsteps & Hchain & _).
  rewrite (Forall2_length _ _ _ Hsteps).
  destruct steps as [|s1 [|s2 steps]]; simpl; [lia|lia|exfalso].
  assert (∀ s : @step R Acc, s ∈ s1 :: s2 :: steps →
            fa_reduce args (s_accum s) (s_output s) (s_perturbed s)
              = Ok (s_reduced s)
            ∧ shape (s_output s) = []) as Hall.
  { apply Forall_forall. eapply Forall2_Forall_r; [exact Hsteps|].
    apply Forall_forall. intros b _ s (items & _ & _ & Hout & Hred).
    split; [done|]. by eapply Hfwd. }
  destruct (Hall s1) as [Hred1 _]; [left|].
  destruct (Hall s2) as [Hred2 Hshape2]; [right; left|].
  destruct Hchain as (Hacc1 & Hacc2 & _).
  rewrite Hreduce, Hacc1 in Hred1. injection Hred1 as Hred1.
  rewrite Hreduce, Hacc2, <- Hred1 in Hred2. simpl in Hred2.
  unfold cat in Hred2. rewrite Hshape2 in Hred2.
  by destruct (shape (s_output s1)).
Qed.

(** X7. The tuple of a batch is as long as the shorter of the batch and the
    roles: [zip] cuts a batch with more entries than there are roles and
    ignores the roles beyond a shorter batch, and neither raises an error.
    Reduce receives the tuple so cut and the forward function its forwarded
    positions, so that the surplus entries of a batch reach neither. *)
Theorem batch_cut_to_roles forward_func pattern args res :
  outcome (_forward_with_dataloader forward_func pattern args) = Ok res →
  Forall2 (λ b inputs, ∃ items, batch_items b = Ok items
                       ∧ length inputs = length items `min` length (fa_input_roles args))
    (fa_dataloader args)
    (reduce_calls (calls (_forward_with_dataloader forward_func pattern args))).*2
  ∧ forward_calls (calls (_forward_with_dataloader forward_func pattern args))
    = (λ inputs, forward_inputs inputs (fa_input_roles args))
        <$> (reduce_calls (calls (_forward_with_dataloader forward_func pattern args))).*2.
Proof.
  intros Hok.
  destruct (forward_with_dataloader_spec _ _ _ _ Hok)
    as (row & flags & pms & steps & _ & _ & _ & Hsteps & _ & Hcalls).
  assert (forward_calls (calls (_forward_with_dataloader forward_func pattern args))
          = (λ s, forward_inputs (s_perturbed s) (fa_input_roles args)) <$> steps
          ∧ reduce_calls (calls (_forward_with_dataloader forward_func pattern args))
            = (λ s, (s_accum s, s_output s, s_perturbed s)) <$> steps)
    as [-> ->].
  { destruct (fa_to_metric args); destruct Hcalls as [_ ->];
      unfold forward_calls, reduce_calls; rewrite ?omap_app; simpl;
      rewrite ?app_nil_r; split;
      (apply forward_calls_steps || apply reduce_calls_steps). }
  rewrite <- !list_fmap_compose. split; [|done].
  apply Forall2_fmap_r. by apply steps_perturbed_length in Hsteps.
Qed.

End DefaultReduce.

(** ** Accepted and rejected configurations *)

Section Configuration.
Context {R : Type} `{!Scalar R} {Acc : Type}.
Implicit Types (self : @DataloaderAttribution R Acc) (dataloader : list (@batch R)).
Implicit Types (first : @batch R) (input_roles : option (list Z)).
Implicit Types (baselines : option (one_or_tuple (@baseline R))).
Implicit Types (feature_mask : option (one_or_tuple (tensor Z))).
Implicit Types (reduce : option (@reduce_fn R Acc)).
Implicit Types (to_metric : option (@to_metric_fn R Acc)).
Implicit Types (perturbation_per_pass : Z) (show_progress return_input_shape : bool).
Implicit Types (su : @setup R Acc).
Implicit Types (forward_func : @forward_fn R) (pattern : tensor R).
Implicit Types (args : @forward_args R Acc) (res : @pyobj R Acc).

(** X8. What holds of every configuration that [attribute] accepts and
    hands to the wrapped algorithm: there is one role for every entry of the
    first batch; at least one input needs attribution; there are as many
    baselines and as many masks as inputs that need attribution; every
    tensor baseline and every mask has a first dimension of size 1; every
    mask value is below the number of features; and the feature-to-mask
    index is the one built from the masks handed on. *)
Theorem accepted_configuration dataloader input_roles baselines feature_mask
    reduce to_metric perturbation_per_pass show_progress su :
  attribute_setup dataloader input_roles baselines feature_mask reduce to_metric
    perturbation_per_pass show_progress = Ok su →
  ∃ first rest (n_features : nat),
    dataloader = first :: rest
    ∧ fa_dataloader (su_args su) = dataloader
    ∧ length (fa_input_roles (su_args su)) = length (format_inputs first).1
    ∧ su_attr_inputs su
      = attr_inputs_of (fa_input_roles (su_args su)) (format_inputs first).1
    ∧ su_attr_inputs su ≠ []
    ∧ length (fa_baselines (su_args su)) = length (su_attr_inputs su)
    ∧ length (fa_feature_mask (su_args su)) = length (su_attr_inputs su)
    ∧ (∀ t, BTensor t ∈ fa_baselines (su_args su) → size0 t = Ok 1)
    ∧ (∀ mask, mask ∈ fa_feature_mask (su_args su) → size0 mask = Ok 1)
    ∧ shape (su_feature_indices su) = [1; n_features]
    ∧ (∀ mask z, mask ∈ fa_feature_mask (su_args su) → z ∈ data mask →
         (z < Z.of_nat n_features)%Z)
    ∧ fa_feature_idx_to_mask_idx (su_args su)
      = build_feature_idx_to_mask_idx (fa_feature_mask (su_args su)).
Proof.
  intros Hsu.
  destruct (attribute_setup_Ok _ _ _ _ _ _ _ _ _ Hsu)
    as (first & rest & roles & masks & mx & -> & Hroles & _ & Hattr & Hbl & Hcb
        & _ & Hml & Hcm & Hmx & Hnn & Hne & Hfi & Hargs).
  exists first, rest, (Z.to_nat (mx + 1)). rewrite Hargs, Hfi. simpl.
  split_and!; try done.
  - destruct (resolve_input_roles_Ok _ _ _ Hroles) as [[_ ->]|(_ & _ & ? & _)];
      [by rewrite length_fmap | done].
  - intros t Ht. destruct (mapM_checks_Ok _ _ _ Hcb Ht) as [i Hc].
    unfold check_baseline in Hc. simpl in Hc.
    by apply bind_Ok in Hc as (n & Hn & ->%assert_Ok%bool_decide_eq_true).
  - intros mask Hm. destruct (mapM_checks_Ok _ _ _ Hcm Hm) as [i Hc].
    unfold check_mask in Hc. simpl in Hc.
    by apply bind_Ok in Hc as (n & Hn & ->%assert_Ok%bool_decide_eq_true).
  - intros mask z [k Hk]%list_elem_of_lookup Hz.
    destruct (get_max_feature_index_spec _ _ Hmx) as [_ Hle].
    assert (z ≤ mx)%Z by (apply Hle, elem_of_concat_data; eauto). lia.
Qed.

(** X9. [attribute] checks the configuration against the first batch only:
    what it sets up for a dataloader is what it sets up for the dataloader
    of the first batch alone, but for the dataloader it hands on. Batches
    after the first, of whatever arity and shapes, are not looked at before
    the passes. *)
Theorem setup_reads_first_batch_only first (rest : list (@batch R)) input_roles
    baselines feature_mask reduce to_metric perturbation_per_pass show_progress :
  attribute_setup (first :: rest) input_roles baselines feature_mask reduce
    to_metric perturbation_per_pass show_progress
  = with_dataloader (first :: rest)
      <$> attribute_setup [first] input_roles baselines feature_mask reduce
            to_metric perturbation_per_pass show_progress.
Proof.
  unfold attribute_setup. simpl.
  destruct (format_inputs first) as [inputs is_inputs_tuple].
  destruct (resolve_input_roles input_roles inputs) as [roles|]; [|done]. simpl.
  destruct (assert _ BaselinesLengthMismatch); [|done]. simpl.
  destruct (mapM check_baseline _); [|done]. simpl.
  destruct (_format_feature_mask feature_mask _) as [masks|]; [|done]. simpl.
  destruct (assert _ MasksLengthMismatch); [|done]. simpl.
  destruct (mapM check_mask _); [|done]. simpl.
  destruct (_get_max_feature_index masks) as [mx|]; [|done]. simpl.
  destruct (match _ with [] => _ | _ :: _ => _ end); done.
Qed.

(** X10. The checks of [attribute] report in the order of the source. For
    an empty dataloader [next(iter(dataloader))] raises [StopIteration]
    before any argument is looked at. Otherwise a wrong number of roles is
    reported before anything else, then roles without [need_attr], then,
    for accepted roles, a wrong number of baselines whatever the masks are,
    and a wrong number of masks only when the baselines have passed their
    checks; these are [AssertionError]s. All are raised before the wrapped
    algorithm is called. *)
Theorem configuration_errors_in_source_order self first (rest : list (@batch R))
    input_roles baselines feature_mask reduce to_metric perturbation_per_pass
    show_progress return_input_shape :
  let run := attribute self (first :: rest) input_roles baselines feature_mask
               reduce to_metric perturbation_per_pass show_progress
               return_input_shape in
  let inputs := (format_inputs first).1 in
  attribute self [] input_roles baselines feature_mask reduce to_metric
    perturbation_per_pass show_progress return_input_shape
  = Traced [] (Err StopIteration)
  ∧   (∀ roles, input_roles = Some roles → roles ≠ [] →
     length roles ≠ length inputs →
     run = Traced [] (Err (AssertionError RolesLengthMismatch)))
  ∧ (∀ roles, input_roles = Some roles → roles ≠ [] →
       length roles = length inputs → InputRole.need_attr ∉ roles →
       run = Traced [] (Err (AssertionError RolesWithoutNeedAttr)))
  ∧ (∀ roles bs, resolve_input_roles input_roles inputs = Ok roles →
       baselines = Some bs →
       length (_format_tensor_into_tuples bs) ≠ length (attr_inputs_of roles inputs) →
       run = Traced [] (Err (AssertionError BaselinesLengthMismatch)))
  ∧ (∀ roles ms, resolve_input_roles input_roles inputs = Ok roles →
       length (_format_baseline baselines (attr_inputs_of roles inputs))
         = length (attr_inputs_of roles inputs) →
       is_Ok (mapM check_baseline
                (enumerate (_format_baseline baselines (attr_inputs_of roles inputs)))) →
       feature_mask = Some ms →
       length (_format_tensor_into_tuples ms) ≠ length (attr_inputs_of roles inputs) →
       run = Traced [] (Err (AssertionError MasksLengthMismatch))).
Proof.
  intros run inputs. subst run inputs.
  split_and!.
  - done.
  - intros roles -> Hne Hlen. apply attribute_setup_failed.
    unfold attribute_setup. simpl. destruct (format_inputs first) as [inputs tuple].
    unfold resolve_input_roles. destruct roles as [|role roles]; [done|]. simpl in *.
    by rewrite (bool_decide_eq_false_2 (S (length roles) = length inputs)).
  - intros roles -> Hne Hlen Hnone. apply attribute_setup_failed.
    unfold attribute_setup. simpl. destruct (format_inputs first) as [inputs tuple].
    unfold resolve_input_roles. destruct roles as [|role roles]; [done|]. simpl in *.
    rewrite (bool_decide_eq_true_2 (S (length roles) = length inputs)) by done.
    simpl. rewrite bool_decide_eq_false_2; [done|].
    intros (role' & Hin & ->)%Exists_exists. done.
  - intros roles bs Hroles -> Hlen. apply attribute_setup_failed.
    unfold attribute_setup. simpl. destruct (format_inputs first) as [inputs tuple].
    simpl in *. rewrite Hroles. simpl. fold (attr_inputs_of roles inputs).
    match goal with
    | |- context [assert (bool_decide ?P) BaselinesLengthMismatch] =>
        rewrite (bool_decide_eq_false_2 P) by congruence
    end.
    done.
  - intros roles ms Hroles Hbl [us Hcb] -> Hlen. apply attribute_setup_failed.
    unfold attribute_setup. simpl. destruct (format_inputs first) as [inputs tuple].
    simpl in *. rewrite Hroles. simpl. fold (attr_inputs_of roles inputs).
    match goal with
    | |- context [assert (bool_decide ?P) BaselinesLengthMismatch] =>
        rewrite (bool_decide_eq_true_2 P) by done
    end.
    simpl. rewrite Hcb. simpl.
    match goal with
    | |- context [assert (bool_decide ?P) MasksLengthMismatch] =>
        rewrite (bool_decide_eq_false_2 P) by congruence
    end.
    done.
Qed.

(** X11. The wrapper of a supported method: its construction succeeds, and
    its [attribute] runs the [attribute] of the method with the pass over
    the dataloader as the forward function, a pass that evaluates the
    forward function the method was built with. *)
Theorem wrapper_runs_method_on_passes (method : @attribution_method R Acc)
    dataloader input_roles baselines feature_mask reduce to_metric
    perturbation_per_pass show_progress su :
  am_class method ∈ SUPPORTED_METHODS →
  attribute_setup dataloader input_roles baselines feature_mask reduce to_metric
    perturbation_per_pass show_progress = Ok su →
  ∃ self,
    __init__ method = Ok self
    ∧ outcome (attribute self dataloader input_roles baselines feature_mask reduce
                 to_metric perturbation_per_pass show_progress false)
      = AttrTensor
          <$> am_attribute method
                (λ pattern args,
                   outcome (_forward_with_dataloader (am_forward_func method)
                              pattern args))
                (su_feature_indices su) (su_args su).
Proof.
  intros Hclass Hsu. unfold __init__. rewrite bool_decide_eq_true_2 by done.
  eexists. split; [done|].
  destruct (attribute_setup_done
              {| forward_func := am_forward_func method; attr_method := method |}
              _ _ _ _ _ _ _ _ false _ Hsu) as [_ ->].
  unfold installed_forward. simpl.
  by destruct (am_attribute method _ (su_feature_indices su) (su_args su)).
Qed.

End Configuration.

(** ** Patterns of several rows, unknown roles and tensor batches *)

Section PatternAndRoles.
Context {R : Type} `{!Scalar R} {Acc : Type}.
Implicit Types (forward_func : @forward_fn R) (pattern : tensor R).
Implicit Types (args : @forward_args R Acc) (res : @pyobj R Acc).

(** X12. A pass reads the first row of the pattern only: for a pattern of
    several rows, as an algorithm that evaluates several perturbations in
    one call would pass, the pass is the pass for its first row, and the
    other rows have no effect. *)
Theorem pass_reads_first_pattern_row forward_func pattern args
    (k : nat) (s : list nat) :
  shape pattern = S k :: s →
  _forward_with_dataloader forward_func pattern args
  = _forward_with_dataloader forward_func
      (Tensor (1 :: s) (take (numel s) (data pattern))) args.
Proof.
  intros Hs.
  assert (select0 pattern
          = select0 (Tensor (1 :: s) (take (numel s) (data pattern)))) as Hrow.
  { unfold select0. rewrite Hs. cbn [shape data]. do 2 f_equal.
    unfold chunk. cbn [Nat.mul]. by rewrite !drop_0, take_take, Nat.min_id. }
  unfold _forward_with_dataloader. by rewrite Hrow.
Qed.

Lemma role_class_need_attr (role : Z) :
  role_class role ≠ InputRole.need_attr ↔ role ≠ InputRole.need_attr.
Proof.
  unfold role_class. repeat case_bool_decide; subst; split; try done;
    by intros [].
Qed.

Lemma role_class_no_forward (role : Z) :
  role_class role ≠ InputRole.no_forward ↔ role ≠ InputRole.no_forward.
Proof.
  unfold role_class. repeat case_bool_decide; subst; split; try done;
    by intros [].
Qed.

Lemma perturb_inputs_role_class pert_masks (baselines : list (@baseline R))
    (count : nat) (items : list (tensor R)) (roles : list Z) :
  perturb_inputs pert_masks baselines count (zip items (role_class <$> roles))
  = perturb_inputs pert_masks baselines count (zip items roles).
Proof.
  revert count roles. induction items as [|inp items IH]; intros count [|role roles];
    simpl; try done.
  rewrite (bool_decide_ext _ _ (role_class_need_attr role)).
  case_bool_decide; by rewrite IH.
Qed.

Lemma forward_inputs_role_class (perturbed : list (tensor R)) (roles : list Z) :
  forward_inputs perturbed (role_class <$> roles) = forward_inputs perturbed roles.
Proof.
  unfold forward_inputs. revert roles.
  induction perturbed as [|x perturbed IH]; intros [|role roles]; simpl; try done.
  destruct (decide (role ≠ InputRole.no_forward)) as [Hr|Hr].
  - rewrite (filter_cons_True _ (x, role_class role))
      by (by apply role_class_no_forward).
    rewrite (filter_cons_True _ (x, role)) by done.
    rewrite !fmap_cons. f_equal. apply IH.
  - rewrite (filter_cons_False _ (x, role_class role))
      by (simpl; by rewrite role_class_no_forward).
    rewrite (filter_cons_False _ (x, role)) by done. apply IH.
Qed.

(** X13. The roles are not checked against the three roles of [InputRole]:
    the two comparisons of the loop tell [need_attr] and [no_forward] from
    everything else, so an entry with any other integer as its role is
    handed to the forward function unperturbed, as one with the role
    [need_forward] is, and no error is raised. *)
Theorem unknown_roles_act_as_need_forward forward_func pattern args :
  _forward_with_dataloader forward_func pattern
    (with_input_roles (role_class <$> fa_input_roles args) args)
  = _forward_with_dataloader forward_func pattern args.
Proof.
  unfold _forward_with_dataloader, with_input_roles.
  cbn [fa_dataloader fa_input_roles fa_baselines fa_feature_mask fa_reduce
       fa_to_metric fa_feature_idx_to_mask_idx].
  destruct (select0 pattern) as [row|]; [|done].
  rewrite !(lift_bind_Ok _ _ _ eq_refl).
  destruct (falsy_entries row) as [flags|]; [|done].
  rewrite !(lift_bind_Ok _ _ _ eq_refl).
  destruct (perturbation_mask row _ (fa_feature_mask args)) as [pms|]; [|done].
  rewrite !(lift_bind_Ok _ _ _ eq_refl).
  assert (∀ accum (dataloader : list (@batch R)),
    forward_loop forward_func (role_class <$> fa_input_roles args)
      (fa_baselines args) (fa_reduce args) pms accum dataloader
    = forward_loop forward_func (fa_input_roles args)
        (fa_baselines args) (fa_reduce args) pms accum dataloader) as Hloop.
  { intros accum dataloader. revert accum.
    induction dataloader as [|b rest IH]; intros accum; simpl; [done|].
    assert (forward_batch forward_func (role_class <$> fa_input_roles args)
              (fa_baselines args) (fa_reduce args) pms accum b
            = forward_batch forward_func (fa_input_roles args)
                (fa_baselines args) (fa_reduce args) pms accum b) as ->.
    { unfold forward_batch. destruct (batch_items b) as [items|]; [|done].
      rewrite !(lift_bind_Ok _ _ _ eq_refl), perturb_inputs_role_class.
      destruct (perturb_inputs pms _ 0 _) as [perturbed|]; [|done].
      rewrite !(lift_bind_Ok _ _ _ eq_refl). by rewrite forward_inputs_role_class. }
    destruct (forward_batch forward_func (fa_input_roles args) (fa_baselines args)
                (fa_reduce args) pms accum b) as [cs [accum'|e]]; [|done].
    unfold mbind, traced_bind. simpl. by rewrite IH. }
  by rewrite Hloop.
Qed.

End PatternAndRoles.

Section TensorBatches.
Context {R : Type} `{!Scalar R} {Acc : Type}.
Implicit Types (self : @DataloaderAttribution R Acc) (dataloader : list (@batch R)).
Implicit Types (first : @batch R) (input_roles : option (list Z)).
Implicit Types (baselines : option (one_or_tuple (@baseline R))).
Implicit Types (feature_mask : option (one_or_tuple (tensor Z))).
Implicit Types (reduce : option (@reduce_fn R Acc)).
Implicit Types (to_metric : option (@to_metric_fn R Acc)).
Implicit Types (perturbation_per_pass : Z) (show_progress return_input_shape : bool).
Implicit Types (su : @setup R Acc).
Implicit Types (forward_func : @forward_fn R) (pattern : tensor R).
Implicit Types (args : @forward_args R Acc) (res : @pyobj R Acc).

(** X14. A dataloader that yields bare tensors: [attribute] wraps the first
    batch into a one-element tuple and gives it the single role
    [need_attr]; a pass, however, iterates over the batch itself, and
    iterating over a tensor yields its rows. Of every batch the forward
    function therefore receives one input, which is the first row of the
    batch, without the batch dimension, or that row perturbed; the other
    rows of the batch are not evaluated. *)
Theorem tensor_batches_forwarded_by_first_row dataloader baselines feature_mask
    reduce to_metric perturbation_per_pass show_progress su
    forward_func pattern res :
  attribute_setup dataloader None baselines feature_mask reduce to_metric
    perturbation_per_pass show_progress = Ok su →
  Forall (λ b, ∃ t (n : nat) (s : list nat), b = BatchTensor t ∧ shape t = S n :: s)
    dataloader →
  outcome (_forward_with_dataloader forward_func pattern (su_args su)) = Ok res →
  su_is_inputs_tuple su = false
  ∧ fa_input_roles (su_args su) = [InputRole.need_attr]
  ∧ Forall2 (λ b inputs,
       ∃ t first_row x,
         b = BatchTensor t ∧ select0 t = Ok first_row ∧ inputs = [x]
         ∧ (x = first_row ∨ ∃ keep bl, perturb first_row keep bl = Ok x))
      dataloader
      (forward_calls (calls (_forward_with_dataloader forward_func pattern (su_args su)))).
Proof.
  intros Hsu Hall Hok.
  destruct (attribute_setup_Ok _ _ _ _ _ _ _ _ _ Hsu)
    as (first & rest & roles & masks & mx & -> & Hroles & Htuple & _ & _ & _ & _
        & _ & _ & _ & _ & _ & _ & Hargs).
  pose proof (Forall_inv Hall) as (t0 & n0 & s0 & -> & Hs0).
  simpl in Hroles. injection Hroles as <-. simpl in Htuple.
  assert (fa_input_roles (su_args su) = [InputRole.need_attr]) as Hr
    by (by rewrite Hargs).
  assert (fa_dataloader (su_args su) = BatchTensor t0 :: rest) as Hdl
    by (by rewrite Hargs).
  split; [done|]. split; [done|].
  destruct (forward_with_dataloader_spec _ _ _ _ Hok)
    as (row & flags & pms & steps & _ & _ & _ & Hsteps & _ & Hcalls).
  assert (forward_calls (calls (_forward_with_dataloader forward_func pattern (su_args su)))
          = (λ s, forward_inputs (s_perturbed s) (fa_input_roles (su_args su)))
              <$> steps) as ->.
  { destruct (fa_to_metric (su_args su)); destruct Hcalls as [_ ->];
      unfold forward_calls; rewrite ?omap_app; simpl; rewrite ?app_nil_r;
      apply forward_calls_steps. }
  rewrite Hdl, Hr in Hsteps. rewrite Hr. apply Forall2_fmap_r.
  apply Forall2_same_length_lookup. split; [by eapply Forall2_length|].
  intros i b s Hb Hs.
  destruct (Forall2_lookup_lr _ _ _ _ _ _ Hsteps Hb Hs)
    as (items & Hitems & Hpert & _).
  destruct (proj1 (Forall_lookup _ _) Hall _ _ Hb) as (t & n & sh & -> & Hsh).
  simpl in Hitems. rewrite Hsh in Hitems. injection Hitems as <-.
  exists t, (Tensor sh (chunk (numel sh) 0 (data t))).
  unfold select0. rewrite Hsh.
  match type of Hpert with
  | context [zip ?rows ?roles] =>
      replace (zip rows roles)
        with [(Tensor sh (chunk (numel sh) 0 (data t)), InputRole.need_attr)]
        in Hpert by (simpl; f_equal; symmetry; apply zip_with_nil_r)
  end.
  simpl in Hpert.
  apply bind_Ok in Hpert as (pm & Hpm & (cur & Hcur & [= <-])%bind_Ok).
  exists cur. split; [done|]. split; [done|]. split; [done|].
  destruct pm as [keep|]; [|left; by injection Hcur as <-].
  apply bind_Ok in Hcur as (bl & _ & Hcur). right. eauto.
Qed.

End TensorBatches.

(** ** The reconstruction for consecutively numbered features *)

Section RoundTrip.
Context {R : Type}.
Implicit Types (unique_attr inp out : tensor R) (mask : tensor Z).






End RoundTrip.

(** ** The feature indices the reconstruction reads *)

Section InRange.
Context {R : Type}.
Implicit Types (unique_attr inp out : tensor R) (mask : tensor Z).

Lemma numel_cons_ne_0 (n : nat) (s : list nat) :
  numel (n :: s) ≠ 0 → n ≠ 0 ∧ numel s ≠ 0.
Proof. simpl. lia. Qed.

Lemma elem_of_concat_replicate {A} (x : A) (n : nat) (l : list A) :
  n ≠ 0 → x ∈ l → x ∈ concat (replicate n l).
Proof.
  intros Hn Hx. destruct n as [|n]; [done|]. simpl. apply elem_of_app. by left.
Qed.

(** Expanding a tensor to a shape without a dimension of size 0 keeps every
    element it holds. *)
Lemma expand_data_elem_of {A} (src dst : list nat) (d r : list A) (x : A) :
  expand_data src dst d = Ok r → length d = numel src → numel dst ≠ 0 →
  x ∈ d → x ∈ r.
Proof.
  revert src d r. induction dst as [|n dst IH]; intros src d r Hexp Hd Hdst Hx.
  { destruct src; [|done]. by injection Hexp as <-. }
  apply numel_cons_ne_0 in Hdst as [Hn Hdst]. simpl in Hexp.
  case_bool_decide as Hlen.
  { apply bind_Ok in Hexp as (r' & Hr' & [= <-]).
    apply elem_of_concat_replicate; [done|]. by eapply IH. }
  destruct src as [|m src]; [done|]. case_bool_decide as Hm.
  - subst m. apply bind_Ok in Hexp as (rs & Hrs%mapM_Ok & [= <-]).
    rewrite <- (concat_chunks n (numel src) d) in Hx by done.
    apply elem_of_concat in Hx as (c & Hxc & [i Hi]%list_elem_of_lookup).
    destruct (Forall2_lookup_l _ _ _ _ _ Hrs Hi) as (r' & Hr' & Hexp').
    apply elem_of_concat. exists r'. split; [|by eapply list_elem_of_lookup_2].
    eapply IH; [exact Hexp'| |done|done].
    assert (Forall (λ c, length c = numel src) (chunks n (numel src) d)) as Hall
      by (by apply Forall_length_chunks).
    eapply Forall_forall in Hall; [done|]. by eapply list_elem_of_lookup_2.
  - case_bool_decide as Hone; [|done]. subst m.
    apply bind_Ok in Hexp as (r' & Hr' & [= <-]).
    apply elem_of_concat_replicate; [done|]. eapply IH; [exact Hr'| |done|done].
    simpl in Hd. lia.
Qed.

Lemma expand_data_length {A} (src dst : list nat) (d r : list A) :
  expand_data src dst d = Ok r → length d = numel src → length r = numel dst.
Proof.
  revert src d r. induction dst as [|n dst IH]; intros src d r Hexp Hd.
  { destruct src; [|done]. by injection Hexp as <-. }
  simpl in Hexp. case_bool_decide as Hlen.
  { apply bind_Ok in Hexp as (r' & Hr' & [= <-]).
    rewrite (length_concat_blocks (numel dst)), length_replicate; [done|].
    apply Forall_replicate. by eapply IH. }
  destruct src as [|m src]; [done|]. case_bool_decide as Hm.
  - subst m. apply bind_Ok in Hexp as (rs & Hrs%mapM_Ok & [= <-]).
    rewrite (length_concat_blocks (numel dst)).
    + rewrite <- (Forall2_length _ _ _ Hrs), length_chunks. done.
    + eapply Forall2_Forall_r; [exact Hrs|].
      eapply Forall_impl; [by apply (Forall_length_chunks n (numel src) d)|].
      intros c Hc r' Hr'. by eapply IH.
  - case_bool_decide as Hone; [|done]. subst m.
    apply bind_Ok in Hexp as (r' & Hr' & [= <-]).
    rewrite (length_concat_blocks (numel dst)), length_replicate; [done|].
    apply Forall_replicate. eapply IH; [exact Hr'|]. simpl in Hd. lia.
Qed.

(** A gather that returns has read inside the last dimension only. *)
Lemma gather_data_in_range {A} (ishape xshape : list nat) (inp : list A)
    (idx : list Z) (out : list A) (n : nat) :
  gather_data ishape xshape inp idx = Ok out →
  last ishape = Some n → length idx = numel xshape →
  Forall (in_range n) idx.
Proof.
  revert xshape inp idx out.
  induction ishape as [|a s IH]; intros xshape inp idx out Hg Hlast Hidx; [done|].
  destruct xshape as [|b t]; [done|].
  destruct s as [|a' s], t as [|b' t]; try done.
  - rewrite gather_data_last in Hg. simpl in Hlast, Hidx. injection Hlast as <-.
    rewrite (take_ge idx) in Hg by lia. apply mapM_Ok in Hg.
    apply Forall_forall. intros z [i Hi]%list_elem_of_lookup.
    destruct (Forall2_lookup_l _ _ _ _ _ Hg Hi) as (y & _ & Hy).
    unfold gather_at in Hy. case_bool_decide as Hz; [|done].
    unfold in_range. rewrite length_take in Hz. lia.
  - rewrite gather_data_cons in Hg by done.
    case_bool_decide as Hba; [|done].
    apply bind_Ok in Hg as (rs & Hrs%mapM_Ok & _).
    rewrite <- (concat_chunks b (numel (b' :: t)) idx) by done.
    apply Forall_concat, Forall_forall. intros c [i Hi]%list_elem_of_lookup.
    assert (i < b) as Hib.
    { apply lookup_lt_Some in Hi. by rewrite length_chunks in Hi. }
    rewrite lookup_chunks in Hi by done. injection Hi as <-.
    assert (seq 0 b !! i = Some i) as Hseq by (by apply lookup_seq).
    destruct (Forall2_lookup_l _ _ _ _ _ Hrs Hseq) as (r & _ & Hr).
    eapply IH; [exact Hr|done|].
    apply length_chunk. simpl in *. nia.
Qed.

(** X16. The reconstruction reads the unique attributions inside their last
    dimension only: when it returns, every value of every mask it has used
    is a feature index in [0, n_features). A mask that holds the number of
    features or more, or a negative number, makes [torch.gather] raise;
    negative indices do not count from the end here. *)
Theorem reconstruction_reads_in_range unique_attr (attr_inputs : list (tensor R))
    (feature_mask : list (tensor Z)) (attr : list (tensor R)) :
  _convert_output_shape unique_attr attr_inputs feature_mask = Ok attr →
  ∃ n_features,
    last (shape unique_attr) = Some n_features
    ∧ ∀ (k : nat) inp mask,
        attr_inputs !! k = Some inp → feature_mask !! k = Some mask →
        wf mask →
        numel (removelast (shape unique_attr) ++ tail (shape inp)) ≠ 0 →
        Forall (in_range n_features) (data mask).
Proof.
  intros Hok.
  destruct (convert_output_shape_Ok _ _ _ _ Hok) as (n_features & Hn & Hall).
  exists n_features. split; [done|]. intros k inp mask Hinp Hmask Hwf Hnumel.
  assert (zip attr_inputs feature_mask !! k = Some (inp, mask)) as Hk
    by (by apply lookup_zip_Some).
  destruct (Forall2_lookup_l _ _ _ _ _ Hall Hk) as (out & _ & Hone).
  simpl in Hone. unfold convert_one in Hone.
  apply bind_Ok in Hone as (indices & Hindices & Hone).
  apply bind_Ok in Hone as (expanded & Hexpanded & Hgather).
  unfold expand in Hindices. apply fmap_Ok in Hindices as (xs & Hxs & ->).
  unfold gather in Hgather. apply fmap_Ok in Hgather as (ys & Hys & _).
  simpl in Hys.
  assert (last (nonempty_dims (shape expanded)) = Some n_features) as Hlast.
  { case_bool_decide as Hdims.
    - apply bind_Ok in Hexpanded as (unsqueezed & _ & Hexp).
      unfold expand in Hexp. apply fmap_Ok in Hexp as (zs & _ & ->).
      cbn [shape]. rewrite app_assoc.
      assert (∀ (l : list nat) (x : nat), nonempty_dims (l ++ [x]) = l ++ [x])
        as Hne by (by intros [|??] x).
      by rewrite Hne, last_snoc.
    - injection Hexpanded as <-. by destruct (shape unique_attr). }
  pose proof (expand_data_length _ _ _ _ Hxs Hwf) as Hlen.
  assert (Forall (in_range n_features) xs) as Hrange.
  { eapply gather_data_in_range; [exact Hys|exact Hlast|].
    rewrite Hlen. by destruct (removelast (shape unique_attr) ++ tail (shape inp)). }
  apply Forall_forall. intros z Hz.
  eapply Forall_forall in Hrange; [done|].
  by eapply expand_data_elem_of.
Qed.

End InRange.

(** ** The module utilities *)

Section ModelUtilities.
Import Models.

Lemma nn_module_ind' (P : nn_module → Prop) :
  (∀ cls children,
     Forall (λ c, ∀ m, c.2 = Some m → P m) children → P (NNModule cls children)) →
  ∀ m, P m.
Proof.
  intros Hstep. fix IH 1. intros [cls children]. apply Hstep.
  induction children as [|[name child] rest IHrest]; [constructor|].
  constructor; [|exact IHrest].
  destruct child as [child|]; simpl; intros m Hm; [|discriminate Hm].
  injection Hm as <-. apply IH.
Qed.

Lemma get_layers_descendants (net : nn_module) (prefix : list string) :
  get_layers net (bracketed <$> prefix)
  = (λ '(ancestors, own, _), layer_name (prefix ++ ancestors) own)
      <$> descendants net.
Proof.
  revert prefix. induction net as [cls children IH] using nn_module_ind'.
  intros prefix. simpl.
  induction IH as [|[name [layer|]] rest Hlayer _ IHrest]; [done| |done].
  rewrite fmap_cons, fmap_app, <- IHrest.
  assert (bracketed <$> prefix ++ [name] = (bracketed <$> prefix) ++ [bracketed name])
    as Hprefix by (by rewrite fmap_app).
  f_equal.
  - unfold layer_name. by rewrite app_nil_r, Hprefix.
  - f_equal. rewrite <- Hprefix, (Hlayer layer eq_refl), <- list_fmap_compose.
    apply list_fmap_ext. intros _ [[ancestors own] m] _. simpl.
    by rewrite <- app_assoc.
Qed.


(** X17. [get_model_layers] lists one name for every module registered below
    the model, at any depth, skipping the names registered without a module;
    a layer comes before the layers below it and after the layers below its
    elder siblings. The name of a layer joins the names of its ancestors and
    its own name, each in brackets when it is a number, with the separator
    of the layer's own name alone: a dot between all of them when that name
    is not a number, and nothing between any of them when it is. *)
Theorem get_model_layers_names (model : nn_module) :
  get_model_layers model
  = (λ '(ancestors, own, _), layer_name ancestors own) <$> descendants model.
Proof.
  unfold get_model_layers. change (@nil string) with (bracketed <$> []).
  by rewrite get_layers_descendants.
Qed.

Lemma descendants_replace_layers (old_layer : string → bool)
    (new_layer model : nn_module) :
  old_layer (cls new_layer) = false →
  Forall (λ '(_, _, m), old_layer (cls m) = false) (descendants new_layer) →
  Forall (λ '(_, _, m), old_layer (cls m) = false)
    (descendants (replace_layers old_layer new_layer model)).
Proof.
  intros Hnew Hbelow.
  induction model as [c children IH] using nn_module_ind'. simpl.
  induction IH as [|[name [child|]] rest Hchild _ IHrest]; [done| |done].
  assert (∀ (l : list (list string * string * nn_module)),
    Forall (λ '(_, _, m), old_layer (cls m) = false) l →
    Forall (λ '(_, _, m), old_layer (cls m) = false)
      ((λ '(ancestors, own, m), (name :: ancestors, own, m)) <$> l)) as Hmap.
  { intros l Hl. apply Forall_fmap. eapply Forall_impl; [exact Hl|].
    by intros [[??]?]. }
  destruct (old_layer (cls child)) eqn:Hold.
  - constructor; [done|]. apply Forall_app. split; [by apply Hmap|done].
  - constructor; [by destruct child|].
    apply Forall_app. split; [|done]. apply Hmap. by apply Hchild.
Qed.

(** X18. After [replace_layers] no module below the model is an instance of
    [old_layer], provided the modules that [new_layer()] constructs are
    not and hold none. The model itself is not among the modules replaced:
    only registered children are, at any depth. *)
Theorem replace_layers_leaves_no_old_layer (old_layer : string → bool)
    (new_layer model : nn_module) :
  old_layer (cls new_layer) = false →
  Forall (λ '(_, _, m), old_layer (cls m) = false) (descendants new_layer) →
  cls (replace_layers old_layer new_layer model) = cls model
  ∧ Forall (λ '(_, _, m), old_layer (cls m) = false)
      (descendants (replace_layers old_layer new_layer model)).
Proof.
  intros Hnew Hbelow. split; [by destruct model|].
  by apply descendants_replace_layers.
Qed.

Lemma elem_of_descendants_child (model child : nn_module) (name : string)
    (ancestors : list string) (own : string) (m : nn_module) :
  (name, Some child) ∈ _modules model →
  (ancestors, own, m) ∈ descendants child →
  ∃ ancestors', (ancestors', own, m) ∈ descendants model.
Proof.
  destruct model as [c children]. simpl. intros Hin Hm.
  induction children as [|[name' [child'|]] rest IH].
  - by apply elem_of_nil in Hin.
  - apply elem_of_cons in Hin as [[= <- <-]|Hin].
    + exists (name :: ancestors). right. apply elem_of_app. left.
      apply list_elem_of_fmap. by exists (ancestors, own, m).
    + destruct (IH Hin) as [anc Hanc]. exists anc. right.
      apply elem_of_app. by right.
  - apply elem_of_cons in Hin as [[=]|Hin]. by apply IH.
Qed.

Lemma elem_of_descendants_here (model child : nn_module) (name : string) :
  (name, Some child) ∈ _modules model → ([], name, child) ∈ descendants model.
Proof.
  destruct model as [c children]. simpl. intros Hin.
  induction children as [|[name' [child'|]] rest IH].
  - by apply elem_of_nil in Hin.
  - apply elem_of_cons in Hin as [[= <- <-]|Hin]; [left|].
    right. apply elem_of_app. right. by apply IH.
  - apply elem_of_cons in Hin as [[=]|Hin]. by apply IH.
Qed.

Lemma get_layers_leaf (m : nn_module) (prefix : list string) :
  descendants m = [] → get_layers m prefix = [].
Proof.
  destruct m as [c children]. simpl.
  induction children as [|[name [child|]] rest IH]; [done|done|]. apply IH.
Qed.

(** X19. [replace_layers] and [get_model_layers] together: when the modules
    replaced hold no modules, and neither do the modules that [new_layer()]
    constructs, as for the activation layers the function is made for,
    the layers of the model keep their names and their order. *)
Theorem replace_layers_keeps_layer_names (old_layer : string → bool)
    (new_layer model : nn_module) :
  descendants new_layer = [] →
  (∀ ancestors own m, (ancestors, own, m) ∈ descendants model →
     old_layer (cls m) = true → descendants m = []) →
  get_model_layers (replace_layers old_layer new_layer model)
  = get_model_layers model.
Proof.
  intros Hnew. unfold get_model_layers. generalize (@nil string) as prefix.
  induction model as [c children IH] using nn_module_ind'.
  intros prefix Hleaves.
  assert (∀ name child, (name, Some child) ∈ children →
            (old_layer (cls child) = true → descendants child = [])
            ∧ ∀ prefix',
                get_layers (replace_layers old_layer new_layer child) prefix'
                = get_layers child prefix') as Hchildren.
  { intros name child Hin. split.
    - apply (Hleaves [] name).
      by apply (elem_of_descendants_here (NNModule c children)).
    - intros prefix'. eapply Forall_forall in IH; [|exact Hin].
      apply (IH child eq_refl). intros ancestors own m Hm.
      destruct (elem_of_descendants_child (NNModule c children) child name
                  ancestors own m Hin Hm) as [anc Hanc].
      by apply (Hleaves anc own). }
  clear IH Hleaves. simpl.
  induction children as [|[name [child|]] rest IHrest]; [done| |].
  - destruct (Hchildren name child) as [Hleaf Hsame]; [left|].
    destruct (old_layer (cls child)); simpl;
      rewrite IHrest by (intros n ch Hin; apply (Hchildren n ch); by right);
      do 2 f_equal; [|apply Hsame].
    by rewrite !get_layers_leaf by auto.
  - apply IHrest. intros n ch Hin. apply (Hchildren n ch). by right.
Qed.

Local Open Scope Z_scope.



(** X21. [Conv2dSame.forward] splits the padding of a dimension between its
    two sides, the smaller half in front: left and right add up to the
    padding of the width, top and bottom to that of the height, and the
    right and the bottom get the one more when the padding is odd. No
    padding is asked of [F.pad] exactly when neither dimension needs any. *)
Theorem same_padding_split (ih iw kh kw : Z) (stride dilation : Z * Z)
    (pad_h pad_w : Z) :
  calc_same_pad ih kh stride.1 dilation.1 = Some pad_h →
  calc_same_pad iw kw stride.2 dilation.2 = Some pad_w →
  (pad_h = 0 ∧ pad_w = 0
   ∧ same_padding ih iw kh kw stride dilation = Some None)
  ∨ ((0 < pad_h ∨ 0 < pad_w)
     ∧ ∃ left right top bottom,
         same_padding ih iw kh kw stride dilation
         = Some (Some [left; right; top; bottom])
         ∧ left + right = pad_w ∧ 0 ≤ left ≤ right ≤ left + 1
         ∧ top + bottom = pad_h ∧ 0 ≤ top ≤ bottom ≤ top + 1).
Proof.
  intros Hh Hw. unfold same_padding. rewrite Hh, Hw. simpl.
  assert (0 ≤ pad_h ∧ 0 ≤ pad_w) as [Hph Hpw].
  { unfold calc_same_pad in Hh, Hw. split.
    - destruct (bool_decide (stride.1 = 0)); [done|]. injection Hh as <-. lia.
    - destruct (bool_decide (stride.2 = 0)); [done|]. injection Hw as <-. lia. }
  case_bool_decide as Hpad.
  - right. split; [done|]. eexists _, _, _, _. split; [done|].
    pose proof (Z.div_mod pad_w 2 ltac:(lia)).
    pose proof (Z.mod_pos_bound pad_w 2 ltac:(lia)).
    pose proof (Z.div_mod pad_h 2 ltac:(lia)).
    pose proof (Z.mod_pos_bound pad_h 2 ltac:(lia)). lia.
  - left. split_and!; [lia|lia|done].
Qed.

End ModelUtilities.

(** * The properties on the example data *)
Module Examples.
Import Mock.
Local Open Scope Z_scope.

Example mock_pass :
  outcome (_forward_with_dataloader sum_forward mock_pattern mock_args)
  = Ok mock_metric.
Proof. vm_compute. reflexivity. Qed.

Example mock_pass_forward_calls :
  forward_calls (calls (_forward_with_dataloader sum_forward mock_pattern mock_args))
  = [[x1; Tensor [2; 2; 2]%nat [100; 2; 3; 4; 100; 6; 7; 8]];
     [x2; Tensor [1; 2; 2]%nat [100; 10; 11; 12]]].
Proof. vm_compute. reflexivity. Qed.




Lemma reduce_per_batch_then_to_metric_witness :
  outcome (_forward_with_dataloader sum_forward mock_pattern mock_args)
    = Ok mock_metric
  ∧ ∃ steps : list (@step Z unit),
      reduce_calls (calls (_forward_with_dataloader sum_forward mock_pattern mock_args))
        = (λ s, (s_accum s, s_output s, s_perturbed s)) <$> steps
      ∧ length (reduce_calls
                  (calls (_forward_with_dataloader sum_forward mock_pattern mock_args)))
        = length (fa_dataloader mock_args)
      ∧ Forall2 (λ b s,
           sum_forward (forward_inputs (s_perturbed s) (fa_input_roles mock_args))
             = Ok (s_output s)
           ∧ fa_reduce mock_args (s_accum s) (s_output s) (s_perturbed s)
             = Ok (s_reduced s))
          (fa_dataloader mock_args) steps
      ∧ chained PyNone steps
      ∧ match fa_to_metric mock_args with
        | Some to_metric =>
            to_metric_calls
              (calls (_forward_with_dataloader sum_forward mock_pattern mock_args))
              = [final_accum PyNone steps]
            ∧ to_metric (final_accum PyNone steps) = Ok mock_metric
        | None =>
            to_metric_calls
              (calls (_forward_with_dataloader sum_forward mock_pattern mock_args))
              = []
            ∧ mock_metric = final_accum PyNone steps
        end
      ∧ (∀ output inputs,
           @_concat_tensors Z unit PyNone output inputs = Ok (PyTensor output))
      ∧ (∀ accum output inputs n m dims,
           shape accum = n :: dims → shape output = m :: dims →
           wf accum → wf output →
           @_concat_tensors Z unit (PyTensor accum) output inputs
           = Ok (PyTensor (Tensor (n + m :: dims)%nat (data accum ++ data output)))).
Proof.
  split; [vm_compute; reflexivity|].
  apply (reduce_per_batch_then_to_metric sum_forward mock_pattern mock_args
           mock_metric).
  vm_compute. reflexivity.
Defined.

Example mock_convert :
  _convert_output_shape mock_unique_attr [x1; y1] mock_gather_masks
  = Ok [Tensor [2; 2]%nat [10; 30; 40; 60];
        Tensor [2; 2; 2]%nat [10; 20; 30; 20; 40; 50; 60; 50]].
Proof. vm_compute. reflexivity. Qed.




Example mock_attribute_setup :
  attribute_setup mock_dataloader (Some mock_roles) None (Some (Tuple mock_masks))
    None None (-1) false = Ok mock_setup.
Proof. vm_compute. reflexivity. Qed.


Lemma attribute_result_format_witness :
  outcome (attribute dl_fa mock_dataloader (Some mock_roles) None
             (Some (Tuple mock_masks)) None None (-1) false true)
    = Ok mock_attribution
  ∧ ∃ first rest su unique_attr,
      mock_dataloader = first :: rest
      ∧ attribute_setup mock_dataloader (Some mock_roles) None
          (Some (Tuple mock_masks)) None None (-1) false = Ok su
      ∧ am_attribute (attr_method dl_fa) (installed_forward dl_fa)
          (su_feature_indices su) (su_args su) = Ok unique_attr
      ∧ (true = false → mock_attribution = AttrTensor unique_attr)
      ∧ (true = true →
           ∃ attr n_features,
             Forall2 (λ im out,
                        convert_one unique_attr (removelast (shape unique_attr))
                          n_features im.1 im.2 = Ok out)
                     (zip (su_attr_inputs su) (fa_feature_mask (su_args su))) attr
             ∧ length attr = length (su_attr_inputs su)
             ∧ match first with
               | BatchTensor _ => ∃ t, attr = [t] ∧ mock_attribution = AttrTensor t
               | BatchTuple _ | BatchList _ => mock_attribution = AttrTuple attr
               end).
Proof.
  split; [vm_compute; reflexivity|].
  apply (attribute_result_format dl_fa mock_dataloader (Some mock_roles) None
           (Some (Tuple mock_masks)) None None (-1) false true mock_attribution).
  vm_compute. reflexivity.
Defined.

Lemma config_error_fails_before_traversal_witness :
  config_error (BatchTuple [x1; y1; l1]) (Some [0; 1]) None None
  ∧ ∃ e, attribute dl_fa (BatchTuple [x1; y1; l1] :: [BatchTuple [x2; y2; l2]])
           (Some [0; 1]) None None None None (-1) false true
         = Traced [] (Err e).
Proof.
  assert (config_error (BatchTuple [x1; y1; l1]) (Some [0; 1]) None None)
    as Herr.
  { apply (roles_length_mismatch _ _ _ _ [0; 1]);
      [reflexivity | discriminate | simpl; lia]. }
  split; [exact Herr|].
  apply (config_error_fails_before_traversal dl_fa (BatchTuple [x1; y1; l1])
           [BatchTuple [x2; y2; l2]] (Some [0; 1]) None None None None (-1)
           false true Herr).
Defined.

(** An empty [input_roles] differs in length from the batches and holds no
    [need_attr], yet [attribute] goes on to call the wrapped algorithm and
    returns an attribution for every position. *)
Lemma empty_input_roles_not_rejected :
  length ([] : list Z) ≠ length (format_inputs (BatchTuple [x1; y1; l1])).1
  ∧ (InputRole.need_attr ∉ ([] : list Z))
  ∧ length (calls (attribute dl_fa mock_dataloader (Some []) None None None None
                     (-1) false true)) = 1%nat
  ∧ outcome (attribute dl_fa mock_dataloader (Some []) None None None None
               (-1) false true)
    = Ok (AttrTuple [Tensor [3; 2]%nat [1; 2; 3; 4; 5; 6];
                     Tensor [3; 2; 2]%nat [1; 2; 3; 4; 5; 6; 7; 8; 9; 10; 11; 12];
                     Tensor [3; 1]%nat [0; 1; 1]]).
Proof.
  split_and!; [simpl; lia | apply not_elem_of_nil | vm_compute; reflexivity
              | vm_compute; reflexivity].
Qed.

(** The index 1 lies in [0, n_features) but no mask contains it: it maps
    to the empty list, and [attribute] accepts the configuration. *)
Lemma unreferenced_feature_index_maps_to_empty :
  attribute_setup gap_dataloader None None (Some (One gap_mask)) None None (-1) false
    = Ok gap_setup
  ∧ shape (su_feature_indices gap_setup) = [1; 3]%nat
  ∧ 0 ≤ 1 < 3
  ∧ lookup_default (fa_feature_idx_to_mask_idx (su_args gap_setup)) 1 = []
  ∧ outcome (attribute dl_fa gap_dataloader None None (Some (One gap_mask)) None
               None (-1) false true)
    = Ok (AttrTuple [Tensor [3; 2]%nat [1; 2; 3; 4; 5; 6]]).
Proof.
  split_and!; [vm_compute; reflexivity | reflexivity | lia | lia
              | vm_compute; reflexivity | vm_compute; reflexivity].
Qed.

Lemma feature_idx_to_mask_idx_lists_masks_witness :
  attribute_setup mock_dataloader (Some mock_roles) None (Some (Tuple mock_masks))
    None None (-1) false = Ok mock_setup
  ∧ (∀ (f : Z) (k : nat),
       k ∈ lookup_default (fa_feature_idx_to_mask_idx (su_args mock_setup)) f
       ↔ ∃ mask, fa_feature_mask (su_args mock_setup) !! k = Some mask
                 ∧ f ∈ data mask)
  ∧ (∀ f : Z,
       StronglySorted lt
         (lookup_default (fa_feature_idx_to_mask_idx (su_args mock_setup)) f))
  ∧ (∀ f : Z,
       lookup_default (fa_feature_idx_to_mask_idx (su_args mock_setup)) f ≠ []
       ↔ ∃ k mask, fa_feature_mask (su_args mock_setup) !! k = Some mask
                   ∧ f ∈ data mask)
  ∧ ∃ n_features : nat,
      shape (su_feature_indices mock_setup) = [1%nat; n_features]
      ∧ lookup_default (fa_feature_idx_to_mask_idx (su_args mock_setup))
          (Z.of_nat n_features - 1) ≠ [].
Proof.
  split; [vm_compute; reflexivity|].
  apply (feature_idx_to_mask_idx_lists_masks mock_dataloader (Some mock_roles) None
           (Some (Tuple mock_masks)) None None (-1) false mock_setup).
  vm_compute. reflexivity.
Defined.

Lemma unsupported_method_rejected_at_construction_witness :
  (am_class saliency ∉ SUPPORTED_METHODS)
  ∧ __init__ saliency = Err (AssertionError UnsupportedMethod)
  ∧ ∀ self, __init__ saliency ≠ Ok self.
Proof.
  assert (am_class saliency ∉ SUPPORTED_METHODS) as Hclass.
  { intros Hin. apply list_elem_of_singleton in Hin. discriminate. }
  split; [exact Hclass|].
  apply (unsupported_method_rejected_at_construction saliency Hclass).
Defined.

Lemma falsy_input_roles_as_omitted_witness :
  truthy (Some ([] : list Z)) = false
  ∧ attribute dl_fa mock_dataloader (Some []) None None None None (-1) false true
    = attribute dl_fa mock_dataloader None None None None None (-1) false true
  ∧ ∀ inputs : list (tensor Z),
      resolve_input_roles (Some []) inputs
      = Ok ((λ _, InputRole.need_attr) <$> inputs).
Proof.
  split; [reflexivity|].
  apply (falsy_input_roles_as_omitted dl_fa mock_dataloader (Some []) None None
           None None (-1) false true).
  reflexivity.
Defined.


(** ** Further properties on the example data *)

Lemma mock_masks_in_range :
  Forall (λ mask : tensor Z, Forall (in_range 4) (data mask))
    (fa_feature_mask mock_args).
Proof. repeat constructor; unfold in_range; lia. Qed.

Lemma mock_well_shaped :
  Forall (well_shaped_batch mock_args) (fa_dataloader mock_args).
Proof.
  repeat constructor.
  all: eexists; split; [reflexivity|]; split; [reflexivity|].
  all: intros [|[|[|pos]]] inp Hinp Hrole; vm_compute in Hrole; try discriminate.
  all: injection Hinp as <-.
  all: eexists _, _, _, _; split_and!; try reflexivity; exact I.
Qed.

Lemma pass_raises_only_in_collaborators_witness :
  outcome (_forward_with_dataloader failing_forward mock_pattern mock_args)
    = Err RuntimeError
  ∧ raised_by_last_call failing_forward mock_args
      (calls (_forward_with_dataloader failing_forward mock_pattern mock_args))
      RuntimeError.
Proof.
  split; [vm_compute; reflexivity|].
  apply (pass_raises_only_in_collaborators failing_forward mock_pattern mock_args
           0 4 RuntimeError);
    [reflexivity | reflexivity | exact mock_masks_in_range | exact mock_well_shaped
    | vm_compute; reflexivity].
Defined.

(** The pass of the failing forward function stops at the first batch. *)
Example failing_pass_calls :
  calls (_forward_with_dataloader failing_forward mock_pattern mock_args)
  = [CallForward [x1; Tensor [2; 2; 2]%nat [100; 2; 3; 4; 100; 6; 7; 8]]].
Proof. vm_compute. reflexivity. Qed.

Lemma gap_pattern_misses (i : nat) :
  [false; true; false] !! i = Some true →
  lookup_default (fa_feature_idx_to_mask_idx (su_args gap_setup)) (Z.of_nat i) = [].
Proof.
  destruct i as [|[|[|i]]]; intros Hi; try discriminate Hi.
  vm_compute. reflexivity.
Qed.

Lemma unperturbed_pass_witness :
  select0 gap_pattern = Ok (Tensor [3]%nat [1; 0; 1])
  ∧ falsy_entries (Tensor [3]%nat [1; 0; 1]) = Ok [false; true; false]
  ∧ outcome (_forward_with_dataloader sum_forward gap_pattern (su_args gap_setup))
    = Ok (PyTensor (Tensor [3]%nat [3; 7; 11]))
  ∧ ∃ batches : list (list (tensor Z)),
      mapM batch_items (fa_dataloader (su_args gap_setup)) = Ok batches
      ∧ forward_calls
          (calls (_forward_with_dataloader sum_forward gap_pattern (su_args gap_setup)))
        = (λ items, forward_inputs items (fa_input_roles (su_args gap_setup)))
            <$> batches
      ∧ (reduce_calls
           (calls (_forward_with_dataloader sum_forward gap_pattern
                     (su_args gap_setup)))).*2
        = (λ items, take (length (fa_input_roles (su_args gap_setup))) items)
            <$> batches.
Proof.
  split; [reflexivity|]. split; [reflexivity|]. split; [vm_compute; reflexivity|].
  apply (unperturbed_pass sum_forward gap_pattern (su_args gap_setup)
           (PyTensor (Tensor [3]%nat [3; 7; 11])) (Tensor [3]%nat [1; 0; 1])
           [false; true; false]);
    [reflexivity | reflexivity | exact gap_pattern_misses | vm_compute; reflexivity].
Defined.

Lemma perturbed_element_witness :
  ∃ keep out,
    index (Tensor [4]%nat [1; 0; 1; 1]) (Tensor [1; 2; 2]%nat [1; 2; 3; 2]) = Ok keep
    ∧ perturb y1 keep (BScalar 100) = Ok out
    ∧ shape out = [2; 2; 2]%nat
    ∧ wf out
    ∧ ∀ (b j : nat) (x k v : Z) (z : Z),
        (b < 2)%nat →
        data y1 !! (b * numel [2; 2]%nat + j)%nat = Some x →
        data (Tensor [1; 2; 2]%nat [1; 2; 3; 2]) !! j = Some z →
        data (Tensor [4]%nat [1; 0; 1; 1]) !! Z.to_nat z = Some k →
        baseline_value (BScalar 100) j = Some v →
        data out !! (b * numel [2; 2]%nat + j)%nat
        = Some (sadd (smul x k) (smul v (ssub sone k))).
Proof.
  apply (perturbed_element (Tensor [4]%nat [1; 0; 1; 1]) y1
           (Tensor [1; 2; 2]%nat [1; 2; 3; 2]) (BScalar 100) 4 2 [2; 2]%nat);
    [reflexivity | reflexivity | reflexivity | reflexivity | reflexivity
    | reflexivity | repeat constructor; unfold in_range; lia | exact I].
Defined.

Lemma sum_forward_shape (inputs : list (tensor Z)) (out : tensor Z) :
  sum_forward inputs = Ok out → ∃ n, shape out = n :: [] ∧ wf out.
Proof.
  unfold sum_forward. destruct inputs as [|t inputs]; [done|].
  destruct (shape t) as [|n s]; [done|]. intros [= <-]. exists n.
  split; [reflexivity|]. unfold wf. simpl. rewrite length_fmap, length_seq. lia.
Qed.

Lemma default_reduce_concatenates_witness :
  outcome (_forward_with_dataloader sum_forward mock_pattern mock_args)
    = Ok mock_metric
  ∧ ∃ outputs : list (tensor Z),
      Forall2 (λ inputs out, sum_forward inputs = Ok out)
        (forward_calls
           (calls (_forward_with_dataloader sum_forward mock_pattern mock_args)))
        outputs
      ∧ length outputs = length (fa_dataloader mock_args)
      ∧ mock_metric
        = match outputs with
          | [] => PyNone
          | _ :: _ =>
              PyTensor (Tensor (sum_list (batch_dim <$> outputs) :: [])
                          (concat (data <$> outputs)))
          end.
Proof.
  split; [vm_compute; reflexivity|].
  apply (default_reduce_concatenates sum_forward mock_pattern mock_args mock_metric []);
    [reflexivity | reflexivity | exact sum_forward_shape | vm_compute; reflexivity].
Defined.

Lemma loss_forward_shape (inputs : list (tensor Z)) (out : tensor Z) :
  loss_forward inputs = Ok out → shape out = [].
Proof. by intros [= <-]. Qed.

Lemma default_reduce_rejects_scalar_outputs_witness :
  outcome (_forward_with_dataloader loss_forward mock_pattern one_batch_args)
    = Ok (PyTensor (Tensor [] [240]))
  ∧ (length (fa_dataloader one_batch_args) ≤ 1)%nat.
Proof.
  split; [vm_compute; reflexivity|].
  apply (default_reduce_rejects_scalar_outputs loss_forward mock_pattern
           one_batch_args (PyTensor (Tensor [] [240])));
    [reflexivity | exact loss_forward_shape | vm_compute; reflexivity].
Defined.

(** With the second batch of the dataloader the same pass raises. *)
Example loss_over_two_batches :
  outcome (_forward_with_dataloader loss_forward mock_pattern mock_args)
  = Err RuntimeError.
Proof. vm_compute. reflexivity. Qed.

Lemma batch_cut_to_roles_witness :
  outcome (_forward_with_dataloader sum_forward mock_pattern short_roles_args)
    = Ok mock_metric
  ∧ Forall2 (λ b inputs, ∃ items, batch_items b = Ok items
               ∧ length inputs
                 = (length items `min` length (fa_input_roles short_roles_args))%nat)
      (fa_dataloader short_roles_args)
      (reduce_calls
         (calls (_forward_with_dataloader sum_forward mock_pattern short_roles_args))).*2
  ∧ forward_calls
      (calls (_forward_with_dataloader sum_forward mock_pattern short_roles_args))
    = (λ inputs, forward_inputs inputs (fa_input_roles short_roles_args))
        <$> (reduce_calls
               (calls (_forward_with_dataloader sum_forward mock_pattern
                         short_roles_args))).*2.
Proof.
  split; [vm_compute; reflexivity|].
  apply (batch_cut_to_roles sum_forward mock_pattern short_roles_args mock_metric).
  vm_compute. reflexivity.
Defined.

(** The labels, third in every batch, have no role and reach nobody. *)
Example short_roles_reduce_inputs :
  (reduce_calls
     (calls (_forward_with_dataloader sum_forward mock_pattern short_roles_args))).*2
  = [[x1; Tensor [2; 2; 2]%nat [100; 2; 3; 4; 100; 6; 7; 8]];
     [x2; Tensor [1; 2; 2]%nat [100; 10; 11; 12]]].
Proof. vm_compute. reflexivity. Qed.

Lemma accepted_configuration_witness :
  attribute_setup mock_dataloader (Some mock_roles) None (Some (Tuple mock_masks))
    None None (-1) false = Ok mock_setup
  ∧ ∃ first rest (n_features : nat),
      mock_dataloader = first :: rest
      ∧ fa_dataloader (su_args mock_setup) = mock_dataloader
      ∧ length (fa_input_roles (su_args mock_setup)) = length (format_inputs first).1
      ∧ su_attr_inputs mock_setup
        = attr_inputs_of (fa_input_roles (su_args mock_setup)) (format_inputs first).1
      ∧ su_attr_inputs mock_setup ≠ []
      ∧ length (fa_baselines (su_args mock_setup)) = length (su_attr_inputs mock_setup)
      ∧ length (fa_feature_mask (su_args mock_setup))
        = length (su_attr_inputs mock_setup)
      ∧ (∀ t, BTensor t ∈ fa_baselines (su_args mock_setup) → size0 t = Ok 1%nat)
      ∧ (∀ mask, mask ∈ fa_feature_mask (su_args mock_setup) → size0 mask = Ok 1%nat)
      ∧ shape (su_feature_indices mock_setup) = [1%nat; n_features]
      ∧ (∀ mask z, mask ∈ fa_feature_mask (su_args mock_setup) → z ∈ data mask →
           z < Z.of_nat n_features)
      ∧ fa_feature_idx_to_mask_idx (su_args mock_setup)
        = build_feature_idx_to_mask_idx (fa_feature_mask (su_args mock_setup)).
Proof.
  split; [vm_compute; reflexivity|].
  apply (accepted_configuration mock_dataloader (Some mock_roles) None
           (Some (Tuple mock_masks)) None None (-1) false mock_setup).
  vm_compute. reflexivity.
Defined.

Lemma wrapper_runs_method_on_passes_witness :
  am_class feature_ablation ∈ SUPPORTED_METHODS
  ∧ attribute_setup mock_dataloader (Some mock_roles) None (Some (Tuple mock_masks))
      None None (-1) false = Ok mock_setup
  ∧ ∃ self,
      __init__ feature_ablation = Ok self
      ∧ outcome (attribute self mock_dataloader (Some mock_roles) None
                   (Some (Tuple mock_masks)) None None (-1) false false)
        = AttrTensor
            <$> am_attribute feature_ablation
                  (λ pattern args,
                     outcome (_forward_with_dataloader
                                (am_forward_func feature_ablation) pattern args))
                  (su_feature_indices mock_setup) (su_args mock_setup).
Proof.
  assert (am_class feature_ablation ∈ SUPPORTED_METHODS) as Hclass by left.
  split; [exact Hclass|]. split; [vm_compute; reflexivity|].
  apply (wrapper_runs_method_on_passes feature_ablation mock_dataloader
           (Some mock_roles) None (Some (Tuple mock_masks)) None None (-1) false
           mock_setup Hclass).
  vm_compute. reflexivity.
Defined.

Lemma pass_reads_first_pattern_row_witness :
  shape two_row_pattern = [2; 4]%nat
  ∧ take (numel [4%nat]) (data two_row_pattern) = data mock_pattern
  ∧ _forward_with_dataloader sum_forward two_row_pattern mock_args
    = _forward_with_dataloader sum_forward
        (Tensor (1%nat :: [4%nat]) (take (numel [4%nat]) (data two_row_pattern)))
        mock_args.
Proof.
  split; [reflexivity|]. split; [reflexivity|].
  apply (pass_reads_first_pattern_row sum_forward two_row_pattern mock_args 1
           [4%nat]).
  reflexivity.
Defined.

Lemma tensor_dataloader_rows :
  Forall (λ b : @batch Z, ∃ t (n : nat) (s : list nat),
            b = BatchTensor t ∧ shape t = S n :: s) tensor_dataloader.
Proof. repeat constructor; eexists _, _, _; split; reflexivity. Qed.

Lemma tensor_batches_forwarded_by_first_row_witness :
  attribute_setup tensor_dataloader None None (Some (One gap_mask)) None None (-1)
    false = Ok tensor_setup
  ∧ outcome (_forward_with_dataloader sum_forward gap_pattern (su_args tensor_setup))
    = Ok (PyTensor (Tensor [4]%nat [1; 2; 5; 6]))
  ∧ su_is_inputs_tuple tensor_setup = false
  ∧ fa_input_roles (su_args tensor_setup) = [InputRole.need_attr]
  ∧ Forall2 (λ b inputs,
       ∃ t first_row x,
         b = BatchTensor t ∧ select0 t = Ok first_row ∧ inputs = [x]
         ∧ (x = first_row ∨ ∃ keep bl, perturb first_row keep bl = Ok x))
      tensor_dataloader
      (forward_calls
         (calls (_forward_with_dataloader sum_forward gap_pattern
                   (su_args tensor_setup)))).
Proof.
  split; [vm_compute; reflexivity|]. split; [vm_compute; reflexivity|].
  apply (tensor_batches_forwarded_by_first_row tensor_dataloader None
           (Some (One gap_mask)) None None (-1) false tensor_setup sum_forward
           gap_pattern (PyTensor (Tensor [4]%nat [1; 2; 5; 6])));
    [vm_compute; reflexivity | exact tensor_dataloader_rows
    | vm_compute; reflexivity].
Defined.

(** Of the two samples of the first batch the forward function has seen the
    first only, as a tensor of one dimension. *)
Example tensor_dataloader_forward_calls :
  forward_calls
    (calls (_forward_with_dataloader sum_forward gap_pattern (su_args tensor_setup)))
  = [[Tensor [2]%nat [1; 2]]; [Tensor [2]%nat [5; 6]]].
Proof. vm_compute. reflexivity. Qed.



Lemma reconstruction_reads_in_range_witness :
  _convert_output_shape mock_unique_attr [x1; y1] mock_gather_masks
    = Ok [Tensor [2; 2]%nat [10; 30; 40; 60];
          Tensor [2; 2; 2]%nat [10; 20; 30; 20; 40; 50; 60; 50]]
  ∧ ∃ n_features : nat,
      last (shape mock_unique_attr) = Some n_features
      ∧ ∀ (k : nat) (inp : tensor Z) (mask : tensor Z),
          [x1; y1] !! k = Some inp → mock_gather_masks !! k = Some mask →
          wf mask →
          numel (removelast (shape mock_unique_attr) ++ tail (shape inp)) ≠ 0%nat →
          Forall (in_range n_features) (data mask).
Proof.
  split; [vm_compute; reflexivity|].
  apply (reconstruction_reads_in_range mock_unique_attr [x1; y1] mock_gather_masks
           [Tensor [2; 2]%nat [10; 30; 40; 60];
            Tensor [2; 2; 2]%nat [10; 20; 30; 20; 40; 50; 60; 50]]).
  vm_compute. reflexivity.
Defined.

(** A mask that holds the number of features, and one that holds -1. *)
Example index_out_of_range_raises :
  _convert_output_shape mock_unique_attr [x1] [Tensor [1; 2]%nat [0; 3]]
    = Err RuntimeError
  ∧ _convert_output_shape mock_unique_attr [x1] [Tensor [1; 2]%nat [0; -1]]
    = Err RuntimeError.
Proof. split; vm_compute; reflexivity. Qed.


(** ** The module utilities on the example model *)

Example small_net_layers :
  Models.get_model_layers ModelsMock.small_net
  = ["features"; "features[0]"; "features[1]"; "classifier"].
Proof. vm_compute. reflexivity. Qed.

(** Below a module whose own name is not a number a dot precedes the
    bracket, and the name of a numbered module loses the dots between its
    ancestors. *)
Example nested_layer_names :
  Models.get_model_layers
    (Models.NNModule "Net"
       [("a", Some (Models.NNModule "Block"
          [("b", Some (Models.NNModule "Sequential"
             [("0", Some (Models.NNModule "Block"
                [("conv", Some (Models.NNModule "Conv2d" []))]))]))]))])
  = ["a"; "a.b"; "ab[0]"; "a.b.[0].conv"].
Proof. vm_compute. reflexivity. Qed.

Lemma replace_layers_leaves_no_old_layer_witness :
  ModelsMock.is_relu (Models.cls ModelsMock.redirected_relu) = false
  ∧ Models.cls (Models.replace_layers ModelsMock.is_relu ModelsMock.redirected_relu
                  ModelsMock.small_net)
    = Models.cls ModelsMock.small_net
  ∧ Forall (λ '(_, _, m), ModelsMock.is_relu (Models.cls m) = false)
      (Models.descendants
         (Models.replace_layers ModelsMock.is_relu ModelsMock.redirected_relu
            ModelsMock.small_net)).
Proof.
  split; [reflexivity|].
  apply (replace_layers_leaves_no_old_layer ModelsMock.is_relu
           ModelsMock.redirected_relu ModelsMock.small_net);
    [reflexivity | constructor].
Defined.

Lemma small_net_relus_are_leaves (ancestors : list string) (own : string)
    (m : Models.nn_module) :
  (ancestors, own, m) ∈ Models.descendants ModelsMock.small_net →
  ModelsMock.is_relu (Models.cls m) = true → Models.descendants m = [].
Proof.
  intros Hin Hrelu. vm_compute in Hin.
  repeat (apply elem_of_cons in Hin as [[= -> -> ->]|Hin]; [try reflexivity|]).
  - vm_compute in Hrelu. discriminate Hrelu.
  - by apply elem_of_nil in Hin.
Qed.

Lemma replace_layers_keeps_layer_names_witness :
  Models.descendants ModelsMock.redirected_relu = []
  ∧ Models.get_model_layers
      (Models.replace_layers ModelsMock.is_relu ModelsMock.redirected_relu
         ModelsMock.small_net)
    = Models.get_model_layers ModelsMock.small_net.
Proof.
  split; [reflexivity|].
  apply (replace_layers_keeps_layer_names ModelsMock.is_relu
           ModelsMock.redirected_relu ModelsMock.small_net);
    [reflexivity | exact small_net_relus_are_leaves].
Defined.


Lemma same_padding_split_witness :
  Models.calc_same_pad 224 7 2 1 = Some 5
  ∧ ((5 = 0 ∧ 5 = 0
      ∧ Models.same_padding 224 224 7 7 (2, 2) (1, 1) = Some None)
     ∨ ((0 < 5 ∨ 0 < 5)
        ∧ ∃ left right top bottom,
            Models.same_padding 224 224 7 7 (2, 2) (1, 1)
            = Some (Some [left; right; top; bottom])
            ∧ left + right = 5 ∧ 0 ≤ left ≤ right ≤ left + 1
            ∧ top + bottom = 5 ∧ 0 ≤ top ≤ bottom ≤ top + 1)).
Proof.
  split; [reflexivity|].
  apply (same_padding_split 224 224 7 7 (2, 2) (1, 1) 5 5); reflexivity.
Defined.

(** Two pixels in front and three behind, in both dimensions. *)
Example same_padding_224 :
  Models.same_padding 224 224 7 7 (2, 2) (1, 1) = Some (Some [2; 3; 2; 3]).
Proof. reflexivity. Qed.

End Examples.
